(** * Identity reconciliation and credit accounting of the CJPol agent API

    A shallow embedding of the authentication / user-service core of the
    API (src/utils/wordpressAuth.ts, src/utils/jwt.ts, the user service,
    src/services/authService.ts and the configuration modules), followed
    by the properties of that code.

    Conventions of the embedding:
    - A JavaScript string is a [string] holding the UTF-8 bytes of its
      text; [JS.length] counts its UTF-16 code units, as [.length] does.
    - A number that holds an integer is a [Z].  A double holds every
      integer up to 2^53 in magnitude and rounds beyond it: the one
      subtraction the code makes on a number a caller chooses
      ([consumeCredits]) is [Number.sub], which rounds as the double does.
    - A value that may be [undefined] or [null] is an [option].
    - An [async] function that reads or writes the Supabase table is a
      computation in the monad [M]: it takes the world (the table, the
      schedule of storage faults, the clock, the uuid source) and gives
      back either a returned value or a thrown [ApiError], together with
      the world it leaves behind.  A throw keeps the writes made before it.
    - The two external collaborators are modelled by their interface:
      the WordPress endpoints by the outcome of the remote exchange, the
      jsonwebtoken package by its HS256 sign / verify behaviour. *)

From Stdlib Require Import ZArith List String Ascii Bool Lia DecimalString.
Import ListNotations.

Local Open Scope string_scope.
Local Open Scope Z_scope.

(* ------------------------------------------------------------------ *)
(** ** Numbers

    A JavaScript number is a double.  The numbers of this code hold
    integers; as long as they stay within 2^53 in magnitude the double
    arithmetic is the arithmetic of [Z], and beyond that a result is
    rounded to the nearest double. *)

Module Number.

Definition MAX_SAFE_INTEGER : Z := 2 ^ 53 - 1.

(** [Number.isSafeInteger] on an integer. *)
Definition isSafeInteger (z : Z) : bool := Z.abs z <=? MAX_SAFE_INTEGER.

(** The double nearest to an integer.  Up to 2^53 in magnitude the
    integer is a double itself.  Beyond, a double keeps 53 significant
    bits: with [e] the weight of the last of them, the integer is
    [q * 2^e + r], and it goes to [q * 2^e] or [(q + 1) * 2^e], whichever
    is nearer, and to the one with the even significand when it lies
    halfway.  (From 2^1024 on a double is infinite; numbers of that size
    are beyond this model.) *)
Definition round (z : Z) : Z :=
  let a := Z.abs z in
  if a <=? 2 ^ 53 then z
  else
    let e := Z.log2 a - 52 in
    let q := a / 2 ^ e in
    let r := a mod 2 ^ e in
    let q' :=
      if (2 ^ e <? 2 * r) || ((2 ^ e =? 2 * r) && Z.odd q) then q + 1
      else q in
    Z.sgn z * (q' * 2 ^ e).

(** [a - b] *)
Definition sub (a b : Z) : Z := round (a - b).

End Number.

(* ------------------------------------------------------------------ *)
(** ** JavaScript helpers *)

Module JS.

(** [!!s] for a string: only the empty string is falsy. *)
Definition truthy (s : string) : bool := negb (s =? "")%string.

(** [a || b] where [a] is a possibly-undefined string. *)
Definition or_else (a : option string) (b : string) : string :=
  match a with
  | Some s => if truthy s then s else b
  | None => b
  end.

(** [a || null] for a possibly-undefined string. *)
Definition or_null (a : option string) : option string :=
  match a with
  | Some s => if truthy s then Some s else None
  | None => None
  end.

(** [a || b] where both sides may be null. *)
Definition or_opt (a b : option string) : option string :=
  match or_null a with
  | Some s => Some s
  | None => b
  end.

(** [s.length]: the number of UTF-16 code units of the text.  Of the
    UTF-8 bytes, one that continues a character (10xxxxxx) counts for
    nothing, and the first byte of a four-byte character (a character
    beyond U+FFFF, which takes two code units) counts twice. *)
Fixpoint length (s : string) : nat :=
  match s with
  | EmptyString => 0%nat
  | String c r =>
      let n := nat_of_ascii c in
      ((if (128 <=? n)%nat && (n <? 192)%nat then 0
        else if (240 <=? n)%nat then 2 else 1) + length r)%nat
  end.

(** The white space [parseInt] skips, in UTF-8.  Of one byte: TAB, LF,
    VT, FF, CR and the space. *)
Definition is_space (c : ascii) : bool :=
  let n := nat_of_ascii c in
  ((9 <=? n)%nat && (n <=? 13)%nat) || (n =? 32)%nat.

(** Of two bytes: the no-break space U+00A0. *)
Definition is_space2 (c1 c2 : ascii) : bool :=
  (nat_of_ascii c1 =? 194)%nat && (nat_of_ascii c2 =? 160)%nat.

(** Of three bytes: U+1680, U+2000 to U+200A, U+2028, U+2029, U+202F,
    U+205F, U+3000 and U+FEFF. *)
Definition is_space3 (c1 c2 c3 : ascii) : bool :=
  let n1 := nat_of_ascii c1 in
  let n2 := nat_of_ascii c2 in
  let n3 := nat_of_ascii c3 in
  ((n1 =? 225)%nat && (n2 =? 154)%nat && (n3 =? 128)%nat)
  || ((n1 =? 226)%nat && (n2 =? 128)%nat
      && (((128 <=? n3)%nat && (n3 <=? 138)%nat)
          || (n3 =? 168)%nat || (n3 =? 169)%nat || (n3 =? 175)%nat))
  || ((n1 =? 226)%nat && (n2 =? 129)%nat && (n3 =? 159)%nat)
  || ((n1 =? 227)%nat && (n2 =? 128)%nat && (n3 =? 128)%nat)
  || ((n1 =? 239)%nat && (n2 =? 187)%nat && (n3 =? 191)%nat).

Definition digit_of (c : ascii) : option Z :=
  let n := nat_of_ascii c in
  if ((48 <=? n)%nat && (n <=? 57)%nat)%bool
  then Some (Z.of_nat (n - 48)) else None.

Fixpoint skip_space (s : string) : string :=
  match s with
  | String c1 r1 =>
      if is_space c1 then skip_space r1
      else
        match r1 with
        | String c2 r2 =>
            if is_space2 c1 c2 then skip_space r2
            else
              match r2 with
              | String c3 r3 =>
                  if is_space3 c1 c2 c3 then skip_space r3 else s
              | EmptyString => s
              end
        | EmptyString => s
        end
  | EmptyString => s
  end.

(** The longest prefix of decimal digits, read as a number; [acc] is
    [None] until a first digit has been seen. *)
Fixpoint digits (s : string) (acc : option Z) : option Z :=
  match s with
  | String c r =>
      match digit_of c with
      | Some d =>
          digits r (Some (10 * match acc with Some a => a | None => 0 end + d))
      | None => acc
      end
  | EmptyString => acc
  end.

(** [parseInt(s, 10)]: the number the digits spell, as a double;
    [None] is [NaN]. *)
Definition parseInt (s : string) : option Z :=
  option_map Number.round
    match skip_space s with
    | String "-" r => option_map Z.opp (digits r None)
    | String "+" r => digits r None
    | t => digits t None
    end.

(** [n === k] for a parsed number: [NaN] equals nothing. *)
Definition num_is (n : option Z) (k : Z) : bool :=
  match n with
  | Some z => z =? k
  | None => false
  end.

(** [String.prototype.startsWith]. *)
Definition startsWith (s p : string) : bool := String.prefix p s.

(** [Array.prototype.includes] on an array of strings. *)
Definition includes (xs : list string) (x : string) : bool :=
  existsb (String.eqb x) xs.

End JS.

(* ------------------------------------------------------------------ *)
(** ** src/utils/errors.ts *)

Inductive ApiError : Type :=
| BadRequestError (message : string)
| UnauthorizedError (message : string)
| ForbiddenError (message : string)
| NotFoundError (message : string)
| ConflictError (message : string)
| InternalServerError (message : string).

Definition statusCode (e : ApiError) : Z :=
  match e with
  | BadRequestError _ => 400
  | UnauthorizedError _ => 401
  | ForbiddenError _ => 403
  | NotFoundError _ => 404
  | ConflictError _ => 409
  | InternalServerError _ => 500
  end.

Definition message_of (e : ApiError) : string :=
  match e with
  | BadRequestError m | UnauthorizedError m | ForbiddenError m
  | NotFoundError m | ConflictError m | InternalServerError m => m
  end.

(** The class of an error: what [instanceof] tells apart. *)
Definition className (e : ApiError) : string :=
  match e with
  | BadRequestError _ => "BadRequestError"
  | UnauthorizedError _ => "UnauthorizedError"
  | ForbiddenError _ => "ForbiddenError"
  | NotFoundError _ => "NotFoundError"
  | ConflictError _ => "ConflictError"
  | InternalServerError _ => "InternalServerError"
  end.

(** [error instanceof UnauthorizedError || error instanceof BadRequestError] *)
Definition is_auth_or_bad_request (e : ApiError) : bool :=
  match e with
  | UnauthorizedError _ | BadRequestError _ => true
  | _ => false
  end.

(** What a call comes back with. *)
Inductive outcome (A : Type) : Type :=
| Returned (a : A)
| Thrown (e : ApiError).
Arguments Returned {A} a.
Arguments Thrown {A} e.

(* ------------------------------------------------------------------ *)
(** ** src/config/credits.ts and src/config/roles.ts *)

Module Credits.
Definition DEFAULT_CREDITS_FREE : Z := 5.
Definition DEFAULT_CREDITS_NEW_USER : Z := 5.

Module MEMBERSHIP_CREDITS.
Definition FREE : Z := 5.
Definition BASIC : Z := 10.
Definition COMPLETE : Z := 20.
Definition DEVELOPER : Z := 500.
End MEMBERSHIP_CREDITS.

Module MEMBERSHIP_LEVELS.
Definition FREE : Z := 0.
Definition BASIC : Z := 1.
Definition COMPLETE : Z := 2.
Definition DEVELOPER : Z := 999.
End MEMBERSHIP_LEVELS.

Module MEMBERSHIP_NAMES.
Definition FREE : string := "free".
Definition BASIC : string := "basic".
Definition COMPLETE : string := "complete".
Definition DEVELOPER : string := "developer".
End MEMBERSHIP_NAMES.
End Credits.
Import Credits.

Module USER_ROLES.
Definition ADMIN : string := "admin".
Definition USER : string := "user".
End USER_ROLES.

Module WP_ROLE_MAPPING.
Definition ADMIN : string := "administrator".
End WP_ROLE_MAPPING.

(* ------------------------------------------------------------------ *)
(** ** src/config/env.ts

    [process.env] as the module reads it.  The string settings are kept
    raw ([None] when the variable is unset) so that the [||] defaults of
    env.ts are part of the model.  The two numeric settings are the
    numbers [parseInt] makes of the variables, or of their defaults 1000
    and 86400 when they are unset: the model is of the configurations in
    which they are numbers (of a value that does not parse [parseInt]
    makes [NaN]). *)

Record ProcessEnv : Type := {
  env_NODE_ENV : option string;
  env_DEV_MODE_EMAIL : option string;
  env_DEV_MODE_PASSWORD : option string;
  env_DEV_MODE_USER_ID : option string;
  env_DEV_MODE_USER_NAME : option string;
  env_DEV_MODE_CREDITS : Z;
  env_JWT_SECRET : option string;
  env_JWT_EXPIRATION : Z
}.

Section Env.
Variable penv : ProcessEnv.

Definition NODE_ENV : string := JS.or_else (env_NODE_ENV penv) "production".
Definition IS_PRODUCTION : bool := (NODE_ENV =? "production")%string.
Definition IS_DEVELOPMENT : bool := (NODE_ENV =? "development")%string.

Definition DEV_MODE_EMAIL : string :=
  JS.or_else (env_DEV_MODE_EMAIL penv) "dev@example.com".
Definition DEV_MODE_PASSWORD : string :=
  JS.or_else (env_DEV_MODE_PASSWORD penv) "devpassword".
Definition DEV_MODE_USER_ID : string :=
  JS.or_else (env_DEV_MODE_USER_ID penv) "dev-user-id".
Definition DEV_MODE_USER_NAME : string :=
  JS.or_else (env_DEV_MODE_USER_NAME penv) "Development User".
Definition DEV_MODE_CREDITS : Z := env_DEV_MODE_CREDITS penv.

Definition JWT_SECRET : string :=
  JS.or_else (env_JWT_SECRET penv) "default_jwt_secret_dev_only".
Definition JWT_EXPIRATION : Z := env_JWT_EXPIRATION penv.
End Env.

(* ------------------------------------------------------------------ *)
(** ** src/utils/wordpressAuth.ts *)

(** [Number.prototype.toString] on a safe integer
    ([Number.isSafeInteger]), which is printed with all its decimal
    digits.  The code applies it to the constant 999 and to the [id] of a
    profile, see [JsonId]. *)
Definition toString (z : Z) : string := NilZero.string_of_int (Z.to_int z).

(** The [pmpro_membership] object of a WordPress profile. *)
Record PmproMembership : Type := {
  pm_id : string;
  pm_name : string;
  pm_level : string;
  pm_initial_payment : Z;
  pm_billing_amount : Z;
  pm_cycle_number : string;
  pm_cycle_period : string;
  pm_expiration : option string
}.

Record WordPressUser : Type := {
  wp_id : string;
  wp_email : string;
  wp_name : string;
  wp_roles : list string;
  wp_avatar_urls : option (list (string * string));
  wp_pmpro_membership : option PmproMembership
}.

Record WordPressMembership : Type := {
  wm_id : Z;
  wm_name : string;
  wm_description : option string;
  wm_initial_payment : option Z;
  wm_billing_amount : option Z;
  wm_cycle_number : option (option Z);
  wm_cycle_period : option string;
  wm_expiration_number : option Z;
  wm_expiration_period : option string;
  wm_allow_signups : option bool
}.

(** [wpUser.avatar_urls?.['96']] *)
Definition avatar96 (u : WordPressUser) : option string :=
  match wp_avatar_urls u with
  | Some urls =>
      match find (fun kv => (fst kv =? "96")%string) urls with
      | Some kv => Some (snd kv)
      | None => None
      end
  | None => None
  end.

(** The part of the Express request the verifier looks at. *)
Record Request : Type := { req_ip : option string }.

(** [req && req.ip] *)
Definition request_ip (req : option Request) : option string :=
  match req with
  | Some r => JS.or_null (req_ip r)
  | None => None
  end.

Section WordpressAuth.
Variable penv : ProcessEnv.

(** The exchange with the WordPress token and profile endpoints
    ([verifyWordPressCredentialsWithJWT]): what it comes back with is
    decided by the remote site, so it is a parameter here. *)
Variable verifyWordPressCredentialsWithJWT :
  string -> string -> outcome WordPressUser.

(** The identity the dev-mode path hands out. *)
Definition devModeUser : WordPressUser :=
  {| wp_id := DEV_MODE_USER_ID penv;
     wp_email := DEV_MODE_EMAIL penv;
     wp_name := DEV_MODE_USER_NAME penv;
     wp_roles := ["administrator"];
     wp_avatar_urls := Some [];
     wp_pmpro_membership :=
       Some {| pm_id := toString MEMBERSHIP_LEVELS.DEVELOPER;
               pm_name := "Developer Plan";
               pm_level := toString MEMBERSHIP_LEVELS.DEVELOPER;
               pm_initial_payment := 0;
               pm_billing_amount := 0;
               pm_cycle_number := "0";
               pm_cycle_period := "month";
               pm_expiration := None |} |}.

Definition verifyWordPressCredentialsDevMode
    (username password : string) (req : option Request)
    : outcome WordPressUser :=
  if negb (JS.truthy username) || negb (JS.truthy password) then
    Thrown (BadRequestError "Email and password are required")
  else if negb (IS_DEVELOPMENT penv) then
    Thrown (UnauthorizedError
      "Dev mode authentication is only available in development environment")
  else if negb (JS.truthy (DEV_MODE_EMAIL penv))
          || negb (JS.truthy (DEV_MODE_PASSWORD penv))
          || (Z.of_nat (JS.length (DEV_MODE_PASSWORD penv)) <? 12) then
    Thrown (UnauthorizedError
      "Dev mode authentication is not properly configured")
  else
    let local_ok :=
      match request_ip req with
      | Some ip =>
          let isLocalhost := (ip =? "127.0.0.1")%string || (ip =? "::1")%string in
          let isPrivateNetwork :=
            JS.startsWith ip "10." || JS.startsWith ip "172.16."
            || JS.startsWith ip "192.168." in
          isLocalhost || isPrivateNetwork
      | None => true
      end in
    if negb local_ok then
      Thrown (UnauthorizedError
        "Dev mode authentication is only available from local networks")
    else
      (* try { ... } catch (error) { throw new UnauthorizedError(...) } *)
      let attempt : outcome WordPressUser :=
        if (username =? DEV_MODE_EMAIL penv)%string
           && (password =? DEV_MODE_PASSWORD penv)%string
        then Returned devModeUser
        else Thrown (UnauthorizedError "Invalid development mode credentials") in
      match attempt with
      | Returned u => Returned u
      | Thrown _ => Thrown (UnauthorizedError "Authentication failed in dev mode")
      end.

Definition verifyWordPressCredentials
    (username password : string) (req : option Request)
    : outcome WordPressUser :=
  if negb (JS.truthy username) || negb (JS.truthy password) then
    Thrown (BadRequestError "Email and password are required")
  else
    match verifyWordPressCredentialsWithJWT username password with
    | Returned u => Returned u
    | Thrown _ =>
        let fallback : option WordPressUser :=
          if IS_DEVELOPMENT penv then
            match verifyWordPressCredentialsDevMode username password req with
            | Returned u => Some u
            | Thrown _ => None
            end
          else None in
        match fallback with
        | Some u => Returned u
        | None =>
            Thrown (UnauthorizedError
              "Authentication failed. Please check server logs for details.")
        end
    end.
End WordpressAuth.

Definition getMembershipLevel (wpUser : WordPressUser) : WordPressMembership :=
  match wp_pmpro_membership wpUser with
  | Some membership =>
      let membershipId := JS.parseInt (pm_level membership) in
      let '(mappedId, mappedName) :=
        if JS.num_is membershipId MEMBERSHIP_LEVELS.COMPLETE then
          (MEMBERSHIP_LEVELS.COMPLETE, MEMBERSHIP_NAMES.COMPLETE)
        else if JS.num_is membershipId MEMBERSHIP_LEVELS.BASIC then
          (MEMBERSHIP_LEVELS.BASIC, MEMBERSHIP_NAMES.BASIC)
        else
          (MEMBERSHIP_LEVELS.FREE, MEMBERSHIP_NAMES.FREE) in
      {| wm_id := mappedId;
         wm_name := mappedName;
         wm_description := Some "";
         wm_initial_payment := Some (pm_initial_payment membership);
         wm_billing_amount := Some (pm_billing_amount membership);
         wm_cycle_number := Some (JS.parseInt (pm_cycle_number membership));
         wm_cycle_period := Some (pm_cycle_period membership);
         wm_expiration_number := Some 0;
         wm_expiration_period := Some "";
         wm_allow_signups := Some true |}
  | None =>
      {| wm_id := MEMBERSHIP_LEVELS.FREE;
         wm_name := MEMBERSHIP_NAMES.FREE;
         wm_description := None;
         wm_initial_payment := None;
         wm_billing_amount := None;
         wm_cycle_number := None;
         wm_cycle_period := None;
         wm_expiration_number := None;
         wm_expiration_period := None;
         wm_allow_signups := None |}
  end.

(* ------------------------------------------------------------------ *)
(** ** src/utils/jwt.ts *)

Record JwtUserPayload : Type := {
  jwt_id : string;
  jwt_email : string;
  jwt_role : string
}.

(** The jsonwebtoken package, as far as jwt.ts uses it: HS256 tokens with
    the registered claims [iat] and [exp], times in seconds.  A token is
    either a string that does not decode, or a decoded claim set with the
    signature it carries.  The MAC itself is a parameter. *)
Module jwt.

Record Claims : Type := {
  payload : JwtUserPayload;
  iat : Z;
  exp : Z
}.

Inductive Token : Type :=
| Malformed (raw : string)
| Compact (claims : Claims) (signature : string).

(** Errors of the package; [TokenExpiredError] and [NotBeforeError] are
    subclasses of [JsonWebTokenError]. *)
Inductive Error : Type :=
| TokenExpiredError (msg : string)
| NotBeforeError (msg : string)
| JsonWebTokenError (msg : string)
| OtherError (msg : string).

Definition instanceof_TokenExpiredError (e : Error) : bool :=
  match e with TokenExpiredError _ => true | _ => false end.

Definition instanceof_JsonWebTokenError (e : Error) : bool :=
  match e with OtherError _ => false | _ => true end.

Section HS256.
Variable hmac : string -> Claims -> string.

Definition sign (p : JwtUserPayload) (secret : string) (expiresIn : Z)
    (now : Z) : Token :=
  let c := {| payload := p; iat := now; exp := now + expiresIn |} in
  Compact c (hmac secret c).

Definition verify (t : Token) (secret : string) (now : Z)
    : Error + Claims :=
  match t with
  | Malformed _ => inl (JsonWebTokenError "jwt malformed")
  | Compact c sg =>
      if negb (sg =? hmac secret c)%string then
        inl (JsonWebTokenError "invalid signature")
      else if exp c <=? now then
        inl (TokenExpiredError "jwt expired")
      else inr c
  end.
End HS256.
End jwt.

Section Jwt.
Variable penv : ProcessEnv.
Variable hmac : string -> jwt.Claims -> string.

Definition generateToken (user : JwtUserPayload) (now : Z) : jwt.Token :=
  jwt.sign hmac user (JWT_SECRET penv) (JWT_EXPIRATION penv) now.

Definition verifyToken (token : jwt.Token) (now : Z) : outcome jwt.Claims :=
  match jwt.verify hmac token (JWT_SECRET penv) now with
  | inr decoded => Returned decoded
  | inl error =>
      if jwt.instanceof_TokenExpiredError error then
        Thrown (UnauthorizedError "Token expired")
      else if jwt.instanceof_JsonWebTokenError error then
        Thrown (UnauthorizedError "Invalid token")
      else
        Thrown (UnauthorizedError "Token verification failed")
  end.
End Jwt.

(* ------------------------------------------------------------------ *)
(** ** The [cjpol_users] table and the world around a request *)

(** A row of [cjpol_users] (interface [User] of the user service).
    Timestamps are instants in milliseconds; a column that may hold SQL
    [null] is an [option]. *)
Record User : Type := {
  id : string;
  email : string;
  name : string;
  role : string;
  credits : Z;
  subscription : string;
  active : bool;
  wordpress_id : option string;
  picture : option string;
  wordpress_membership_id : option Z;
  wordpress_membership_name : option string;
  wordpress_membership_updated : option Z;
  created_at : Z;
  updated_at : Z
}.

(** [Partial<Omit<User, 'id' | 'created_at'>>]: [None] is a key that is
    absent or [undefined], which the client does not send. *)
Record UserPatch : Type := {
  set_email : option string;
  set_name : option string;
  set_role : option string;
  set_credits : option Z;
  set_subscription : option string;
  set_active : option bool;
  set_wordpress_id : option string;
  set_picture : option (option string);
  set_wordpress_membership_id : option Z;
  set_wordpress_membership_name : option string;
  set_wordpress_membership_updated : option Z
}.

Definition no_change : UserPatch :=
  {| set_email := None; set_name := None; set_role := None;
     set_credits := None; set_subscription := None; set_active := None;
     set_wordpress_id := None; set_picture := None;
     set_wordpress_membership_id := None;
     set_wordpress_membership_name := None;
     set_wordpress_membership_updated := None |}.

Definition keep {A} (new : option A) (old : A) : A :=
  match new with Some a => a | None => old end.

Definition keep_opt {A} (new : option A) (old : option A) : option A :=
  match new with Some a => Some a | None => old end.

(** [{ ...userData, updated_at: now }] applied to a row. *)
Definition apply_patch (p : UserPatch) (now : Z) (u : User) : User :=
  {| id := id u;
     email := keep (set_email p) (email u);
     name := keep (set_name p) (name u);
     role := keep (set_role p) (role u);
     credits := keep (set_credits p) (credits u);
     subscription := keep (set_subscription p) (subscription u);
     active := keep (set_active p) (active u);
     wordpress_id := keep_opt (set_wordpress_id p) (wordpress_id u);
     picture := keep (set_picture p) (picture u);
     wordpress_membership_id :=
       keep_opt (set_wordpress_membership_id p) (wordpress_membership_id u);
     wordpress_membership_name :=
       keep_opt (set_wordpress_membership_name p) (wordpress_membership_name u);
     wordpress_membership_updated :=
       keep_opt (set_wordpress_membership_updated p)
                (wordpress_membership_updated u);
     created_at := created_at u;
     updated_at := now |}.

(** What a request runs against.  [faults] is the schedule of the storage
    round trips to come ([true]: that round trip fails; an exhausted
    schedule means no more failures), [fired] counts the failures that
    have happened, [clock] is [Date.now()], and [uuid] / [drawn] is the
    source [uuidv4] draws from. *)
Record World : Type := {
  rows : list User;
  faults : list bool;
  fired : nat;
  clock : Z;
  uuid : nat -> string;
  drawn : nat
}.

Definition with_rows (rs : list User) (w : World) : World :=
  {| rows := rs; faults := faults w; fired := fired w; clock := clock w;
     uuid := uuid w; drawn := drawn w |}.

(** One storage round trip has been made and answered. *)
Definition answered (w : World) : World :=
  {| rows := rows w; faults := tl (faults w); fired := fired w;
     clock := clock w; uuid := uuid w; drawn := drawn w |}.

(** One storage round trip has been made and has failed. *)
Definition failed (w : World) : World :=
  {| rows := rows w; faults := tl (faults w); fired := S (fired w);
     clock := clock w; uuid := uuid w; drawn := drawn w |}.

(** Computations of the service layer. *)
Definition M (A : Type) : Type := World -> outcome A * World.

Definition ret {A} (a : A) : M A := fun w => (Returned a, w).
Definition throw {A} (e : ApiError) : M A := fun w => (Thrown e, w).
Definition bind {A B} (c : M A) (k : A -> M B) : M B :=
  fun w =>
    match c w with
    | (Returned a, w') => k a w'
    | (Thrown e, w') => (Thrown e, w')
    end.
Definition try_catch {A} (c : M A) (handler : ApiError -> M A) : M A :=
  fun w =>
    match c w with
    | (Returned a, w') => (Returned a, w')
    | (Thrown e, w') => handler e w'
    end.

Notation "x <- c ;; k" := (bind c (fun x => k))
  (at level 61, c at next level, right associativity).

(** [new Date()] as milliseconds. *)
Definition now : M Z := fun w => (Returned (clock w), w).

Definition uuidv4 : M string :=
  fun w =>
    (Returned (uuid w (drawn w)),
     {| rows := rows w; faults := faults w; fired := fired w;
        clock := clock w; uuid := uuid w; drawn := S (drawn w) |}).

(** *** The storage engine *)

Fixpoint distinct (l : list string) : bool :=
  match l with
  | [] => true
  | x :: r => negb (existsb (String.eqb x) r) && distinct r
  end.

Definition linked_ids (rs : list User) : list string :=
  flat_map (fun r => match wordpress_id r with
                     | Some i => [i]
                     | None => []
                     end) rs.

(** Modelled from the spec: the SQL script that creates [cjpol_users] is
    not among the sources; the persisted layout is "one row per LocalUser
    keyed by id, with unique indexes on email and on external subject id
    (nullable-unique)".  A statement that would leave the table outside
    this is rejected by the engine. *)
Definition table_ok (rs : list User) : bool :=
  distinct (map id rs) && distinct (map email rs) && distinct (linked_ids rs).

(** [.single()]: the data when exactly one row comes back. *)
Definition single (rs : list User) : option User :=
  match rs with
  | [u] => Some u
  | _ => None
  end.

(** One round trip to the table: [q] is the statement, giving the data
    (or [None] for an error) and the table it leaves. *)
Definition round_trip (q : list User -> option User * list User)
    : World -> option User * World :=
  fun w =>
    match faults w with
    | true :: _ => (None, failed w)
    | _ => let '(data, rs) := q (rows w) in (data, with_rows rs (answered w))
    end.

(** [from('cjpol_users').select('*').eq(column, value).single()] *)
Definition select_single (matches_ : User -> bool) : World -> option User * World :=
  round_trip (fun rs => (single (filter matches_ rs), rs)).

(** [from('cjpol_users').insert(row).select().single()] *)
Definition insert_single (row : User) : World -> option User * World :=
  round_trip (fun rs =>
    if table_ok (rs ++ [row])%list
    then (Some row, (rs ++ [row])%list)
    else (None, rs)).

(** [from('cjpol_users').update(values).eq('id', id).select().single()] *)
Definition has_id (key : string) (r : User) : bool := (id r =? key)%string.

Definition on_row (key : string) (change : User -> User) (r : User) : User :=
  if has_id key r then change r else r.

Definition update_single (key : string) (change : User -> User)
    : World -> option User * World :=
  round_trip (fun rs =>
    let rs' := map (on_row key change) rs in
    if table_ok rs'
    then (single (filter (has_id key) rs'), rs')
    else (None, rs)).

Definition same_opt (a : option string) (b : string) : bool :=
  match a with
  | Some s => (s =? b)%string
  | None => false
  end.

Definition has_email (mail : string) (r : User) : bool := (email r =? mail)%string.

Definition has_wordpress_id (wordpressId : string) (r : User) : bool :=
  same_opt (wordpress_id r) wordpressId.

(** The record the table holds under an id, when there is exactly one. *)
Definition stored (w : World) (userId : string) : option User :=
  single (filter (has_id userId) (rows w)).

(* ------------------------------------------------------------------ *)
(** ** The user service *)

Definition getUserById (userId : string) : M User :=
  fun w =>
    match select_single (has_id userId) w with
    | (Some data, w') => (Returned data, w')
    | (None, w') =>
        (Thrown (NotFoundError ("User with ID " ++ userId ++ " not found")), w')
    end.

Definition getUserByEmail (mail : string) : M (option User) :=
  fun w =>
    match select_single (has_email mail) w with
    | (Some data, w') => (Returned (Some data), w')
    | (None, w') => (Returned None, w')
    end.

(** The argument object of [createUser]. *)
Record NewUser : Type := {
  nu_email : string;
  nu_name : string;
  nu_wordpress_id : option string;
  nu_picture : option string;
  nu_role : option string;
  nu_active : option bool;
  nu_credits : option Z;
  nu_subscription : option string;
  nu_wordpress_membership_id : option Z;
  nu_wordpress_membership_name : option string;
  nu_wordpress_membership_updated : option Z
}.

(** The row [createUser] inserts. *)
Definition new_row (userData : NewUser) (newUserId : string) (t : Z) : User :=
  {| id := newUserId;
     email := nu_email userData;
     name := nu_name userData;
     wordpress_id := JS.or_null (nu_wordpress_id userData);
     picture := JS.or_null (nu_picture userData);
     role := JS.or_else (nu_role userData) USER_ROLES.USER;
     active := match nu_active userData with
               | Some a => a
               | None => true
               end;
     credits := match nu_credits userData with
                | Some c => c
                | None => 0
                end;
     subscription :=
       JS.or_else (nu_subscription userData) MEMBERSHIP_NAMES.FREE;
     (* [n || null]: the number 0 is falsy as well *)
     wordpress_membership_id :=
       match nu_wordpress_membership_id userData with
       | Some n => if n =? 0 then None else Some n
       | None => None
       end;
     wordpress_membership_name :=
       JS.or_null (nu_wordpress_membership_name userData);
     wordpress_membership_updated :=
       nu_wordpress_membership_updated userData;
     created_at := t;
     updated_at := t |}.

Definition createUser (userData : NewUser) : M User :=
  existingUser <- getUserByEmail (nu_email userData) ;;
  match existingUser with
  | Some _ =>
      throw (ConflictError
        ("User with email " ++ nu_email userData ++ " already exists"))
  | None =>
      newUserId <- uuidv4 ;;
      t <- now ;;
      fun w =>
        match insert_single (new_row userData newUserId t) w with
        | (Some data, w') => (Returned data, w')
        | (None, w') => (Thrown (InternalServerError "Failed to create user"), w')
        end
  end.

Definition updateUser (userId : string) (userData : UserPatch) : M User :=
  _ <- getUserById userId ;;
  t <- now ;;
  fun w =>
    match update_single userId (apply_patch userData t) w with
    | (Some data, w') => (Returned data, w')
    | (None, w') => (Thrown (InternalServerError "Failed to update user"), w')
    end.

Definition getUserByWordPressId (wordpressId : string) : M (option User) :=
  fun w =>
    match select_single (has_wordpress_id wordpressId) w with
    | (Some data, w') => (Returned (Some data), w')
    | (None, w') => (Returned None, w')
    end.

Definition mapMembershipToCredits (membershipLevel : WordPressMembership) : Z :=
  if wm_id membershipLevel =? MEMBERSHIP_LEVELS.DEVELOPER then
    MEMBERSHIP_CREDITS.DEVELOPER
  else
    let levelId := wm_id membershipLevel in
    if levelId =? MEMBERSHIP_LEVELS.COMPLETE then MEMBERSHIP_CREDITS.COMPLETE
    else if levelId =? MEMBERSHIP_LEVELS.BASIC then MEMBERSHIP_CREDITS.BASIC
    else MEMBERSHIP_CREDITS.FREE.

Definition determineUserRole (wpRoles : list string) : string :=
  if JS.includes wpRoles WP_ROLE_MAPPING.ADMIN then USER_ROLES.ADMIN
  else USER_ROLES.USER.

Section UserService.
Variable penv : ProcessEnv.

(** [IS_DEVELOPMENT && wpUser.email === DEV_MODE_EMAIL] *)
Definition isDevModeUser (wpUser : WordPressUser) : bool :=
  IS_DEVELOPMENT penv && (wp_email wpUser =? DEV_MODE_EMAIL penv)%string.

(** [isDevModeUser ? USER_ROLES.ADMIN : determineUserRole(wpUser.roles)] *)
Definition assignedRole (wpUser : WordPressUser) : string :=
  if isDevModeUser wpUser then USER_ROLES.ADMIN
  else determineUserRole (wp_roles wpUser).

(** The condition under which a record found by WordPress id is synced. *)
Definition needsSync (stored : User) (wpUser : WordPressUser) : bool :=
  negb (name stored =? wp_name wpUser)%string
  || negb (email stored =? wp_email wpUser)%string
  || negb (role stored =? assignedRole wpUser)%string
  || (isDevModeUser wpUser && negb (credits stored =? DEV_MODE_CREDITS penv)).

(** Credits, subscription, membership id and membership name of a new
    record: the [try] block around [getMembershipLevel] and its [catch]. *)
Definition initialEntitlement (wpUser : WordPressUser)
    (resolved : outcome WordPressMembership)
    : Z * string * Z * string :=
  match resolved with
  | Returned membershipLevel =>
      let initialCredits :=
        if isDevModeUser wpUser then DEV_MODE_CREDITS penv
        else mapMembershipToCredits membershipLevel in
      let initialSubscription :=
        if isDevModeUser wpUser then MEMBERSHIP_NAMES.DEVELOPER
        else if wm_id membershipLevel =? MEMBERSHIP_LEVELS.COMPLETE
             then MEMBERSHIP_NAMES.COMPLETE
        else if wm_id membershipLevel =? MEMBERSHIP_LEVELS.BASIC
             then MEMBERSHIP_NAMES.BASIC
        else MEMBERSHIP_NAMES.FREE in
      (initialCredits, initialSubscription,
       wm_id membershipLevel, initialSubscription)
  | Thrown _ =>
      let initialCredits :=
        if isDevModeUser wpUser then DEV_MODE_CREDITS penv
        else DEFAULT_CREDITS_NEW_USER in
      let initialSubscription :=
        if isDevModeUser wpUser then MEMBERSHIP_NAMES.DEVELOPER
        else MEMBERSHIP_NAMES.FREE in
      (initialCredits, initialSubscription,
       MEMBERSHIP_LEVELS.FREE, initialSubscription)
  end.

(** The values written when a record found by WordPress id is synced. *)
Definition syncValues (wpUser : WordPressUser) (found : User) : UserPatch :=
  {| set_name := Some (wp_name wpUser);
     set_email := Some (wp_email wpUser);
     set_role := Some (assignedRole wpUser);
     set_picture := Some (JS.or_opt (avatar96 wpUser) (picture found));
     set_credits :=
       if isDevModeUser wpUser then Some (DEV_MODE_CREDITS penv) else None;
     set_subscription :=
       if isDevModeUser wpUser then Some MEMBERSHIP_NAMES.DEVELOPER else None;
     set_active := None;
     set_wordpress_id := None;
     set_wordpress_membership_id := None;
     set_wordpress_membership_name := None;
     set_wordpress_membership_updated := None |}.

(** The values written when a record found by email gets the WordPress id. *)
Definition linkValues (wpUser : WordPressUser) (found : User) : UserPatch :=
  {| set_wordpress_id := Some (wp_id wpUser);
     set_name := Some (wp_name wpUser);
     set_role := Some (assignedRole wpUser);
     set_picture := Some (JS.or_opt (avatar96 wpUser) (picture found));
     set_credits :=
       if isDevModeUser wpUser then Some (DEV_MODE_CREDITS penv) else None;
     set_subscription :=
       if isDevModeUser wpUser then Some MEMBERSHIP_NAMES.DEVELOPER else None;
     set_email := None;
     set_active := None;
     set_wordpress_membership_id := None;
     set_wordpress_membership_name := None;
     set_wordpress_membership_updated := None |}.

(** The argument of [createUser] for an identity seen for the first time. *)
Definition firstLogin (wpUser : WordPressUser) (t : Z) : NewUser :=
  let userRole := assignedRole wpUser in
  let '(initialCredits, initialSubscription, membershipId, membershipName) :=
    initialEntitlement wpUser (Returned (getMembershipLevel wpUser)) in
  {| nu_email := wp_email wpUser;
     nu_name := wp_name wpUser;
     nu_wordpress_id := Some (wp_id wpUser);
     nu_picture := avatar96 wpUser;
     nu_role := Some userRole;
     nu_active := None;
     nu_credits := Some initialCredits;
     nu_subscription := Some initialSubscription;
     nu_wordpress_membership_id := Some membershipId;
     nu_wordpress_membership_name := Some membershipName;
     nu_wordpress_membership_updated := Some t |}.

Definition getUserOrCreateFromWordPress (wpUser : WordPressUser) : M User :=
  userByWordPressId <- getUserByWordPressId (wp_id wpUser) ;;
  match userByWordPressId with
  | Some userByWordPressId =>
      if needsSync userByWordPressId wpUser then
        updateUser (id userByWordPressId) (syncValues wpUser userByWordPressId)
      else ret userByWordPressId
  | None =>
      userByEmail <- getUserByEmail (wp_email wpUser) ;;
      match userByEmail with
      | Some userByEmail =>
          updateUser (id userByEmail) (linkValues wpUser userByEmail)
      | None =>
          t <- now ;;
          createUser (firstLogin wpUser t)
      end
  end.

(** The values [updateUserMembership] writes. *)
Definition membershipValues (membershipLevel : WordPressMembership) (t : Z)
    : UserPatch :=
  let credits := mapMembershipToCredits membershipLevel in
  let subscription :=
    if wm_id membershipLevel =? MEMBERSHIP_LEVELS.COMPLETE
    then MEMBERSHIP_NAMES.COMPLETE
    else if wm_id membershipLevel =? MEMBERSHIP_LEVELS.BASIC
    then MEMBERSHIP_NAMES.BASIC
    else if wm_id membershipLevel =? MEMBERSHIP_LEVELS.DEVELOPER
    then MEMBERSHIP_NAMES.DEVELOPER
    else MEMBERSHIP_NAMES.FREE in
  {| set_credits := Some credits;
     set_subscription := Some subscription;
     set_wordpress_membership_id := Some (wm_id membershipLevel);
     set_wordpress_membership_name := Some subscription;
     set_wordpress_membership_updated := Some t;
     set_email := None;
     set_name := None;
     set_role := None;
     set_active := None;
     set_wordpress_id := None;
     set_picture := None |}.

Definition updateUserMembership (userId : string)
    (membershipLevel : WordPressMembership) : M User :=
  t <- now ;;
  updateUser userId (membershipValues membershipLevel t).

(** The values [consumeCredits] writes. *)
Definition creditValues (c : Z) : UserPatch :=
  {| set_credits := Some c;
     set_email := None; set_name := None; set_role := None;
     set_subscription := None; set_active := None;
     set_wordpress_id := None; set_picture := None;
     set_wordpress_membership_id := None;
     set_wordpress_membership_name := None;
     set_wordpress_membership_updated := None |}.

(** [amount] is the second argument; a caller that leaves it out gets 1.
    The new balance is the double [user.credits - amount]. *)
Definition consumeCredits (userId : string) (amount : Z) : M bool :=
  try_catch
    (user <- getUserById userId ;;
     if credits user <? amount then ret false
     else
       _ <- updateUser userId
              (creditValues (Number.sub (credits user) amount)) ;;
       ret true)
    (fun error => ret false).
End UserService.

(* ------------------------------------------------------------------ *)
(** ** src/services/authService.ts *)

Section AuthService.
Variable penv : ProcessEnv.
Variable verifyWordPressCredentialsWithJWT :
  string -> string -> outcome WordPressUser.
Variable hmac : string -> jwt.Claims -> string.

(** An [await] on a call that does not touch the table. *)
Definition await {A} (r : outcome A) : M A := fun w => (r, w).

Definition authenticateWithWordPress
    (username password : string) (req : option Request)
    : M (User * jwt.Token) :=
  try_catch
    (if negb (JS.truthy username) || negb (JS.truthy password) then
       throw (BadRequestError "Email and password are required")
     else
       wpUser <- await (verifyWordPressCredentials penv
                          verifyWordPressCredentialsWithJWT
                          username password req) ;;
       user <- getUserOrCreateFromWordPress penv wpUser ;;
       if negb (active user) then
         throw (UnauthorizedError "User account is inactive")
       else
         let membershipLevel := getMembershipLevel wpUser in
         _ <- updateUserMembership (id user) membershipLevel ;;
         t <- now ;;
         let payload :=
           {| jwt_id := id user; jwt_email := email user;
              jwt_role := role user |} in
         let accessToken := generateToken penv hmac payload (t / 1000) in
         ret (user, accessToken))
    (fun error =>
       if is_auth_or_bad_request error then throw error
       else throw (UnauthorizedError "Authentication failed")).
End AuthService.

(* ------------------------------------------------------------------ *)
(** ** src/utils/jwt.ts: the bearer header *)

Definition extractTokenFromHeader (authHeader : option string) : option string :=
  match authHeader with
  | Some h =>
      if negb (JS.truthy h) || negb (JS.startsWith h "Bearer ") then None
      else Some (String.substring 7 (String.length h - 7)%nat h)
  | None => None
  end.

(* ------------------------------------------------------------------ *)
(** ** src/utils/wordpressAuth.ts: the remote exchange

    The two requests [verifyWordPressCredentialsWithJWT] makes, as axios
    answers them: a reply with its [data], or a rejection, which is an
    [AxiosError] (with the response status and the error code, when
    there are any) or some other error. *)

Module Axios.

Inductive Failure : Type :=
| AxiosError (status : option Z) (code : option string)
| OtherError.

Inductive Reply (A : Type) : Type :=
| Data (data : option A)
| Rejected (f : Failure).
Arguments Data {A} data.
Arguments Rejected {A} f.

End Axios.

(** The body of the token endpoint's reply. *)
Record TokenData : Type := { td_token : option string }.

(** The [id] of a profile.  The reply is untyped JSON and the code does
    two things with the id: it tests it ([!userResponse.data.id]) and it
    calls [toString()] on it.  A WordPress site sends a number, and a safe
    integer at that; a string is itself.  Any other JSON value (a number
    that is not a safe integer, [true], [false], [null], an array, an
    object) is kept as what those two operations make of it: whether it
    is truthy, and the text [toString()] returns, [None] when the call
    throws (an object whose own [toString] member is not a function).
    An empty array is [OtherId true (Some "")]. *)
Inductive JsonId : Type :=
| NumberId (n : Z) (safe : Number.isSafeInteger n = true)
| StringId (s : string)
| OtherId (truthy : bool) (text : option string).

Definition id_truthy (i : JsonId) : bool :=
  match i with
  | NumberId n _ => negb (n =? 0)
  | StringId s => JS.truthy s
  | OtherId truthy _ => truthy
  end.

Definition id_toString (i : JsonId) : option string :=
  match i with
  | NumberId n _ => Some (toString n)
  | StringId s => Some s
  | OtherId _ text => text
  end.

(** The [roles] of a profile: an array, an object (its entries in the
    order [Object.values] lists them), or something else. *)
Inductive JsonRoles : Type :=
| RolesArray (items : list string)
| RolesObject (entries : list (string * string))
| RolesOther.

(** The body of the profile endpoint's reply; [email] and [display_name]
    are strings, as the WordPress API gives them. *)
Record Profile : Type := {
  pr_id : option JsonId;
  pr_email : string;
  pr_name : option string;
  pr_display_name : string;
  pr_roles : option JsonRoles;
  pr_avatar_urls : option (list (string * string));
  pr_pmpro_membership : option PmproMembership
}.

(** The WordPress site: what it answers to the token request for a
    username and password, and to the profile request for a token.  (The
    third request of the function, to [/wp-json], only feeds the log.) *)
Record WordPressSite : Type := {
  post_token : string -> string -> Axios.Reply TokenData;
  get_users_me : string -> Axios.Reply Profile
}.

(** What the [catch] block of the function may be handed. *)
Inductive Caught : Type :=
| CaughtAxios (status : option Z) (code : option string)
| CaughtApiError (e : ApiError)
| CaughtOther.

Definition caught_of (f : Axios.Failure) : Caught :=
  match f with
  | Axios.AxiosError status code => CaughtAxios status code
  | Axios.OtherError => CaughtOther
  end.

(** The conversion of [roles] to an array of strings. *)
Definition convertRoles (r : option JsonRoles) : list string :=
  match r with
  | Some (RolesArray items) => items
  | Some (RolesObject entries) => map snd entries
  | Some RolesOther => []
  | None => []
  end.

Definition profileToUser (p : Profile) (idText : string) : WordPressUser :=
  {| wp_id := idText;
     wp_email := pr_email p;
     wp_name := JS.or_else (pr_name p) (pr_display_name p);
     wp_roles := convertRoles (pr_roles p);
     wp_avatar_urls := pr_avatar_urls p;
     wp_pmpro_membership := pr_pmpro_membership p |}.

Definition status_is (status : option Z) (k : Z) : bool :=
  match status with
  | Some s => s =? k
  | None => false
  end.

Definition verifyWordPressCredentialsWithJWT (site : WordPressSite)
    (username password : string) : outcome WordPressUser :=
  if negb (JS.truthy username) || negb (JS.truthy password) then
    Thrown (BadRequestError "Email and password are required")
  else
    (* the [try] block *)
    let attempt : Caught + WordPressUser :=
      match post_token site username password with
      | Axios.Rejected f => inl (caught_of f)
      | Axios.Data tokenData =>
          match match tokenData with
                | Some d => JS.or_null (td_token d)
                | None => None
                end
          with
          | None => inl (CaughtApiError (UnauthorizedError "Invalid credentials"))
          | Some token =>
              match get_users_me site token with
              | Axios.Rejected f => inl (caught_of f)
              | Axios.Data userData =>
                  match userData with
                  | Some p =>
                      match pr_id p with
                      | Some i =>
                          if id_truthy i then
                            match id_toString i with
                            | Some idText => inr (profileToUser p idText)
                            | None => inl CaughtOther   (* a TypeError *)
                            end
                          else inl (CaughtApiError
                                 (UnauthorizedError "Failed to retrieve user data"))
                      | None =>
                          inl (CaughtApiError
                                 (UnauthorizedError "Failed to retrieve user data"))
                      end
                  | None =>
                      inl (CaughtApiError
                             (UnauthorizedError "Failed to retrieve user data"))
                  end
              end
          end
      end in
    (* the [catch] block *)
    match attempt with
    | inr wpUser => Returned wpUser
    | inl (CaughtAxios status code) =>
        if status_is status 403 || status_is status 401 then
          Thrown (UnauthorizedError "Invalid credentials")
        else if same_opt code "ECONNREFUSED" || same_opt code "ENOTFOUND" then
          Thrown (UnauthorizedError
            "Could not connect to WordPress site. Please check the WORDPRESS_URL configuration.")
        else
          Thrown (UnauthorizedError
            "Authentication failed. Please check server logs for details.")
    | inl _ =>
        Thrown (UnauthorizedError
          "Authentication failed. Please check server logs for details.")
    end.

(* ------------------------------------------------------------------ *)
(** ** src/services/authService.ts: sessions *)

Definition validateSession (userId : string) : M User :=
  try_catch
    (user <- getUserById userId ;;
     if negb (active user) then
       throw (UnauthorizedError "User account is inactive")
     else ret user)
    (fun error => throw (UnauthorizedError "Invalid session")).

(** The object [createSessionData] hands to the client. *)
Record SessionData : Type := {
  sd_id : string;
  sd_email : string;
  sd_name : string;
  sd_role : string;
  sd_credits : Z;
  sd_subscription : string;
  sd_active : bool;
  sd_picture : option string
}.

Definition createSessionData (user : User) : SessionData :=
  {| sd_id := id user;
     sd_email := email user;
     sd_name := name user;
     sd_role := role user;
     sd_credits := credits user;
     sd_subscription := subscription user;
     sd_active := active user;
     sd_picture := picture user |}.

(* ------------------------------------------------------------------ *)
(** ** The authentication middleware (src/middleware/auth.ts) *)

(** The part of an Express request the three middlewares read, and the
    [user] the first of them attaches. *)
Record ExpressRequest : Type := {
  rq_path : string;
  rq_method : string;
  rq_authorization : option string;      (* req.headers.authorization *)
  rq_access_token : option string;       (* req.cookies?.access_token *)
  rq_csrf_header : option string;        (* req.headers['x-csrf-token'] *)
  rq_session_csrf : option string;       (* req.session?.csrfToken *)
  rq_user : option JwtUserPayload        (* req.user *)
}.

Definition with_user (u : JwtUserPayload) (req : ExpressRequest)
    : ExpressRequest :=
  {| rq_path := rq_path req;
     rq_method := rq_method req;
     rq_authorization := rq_authorization req;
     rq_access_token := rq_access_token req;
     rq_csrf_header := rq_csrf_header req;
     rq_session_csrf := rq_session_csrf req;
     rq_user := Some u |}.

(** How a middleware hands over: [next()] with the request as it then
    is, or [next(error)]. *)
Inductive Next : Type :=
| next (req : ExpressRequest)
| next_error (e : ApiError).

(** [req.path === '/session' || req.path === '/messages/examples'] *)
Definition open_endpoint (req : ExpressRequest) : bool :=
  (rq_path req =? "/session")%string
  || (rq_path req =? "/messages/examples")%string.

Section Middleware.
Variable penv : ProcessEnv.
Variable hmac : string -> jwt.Claims -> string.

(** How the package reads a compact token string. *)
Variable decode : string -> jwt.Token.

(** [now] is the clock of the verification, in seconds. *)
Definition authenticate (req : ExpressRequest) (now : Z) : Next :=
  let token := extractTokenFromHeader (rq_authorization req) in
  let cookieToken := rq_access_token req in
  (* [!token && !cookieToken], then [token || cookieToken] *)
  match JS.or_opt token (JS.or_null cookieToken) with
  | None =>
      if open_endpoint req then next req
      else next_error (UnauthorizedError "Authentication required")
  | Some tokenToVerify =>
      match verifyToken penv hmac (decode tokenToVerify) now with
      | Returned decoded =>
          next (with_user
                  {| jwt_id := jwt_id (jwt.payload decoded);
                     jwt_email := jwt_email (jwt.payload decoded);
                     jwt_role := jwt_role (jwt.payload decoded) |} req)
      | Thrown _ =>
          if open_endpoint req then next req
          else next_error (UnauthorizedError "Invalid authentication token")
      end
  end.
End Middleware.

Definition requireAdmin (req : ExpressRequest) : Next :=
  match rq_user req with
  | None => next_error (UnauthorizedError "Authentication required")
  | Some user =>
      if negb (jwt_role user =? "admin")%string then
        next_error (ForbiddenError "Admin access required")
      else next req
  end.

Definition validateCsrf (req : ExpressRequest) : Next :=
  if JS.includes ["GET"; "HEAD"; "OPTIONS"] (rq_method req) then next req
  else
    match JS.or_null (rq_csrf_header req), JS.or_null (rq_session_csrf req) with
    | Some csrfToken, Some expectedCsrfToken =>
        if negb (csrfToken =? expectedCsrfToken)%string then
          next_error (ForbiddenError "Invalid or missing CSRF token")
        else next req
    | _, _ => next_error (ForbiddenError "Invalid or missing CSRF token")
    end.

(* ------------------------------------------------------------------ *)
(** ** Callers of the ledger *)

(** [n] calls of [consumeCredits(userId, 1)] one after the other, as the
    message controller makes them, one per message; the number counts the
    calls that returned true. *)
Fixpoint consumeRepeatedly (n : nat) (userId : string) (w : World)
    : nat * World :=
  match n with
  | O => (O, w)
  | S k =>
      match consumeCredits userId 1 w with
      | (Returned true, w') =>
          let '(c, w'') := consumeRepeatedly k userId w' in (S c, w'')
      | (_, w') => consumeRepeatedly k userId w'
      end
  end.

(* ------------------------------------------------------------------ *)
(** ** Sample configurations, identities and tables *)

Module Sample.

(** Nothing set: [NODE_ENV] defaults to production. *)
Definition production : ProcessEnv :=
  {| env_NODE_ENV := None;
     env_DEV_MODE_EMAIL := None;
     env_DEV_MODE_PASSWORD := None;
     env_DEV_MODE_USER_ID := None;
     env_DEV_MODE_USER_NAME := None;
     env_DEV_MODE_CREDITS := 1000;
     env_JWT_SECRET := Some "s3cret";
     env_JWT_EXPIRATION := 86400 |}.

Definition development : ProcessEnv :=
  {| env_NODE_ENV := Some "development";
     env_DEV_MODE_EMAIL := None;
     env_DEV_MODE_PASSWORD := Some "devpassword-long";
     env_DEV_MODE_USER_ID := None;
     env_DEV_MODE_USER_NAME := None;
     env_DEV_MODE_CREDITS := 1000;
     env_JWT_SECRET := Some "s3cret";
     env_JWT_EXPIRATION := 86400 |}.

Definition basic_plan : PmproMembership :=
  {| pm_id := "1"; pm_name := "Basic"; pm_level := "1";
     pm_initial_payment := 0; pm_billing_amount := 0;
     pm_cycle_number := "1"; pm_cycle_period := "month";
     pm_expiration := None |}.

(** A subscriber on the basic plan, as the remote site reports her. *)
Definition alice : WordPressUser :=
  {| wp_id := "42"; wp_email := "a@x.com"; wp_name := "Alice";
     wp_roles := ["subscriber"]; wp_avatar_urls := None;
     wp_pmpro_membership := Some basic_plan |}.

(** The same person holding the administrator role. *)
Definition alice_admin : WordPressUser :=
  {| wp_id := "42"; wp_email := "a@x.com"; wp_name := "Alice";
     wp_roles := ["subscriber"; "administrator"]; wp_avatar_urls := None;
     wp_pmpro_membership := Some basic_plan |}.

(** A remote site that knows Alice only. *)
Definition remote (username password : string) : outcome WordPressUser :=
  if (username =? "a@x.com")%string then Returned alice
  else Thrown (UnauthorizedError "Invalid credentials").

(** A remote site that is down. *)
Definition unreachable (username password : string) : outcome WordPressUser :=
  Thrown (UnauthorizedError
    "Authentication failed. Please check server logs for details.").

Definition hmac (secret : string) (c : jwt.Claims) : string :=
  secret ++ "/" ++ jwt_id (jwt.payload c) ++ "/" ++ toString (jwt.exp c).

(** Alice's row: [role], [balance] and [linked] vary with the example. *)
Definition row (r : string) (balance : Z) (linked : option string) : User :=
  {| id := "u-1"; email := "a@x.com"; name := "Alice"; role := r;
     credits := balance; subscription := "basic"; active := true;
     wordpress_id := linked; picture := None;
     wordpress_membership_id := Some 1;
     wordpress_membership_name := Some "basic";
     wordpress_membership_updated := Some 1700000000000;
     created_at := 1700000000000; updated_at := 1700000000000 |}.

Definition world (rs : list User) (schedule : list bool) : World :=
  {| rows := rs; faults := schedule; fired := 0;
     clock := 1700000600000;
     uuid := fun n => "u-" ++ toString (Z.of_nat (S n));
     drawn := 0 |}.

End Sample.

(* ------------------------------------------------------------------ *)
(** ** More sample data: a remote site and requests *)

Module Fixture.

(** Alice's profile as the site delivers it: numeric id, roles as an
    object keyed by index, no [name]. *)
Definition profile : Profile :=
  {| pr_id := Some (NumberId 42 eq_refl);
     pr_email := "a@x.com";
     pr_name := None;
     pr_display_name := "Alice";
     pr_roles := Some (RolesObject [("0", "subscriber"); ("1", "administrator")]);
     pr_avatar_urls := None;
     pr_pmpro_membership := Some Sample.basic_plan |}.

(** A site that accepts Alice's password and nothing else. *)
Definition site : WordPressSite :=
  {| post_token := fun username password =>
       if (username =? "a@x.com")%string && (password =? "correct horse")%string
       then Axios.Data (Some {| td_token := Some "wp-token" |})
       else Axios.Rejected (Axios.AxiosError (Some 403) None);
     get_users_me := fun token =>
       if (token =? "wp-token")%string then Axios.Data (Some profile)
       else Axios.Rejected (Axios.AxiosError (Some 401) None) |}.

(** A site whose profile carries an empty array as [id]. *)
Definition arrayId : WordPressSite :=
  {| post_token := fun _ _ => Axios.Data (Some {| td_token := Some "wp-token" |});
     get_users_me := fun _ =>
       Axios.Data (Some {| pr_id := Some (OtherId true (Some ""));
                           pr_email := "a@x.com";
                           pr_name := None;
                           pr_display_name := "Alice";
                           pr_roles := None;
                           pr_avatar_urls := None;
                           pr_pmpro_membership := None |}) |}.

(** A site whose token endpoint answers 200 without a token. *)
Definition tokenless : WordPressSite :=
  {| post_token := fun _ _ => Axios.Data (Some {| td_token := None |});
     get_users_me := fun _ => Axios.Data None |}.


(** A compact token string is read back as the token it spells out:
    here the strings are the two tokens of the examples. *)
Definition user_claims : JwtUserPayload :=
  {| jwt_id := "u-1"; jwt_email := "a@x.com"; jwt_role := "user" |}.

Definition admin_claims : JwtUserPayload :=
  {| jwt_id := "u-2"; jwt_email := "root@x.com"; jwt_role := "admin" |}.

Definition decode (s : string) : jwt.Token :=
  if (s =? "user.jwt")%string then
    generateToken Sample.production Sample.hmac user_claims 1700000000
  else if (s =? "admin.jwt")%string then
    generateToken Sample.production Sample.hmac admin_claims 1700000000
  else jwt.Malformed s.

Definition request (path method : string) (authorization cookie : option string)
    : ExpressRequest :=
  {| rq_path := path; rq_method := method;
     rq_authorization := authorization; rq_access_token := cookie;
     rq_csrf_header := None; rq_session_csrf := None; rq_user := None |}.

Definition form (method : string) (header session : option string)
    : ExpressRequest :=
  {| rq_path := "/users/me"; rq_method := method;
     rq_authorization := None; rq_access_token := None;
     rq_csrf_header := header; rq_session_csrf := session; rq_user := None |}.

(** A world in which [n] uuids have been drawn already. *)
Definition world (rs : list User) (n : nat) : World :=
  {| rows := rs; faults := []; fired := 0;
     clock := 1700000600000;
     uuid := fun k => "u-" ++ toString (Z.of_nat (S k));
     drawn := n |}.

End Fixture.

(* ================================================================== *)
(** * Properties *)

(** ** Lists, rows and the uniqueness constraints *)

Lemma single_inv (rs : list User) (u : User) :
  single rs = Some u -> rs = [u].
Proof.
  destruct rs as [|a [|b rest]]; simpl; intro H; try discriminate.
  now inversion H.
Qed.

Lemma filter_map_stable {A} (p : A -> bool) (g : A -> A) (l : list A) :
  (forall a, p (g a) = p a) ->
  filter p (map g l) = map g (filter p l).
Proof.
  intro Hp. induction l as [|a l IH]; simpl; [reflexivity|].
  rewrite Hp. destruct (p a); simpl; now rewrite IH.
Qed.

Lemma filter_none {A} (p : A -> bool) (l : list A) :
  (forall a, In a l -> p a = false) -> filter p l = [].
Proof.
  induction l as [|a l IH]; simpl; intro H; [reflexivity|].
  rewrite (H a (or_introl eq_refl)). apply IH. intros b Hb. apply H. now right.
Qed.

Lemma truthy_nonempty (s : string) : JS.truthy s = true <-> s <> "".
Proof.
  unfold JS.truthy. rewrite negb_true_iff. apply String.eqb_neq.
Qed.

Lemma existsb_eqb_In (x : string) (l : list string) :
  existsb (String.eqb x) l = true <-> In x l.
Proof.
  rewrite existsb_exists. split.
  - intros [y [Hy E]]. apply String.eqb_eq in E. now subst.
  - intro H. exists x. split; [exact H | apply String.eqb_refl].
Qed.

Lemma distinct_NoDup (l : list string) : distinct l = true <-> NoDup l.
Proof.
  induction l as [|x l IH]; simpl.
  - split; [constructor | reflexivity].
  - rewrite andb_true_iff, negb_true_iff, IH. split.
    + intros [Hx Hl]. constructor; [|exact Hl].
      intro Hin. apply existsb_eqb_In in Hin. congruence.
    + intro H. inversion H as [|? ? Hx Hl]; subst. split; [|exact Hl].
      destruct (existsb (String.eqb x) l) eqn:E; [|reflexivity].
      apply existsb_eqb_In in E. contradiction.
Qed.

Lemma has_id_true (k : string) (r : User) : has_id k r = true <-> id r = k.
Proof. unfold has_id. apply String.eqb_eq. Qed.

Lemma has_email_true (m : string) (r : User) :
  has_email m r = true <-> email r = m.
Proof. unfold has_email. apply String.eqb_eq. Qed.

Lemma has_wordpress_id_true (x : string) (r : User) :
  has_wordpress_id x r = true <-> wordpress_id r = Some x.
Proof.
  unfold has_wordpress_id, same_opt. destruct (wordpress_id r) as [s|].
  - rewrite String.eqb_eq. split; congruence.
  - split; discriminate.
Qed.

Lemma filter_single_In {A} (p : A -> bool) (l : list A) (a : A) :
  filter p l = [a] -> In a l /\ p a = true.
Proof.
  intro H. apply filter_In. rewrite H. now left.
Qed.

Lemma filter_single_unique {A} (p : A -> bool) (l : list A) (a b : A) :
  filter p l = [a] -> In b l -> p b = true -> b = a.
Proof.
  intros H Hb Hp.
  assert (Hin : In b (filter p l)) by (apply filter_In; now split).
  rewrite H in Hin. destruct Hin as [E|[]]. now symmetry.
Qed.

Lemma In_linked_ids (rs : list User) (u : User) (x : string) :
  In u rs -> wordpress_id u = Some x -> In x (linked_ids rs).
Proof.
  intros Hin Hx. unfold linked_ids. apply in_flat_map.
  exists u. split; [exact Hin|]. rewrite Hx. now left.
Qed.

Lemma linked_ids_In (rs : list User) (x : string) :
  In x (linked_ids rs) -> exists u, In u rs /\ wordpress_id u = Some x.
Proof.
  unfold linked_ids. intro H. apply in_flat_map in H.
  destruct H as [u [Hu Hx]]. exists u. split; [exact Hu|].
  destruct (wordpress_id u) as [i|]; simpl in Hx; [|contradiction].
  destruct Hx as [E|[]]. now subst.
Qed.

Lemma unlinked_filter (rs : list User) (x : string) :
  ~ In x (linked_ids rs) -> filter (has_wordpress_id x) rs = [].
Proof.
  intro H. apply filter_none. intros r Hr.
  destruct (has_wordpress_id x r) eqn:E; [|reflexivity].
  exfalso. apply H. apply has_wordpress_id_true in E.
  eapply In_linked_ids; eassumption.
Qed.

(** With distinct external ids, a row carrying [x] is the only one the
    lookup by [x] finds. *)
Lemma linked_filter (rs : list User) (u : User) (x : string) :
  NoDup (linked_ids rs) -> In u rs -> wordpress_id u = Some x ->
  filter (has_wordpress_id x) rs = [u].
Proof.
  induction rs as [|r rs IH]; intros Hnd Hin Hx; [contradiction|].
  change (linked_ids (r :: rs))
    with ((match wordpress_id r with Some i => [i] | None => [] end
           ++ linked_ids rs)%list) in Hnd.
  simpl. destruct Hin as [E|Hin].
  - subst r. rewrite Hx in Hnd. simpl in Hnd.
    inversion Hnd as [|? ? Hnot Hrest]; subst.
    rewrite (proj2 (has_wordpress_id_true x u) Hx).
    now rewrite (unlinked_filter rs x Hnot).
  - destruct (has_wordpress_id x r) eqn:E.
    + apply has_wordpress_id_true in E. rewrite E in Hnd. simpl in Hnd.
      inversion Hnd as [|? ? Hnot Hrest]; subst.
      exfalso. apply Hnot. eapply In_linked_ids; eassumption.
    + apply IH; [|exact Hin|exact Hx].
      destruct (wordpress_id r); simpl in Hnd; [|exact Hnd].
      now inversion Hnd.
Qed.

Lemma table_ok_inv (rs : list User) :
  table_ok rs = true ->
  NoDup (map id rs) /\ NoDup (map email rs) /\ NoDup (linked_ids rs).
Proof.
  unfold table_ok. rewrite !andb_true_iff, !distinct_NoDup. tauto.
Qed.

Lemma table_ok_intro (rs : list User) :
  NoDup (map id rs) -> NoDup (map email rs) -> NoDup (linked_ids rs) ->
  table_ok rs = true.
Proof.
  unfold table_ok. rewrite !andb_true_iff, !distinct_NoDup. tauto.
Qed.

(** A change that leaves the three key columns alone keeps the table
    within its constraints. *)
Lemma table_ok_on_row (k : string) (f : User -> User) (rs : list User) :
  (forall r, id (f r) = id r) ->
  (forall r, email (f r) = email r) ->
  (forall r, wordpress_id (f r) = wordpress_id r) ->
  table_ok (map (on_row k f) rs) = table_ok rs.
Proof.
  intros Hi He Hw. unfold table_ok.
  assert (E1 : map id (map (on_row k f) rs) = map id rs).
  { rewrite map_map. apply map_ext. intro r. unfold on_row.
    destruct (has_id k r); [apply Hi | reflexivity]. }
  assert (E2 : map email (map (on_row k f) rs) = map email rs).
  { rewrite map_map. apply map_ext. intro r. unfold on_row.
    destruct (has_id k r); [apply He | reflexivity]. }
  assert (E3 : linked_ids (map (on_row k f) rs) = linked_ids rs).
  { clear E1 E2. unfold linked_ids.
    induction rs as [|r rs IH]; simpl; [reflexivity|].
    rewrite IH. f_equal. unfold on_row.
    destruct (has_id k r); [now rewrite Hw | reflexivity]. }
  now rewrite E1, E2, E3.
Qed.

Lemma on_row_id (k : string) (f : User -> User) (r : User) :
  (forall r, id (f r) = id r) -> has_id k (on_row k f r) = has_id k r.
Proof.
  intro Hi. unfold on_row. destruct (has_id k r) eqn:E; [|exact E].
  unfold has_id in *. now rewrite Hi.
Qed.

Lemma apply_patch_id p t r : id (apply_patch p t r) = id r.
Proof. reflexivity. Qed.

(** After an update by key, the rows under that key are the changed ones. *)
Lemma filter_updated (k : string) (p : UserPatch) (t : Z) (rs : list User)
    (r0 : User) :
  filter (has_id k) rs = [r0] ->
  filter (has_id k) (map (on_row k (apply_patch p t)) rs) = [apply_patch p t r0].
Proof.
  intro H. rewrite filter_map_stable.
  - rewrite H. simpl. unfold on_row.
    destruct (filter_single_In _ _ _ H) as [_ Hk]. now rewrite Hk.
  - intro a. apply on_row_id. intro r. reflexivity.
Qed.

(** ** The storage round trips *)

Lemma round_trip_inv q w d w' :
  round_trip q w = (d, w') ->
  (d = None /\ w' = failed w) \/
  (exists rs, q (rows w) = (d, rs) /\ w' = with_rows rs (answered w)).
Proof.
  unfold round_trip. intro H.
  destruct (faults w) as [|[|] fs].
  - right. destruct (q (rows w)) as [d0 rs]. exists rs. now inversion H.
  - left. now inversion H.
  - right. destruct (q (rows w)) as [d0 rs]. exists rs. now inversion H.
Qed.

Lemma with_rows_same (w : World) : with_rows (rows w) w = w.
Proof. now destruct w. Qed.

Lemma round_trip_healthy q w :
  faults w = [] ->
  round_trip q w = (fst (q (rows w)), with_rows (snd (q (rows w))) w).
Proof.
  intro H. unfold round_trip. rewrite H.
  destruct (q (rows w)) as [d rs]. simpl.
  destruct w; simpl in *; subst. reflexivity.
Qed.

Lemma select_single_inv p w d w' :
  select_single p w = (d, w') ->
  rows w' = rows w /\ (forall u, d = Some u -> filter p (rows w) = [u]).
Proof.
  intro H. apply round_trip_inv in H.
  destruct H as [[Hd Hw]|[rs [Hq Hw]]]; subst.
  - split; [reflexivity | discriminate].
  - inversion Hq; subst. split; [reflexivity|].
    intros u Hu. now apply single_inv.
Qed.

Lemma select_single_healthy p w :
  faults w = [] -> select_single p w = (single (filter p (rows w)), w).
Proof.
  intro H. unfold select_single. rewrite round_trip_healthy by exact H.
  simpl. now rewrite with_rows_same.
Qed.

Lemma update_single_inv k f w u w' :
  update_single k f w = (Some u, w') ->
  rows w' = map (on_row k f) (rows w) /\
  table_ok (rows w') = true /\
  filter (has_id k) (rows w') = [u].
Proof.
  intro H. apply round_trip_inv in H.
  destruct H as [[Hd Hw]|[rs [Hq Hw]]]; [discriminate|].
  cbv zeta in Hq.
  destruct (table_ok (map (on_row k f) (rows w))) eqn:Hok;
    [|discriminate].
  inversion Hq; subst. simpl. repeat split; try assumption.
  now apply single_inv.
Qed.

Lemma insert_single_inv row w u w' :
  insert_single row w = (Some u, w') ->
  u = row /\ rows w' = (rows w ++ [row])%list /\ table_ok (rows w') = true.
Proof.
  intro H. apply round_trip_inv in H.
  destruct H as [[Hd Hw]|[rs [Hq Hw]]]; [discriminate|].
  destruct (table_ok (rows w ++ [row])%list) eqn:Hok; [|discriminate].
  inversion Hq; subst. simpl. now repeat split.
Qed.

(** ** The user service, call by call *)

Lemma getUserById_inv k w u w' :
  getUserById k w = (Returned u, w') ->
  filter (has_id k) (rows w) = [u] /\ rows w' = rows w.
Proof.
  unfold getUserById. intro H.
  destruct (select_single (has_id k) w) as [[d|] w0] eqn:E; [|discriminate].
  inversion H; subst. apply select_single_inv in E.
  destruct E as [Hr Hf]. split; [now apply Hf | exact Hr].
Qed.

Lemma getUserById_healthy k w u :
  faults w = [] -> stored w k = Some u ->
  getUserById k w = (Returned u, w).
Proof.
  intros Hh Hs. unfold getUserById.
  rewrite select_single_healthy by exact Hh.
  unfold stored in Hs. now rewrite Hs.
Qed.

Lemma getUserByEmail_inv m w r w' :
  getUserByEmail m w = (r, w') ->
  rows w' = rows w /\
  exists o, r = Returned o /\
            (forall u, o = Some u -> filter (has_email m) (rows w) = [u]).
Proof.
  unfold getUserByEmail. intro H.
  destruct (select_single (has_email m) w) as [[d|] w0] eqn:E;
    inversion H; subst; apply select_single_inv in E;
    destruct E as [Hr Hf]; (split; [exact Hr|]).
  - exists (Some d). split; [reflexivity|]. intros u Hu. inversion Hu; subst.
    now apply Hf.
  - exists None. split; [reflexivity | discriminate].
Qed.

Lemma getUserByEmail_healthy m w :
  faults w = [] ->
  getUserByEmail m w = (Returned (single (filter (has_email m) (rows w))), w).
Proof.
  intro Hh. unfold getUserByEmail.
  rewrite select_single_healthy by exact Hh.
  now destruct (single (filter (has_email m) (rows w))).
Qed.

Lemma getUserByWordPressId_inv x w r w' :
  getUserByWordPressId x w = (r, w') ->
  rows w' = rows w /\
  exists o, r = Returned o /\
            (forall u, o = Some u ->
                       filter (has_wordpress_id x) (rows w) = [u]).
Proof.
  unfold getUserByWordPressId. intro H.
  destruct (select_single (has_wordpress_id x) w) as [[d|] w0] eqn:E;
    inversion H; subst; apply select_single_inv in E;
    destruct E as [Hr Hf]; (split; [exact Hr|]).
  - exists (Some d). split; [reflexivity|]. intros u Hu. inversion Hu; subst.
    now apply Hf.
  - exists None. split; [reflexivity | discriminate].
Qed.

Lemma getUserByWordPressId_healthy x w :
  faults w = [] ->
  getUserByWordPressId x w =
    (Returned (single (filter (has_wordpress_id x) (rows w))), w).
Proof.
  intro Hh. unfold getUserByWordPressId.
  rewrite select_single_healthy by exact Hh.
  now destruct (single (filter (has_wordpress_id x) (rows w))).
Qed.

(** What a successful [updateUser] has done. *)
Lemma updateUser_inv k p w u w' :
  updateUser k p w = (Returned u, w') ->
  exists r0 t,
    filter (has_id k) (rows w) = [r0] /\
    u = apply_patch p t r0 /\
    rows w' = map (on_row k (apply_patch p t)) (rows w) /\
    table_ok (rows w') = true.
Proof.
  unfold updateUser, bind, now. intro H.
  destruct (getUserById k w) as [[r0|e] w0] eqn:E0; [|discriminate].
  apply getUserById_inv in E0. destruct E0 as [Hf Hr0].
  destruct (update_single k (apply_patch p (clock w0)) w0)
    as [[d|] w1] eqn:E1; [|discriminate].
  inversion H; subst. apply update_single_inv in E1.
  destruct E1 as [Hrows [Hok Hu]].
  rewrite Hr0 in Hrows.
  assert (Eu : u = apply_patch p (clock w0) r0).
  { rewrite Hrows in Hu.
    rewrite (filter_updated k p (clock w0) (rows w) r0 Hf) in Hu.
    now inversion Hu. }
  exists r0, (clock w0). now repeat split.
Qed.

Lemma updateUser_healthy k p w r0 :
  faults w = [] ->
  stored w k = Some r0 ->
  table_ok (map (on_row k (apply_patch p (clock w))) (rows w)) = true ->
  updateUser k p w =
    (Returned (apply_patch p (clock w) r0),
     with_rows (map (on_row k (apply_patch p (clock w))) (rows w)) w).
Proof.
  intros Hh Hs Hok. unfold updateUser, bind, now.
  rewrite (getUserById_healthy k w r0 Hh Hs).
  unfold update_single. rewrite round_trip_healthy by exact Hh.
  cbv zeta. rewrite Hok. simpl.
  unfold stored in Hs. apply single_inv in Hs.
  now rewrite (filter_updated k p (clock w) (rows w) r0 Hs).
Qed.

(** What a successful [createUser] has done. *)
Lemma createUser_inv nu w u w' :
  createUser nu w = (Returned u, w') ->
  exists i t,
    u = new_row nu i t /\
    rows w' = (rows w ++ [u])%list /\
    table_ok (rows w') = true.
Proof.
  unfold createUser, bind, uuidv4, now, throw. intro H.
  destruct (getUserByEmail (nu_email nu) w) as [[o|e] w0] eqn:E0;
    [|discriminate].
  apply getUserByEmail_inv in E0. destruct E0 as [Hr0 _].
  destruct o as [existing|]; [discriminate|].
  simpl in H.
  match type of H with
  | context [insert_single ?row ?wx] =>
      destruct (insert_single row wx) as [[d|] w1] eqn:E1; [|discriminate];
      apply insert_single_inv in E1
  end.
  simpl in E1. destruct E1 as [Hd [Hrows Hok]].
  inversion H; subst.
  exists (uuid w0 (drawn w0)), (clock w0).
  rewrite <- Hr0. now repeat split.
Qed.

(** ** The credit ledger *)

(** Double arithmetic on integers: exact up to 2^53, never turning a
    number that is not negative into a negative one. *)
Lemma round_exact (z : Z) : Z.abs z <= 2 ^ 53 -> Number.round z = z.
Proof.
  intro H. unfold Number.round. apply Z.leb_le in H. now rewrite H.
Qed.

Lemma round_nonneg (z : Z) : 0 <= z -> 0 <= Number.round z.
Proof.
  intro H. unfold Number.round.
  destruct (Z.abs z <=? 2 ^ 53); [exact H|]. cbv zeta.
  apply Z.mul_nonneg_nonneg; [now apply Z.sgn_nonneg|].
  apply Z.mul_nonneg_nonneg; [|apply Z.pow_nonneg; lia].
  assert (Hq : 0 <= Z.abs z / 2 ^ (Z.log2 (Z.abs z) - 52)).
  { apply Z_div_nonneg_nonneg; [apply Z.abs_nonneg | apply Z.pow_nonneg; lia]. }
  match goal with
  | |- 0 <= (if ?c then _ else _) => destruct c
  end; lia.
Qed.

Lemma sub_exact (a b : Z) : Z.abs (a - b) <= 2 ^ 53 -> Number.sub a b = a - b.
Proof. apply round_exact. Qed.

Lemma sub_nonneg (a b : Z) : b <= a -> 0 <= Number.sub a b.
Proof. intro H. apply round_nonneg. lia. Qed.

(** On a table within its constraints and with the storage answering,
    [consumeCredits] is the comparison and the decrement and nothing else. *)
Lemma consumeCredits_healthy w userId amount u :
  faults w = [] -> table_ok (rows w) = true -> stored w userId = Some u ->
  consumeCredits userId amount w =
    if credits u <? amount then (Returned false, w)
    else (Returned true,
          with_rows
            (map (on_row userId
                    (apply_patch (creditValues (Number.sub (credits u) amount))
                       (clock w)))
                 (rows w)) w).
Proof.
  intros Hh Hok Hs. unfold consumeCredits, try_catch, bind.
  rewrite (getUserById_healthy userId w u Hh Hs).
  destruct (credits u <? amount); [reflexivity|].
  rewrite (updateUser_healthy userId _ w u Hh Hs).
  - reflexivity.
  - rewrite table_ok_on_row; auto.
Qed.

Lemma stored_after_update w k p t u :
  stored w k = Some u ->
  stored (with_rows (map (on_row k (apply_patch p t)) (rows w)) w) k
  = Some (apply_patch p t u).
Proof.
  unfold stored. intro H. apply single_inv in H. simpl.
  now rewrite (filter_updated k p t (rows w) u H).
Qed.



(** C10, as the code has it: the amount is not validated; for an amount
    <= 0 the call returns true, and as long as B - amount does not exceed
    2^53, up to where a double holds every integer, it stores B - amount,
    so a negative amount raises the balance. *)
Theorem consumeCredits_nonpositive_amount w userId amount u :
  faults w = [] -> table_ok (rows w) = true ->
  stored w userId = Some u -> 0 <= credits u -> amount <= 0 ->
  credits u - amount <= 2 ^ 53 ->
  exists w' u',
    consumeCredits userId amount w = (Returned true, w') /\
    stored w' userId = Some u' /\
    credits u' = credits u - amount /\
    (amount < 0 -> credits u < credits u').
Proof.
  intros Hh Hok Hs HB Ha Hmax.
  rewrite (consumeCredits_healthy w userId amount u Hh Hok Hs).
  assert (Hge : (credits u <? amount) = false) by (apply Z.ltb_ge; lia).
  rewrite Hge. eexists. eexists. split; [reflexivity|]. split.
  - apply stored_after_update. exact Hs.
  - simpl. rewrite sub_exact by lia. split; lia.
Qed.

Lemma consumeCredits_nonpositive_amount_witness :
  exists w' u',
    consumeCredits "u-1" (-3)
      (Sample.world [Sample.row "user" 10 (Some "42")] []) = (Returned true, w') /\
    stored w' "u-1" = Some u' /\
    credits u' = 10 - (-3) /\
    (-3 < 0 -> 10 < credits u').
Proof.
  apply (consumeCredits_nonpositive_amount
           (Sample.world [Sample.row "user" 10 (Some "42")] [])
           "u-1" (-3) (Sample.row "user" 10 (Some "42")));
    try reflexivity; simpl; lia.
Defined.

(** The claim of C10 fails beyond 2^53.  On a balance of 1 the amount
    -2^53 leaves 2^53 in the table, not 1 - (-2^53): the subtraction is
    one of doubles, and 2^53 + 1 is not a double.  On the balance 2^53
    the amount -1 stores 2^53 again, so this negative amount does not
    raise the balance. *)
Lemma consumeCredits_rounds_beyond_2_53 :
  let w := Sample.world [Sample.row "user" 1 (Some "42")] [] in
  exists w1 u1 w2 u2,
    consumeCredits "u-1" (- 2 ^ 53) w = (Returned true, w1) /\
    stored w1 "u-1" = Some u1 /\
    credits u1 = 2 ^ 53 /\ credits u1 <> 1 - (- 2 ^ 53) /\
    consumeCredits "u-1" (-1) w1 = (Returned true, w2) /\
    stored w2 "u-1" = Some u2 /\
    credits u2 = credits u1.
Proof.
  cbv zeta. eexists. eexists. eexists. eexists.
  split; [vm_compute; reflexivity|].
  split; [vm_compute; reflexivity|].
  split; [vm_compute; reflexivity|].
  split; [vm_compute; discriminate|].
  split; [vm_compute; reflexivity|].
  split; vm_compute; reflexivity.
Qed.

(** *** Storage failures *)

Lemma getUserById_thrown k w e w' :
  getUserById k w = (Thrown e, w') -> rows w' = rows w.
Proof.
  unfold getUserById. intro H.
  destruct (select_single (has_id k) w) as [[d|] w0] eqn:E; [discriminate|].
  inversion H; subst. now apply select_single_inv in E.
Qed.

Lemma round_trip_fired q w d w' :
  round_trip q w = (d, w') ->
  (d = None /\ rows w' = rows w) \/ fired w' = fired w.
Proof.
  intro H. apply round_trip_inv in H.
  destruct H as [[Hd Hw]|[rs [Hq Hw]]]; subst; [left|right]; now simpl.
Qed.

Lemma getUserById_fired k w u w' :
  getUserById k w = (Returned u, w') -> fired w' = fired w.
Proof.
  unfold getUserById. intro H.
  destruct (select_single (has_id k) w) as [[d|] w0] eqn:E; [|discriminate].
  inversion H; subst. apply round_trip_fired in E.
  destruct E as [[Hd _]|E]; [discriminate | exact E].
Qed.

Lemma updateUser_fired k p w u w' :
  updateUser k p w = (Returned u, w') -> fired w' = fired w.
Proof.
  unfold updateUser, bind, now. intro H.
  destruct (getUserById k w) as [[r0|e] w0] eqn:E0; [|discriminate].
  apply getUserById_fired in E0.
  destruct (update_single k (apply_patch p (clock w0)) w0)
    as [[d|] w1] eqn:E1; [|discriminate].
  inversion H; subst. apply round_trip_fired in E1.
  destruct E1 as [[Hd _]|E1]; [discriminate | congruence].
Qed.

Lemma updateUser_thrown k p w e w' :
  updateUser k p w = (Thrown e, w') ->
  rows w' = rows w \/ fired w' = fired w.
Proof.
  unfold updateUser, bind, now. intro H.
  destruct (getUserById k w) as [[r0|e0] w0] eqn:E0.
  - pose proof (getUserById_fired _ _ _ _ E0) as Hf.
    apply getUserById_inv in E0. destruct E0 as [_ Hr].
    destruct (update_single k (apply_patch p (clock w0)) w0)
      as [[d|] w1] eqn:E1; [discriminate|].
    inversion H; subst. apply round_trip_fired in E1.
    destruct E1 as [[_ Hrows]|E1]; [left | right]; congruence.
  - inversion H; subst. left. eapply getUserById_thrown. eassumption.
Qed.

(** An [updateUser] that throws has written nothing. *)
Lemma updateUser_thrown_rows k p w e w' :
  updateUser k p w = (Thrown e, w') ->
  rows w' = rows w /\
  (e = NotFoundError ("User with ID " ++ k ++ " not found") \/
   e = InternalServerError "Failed to update user").
Proof.
  unfold updateUser, bind, now. intro H.
  destruct (getUserById k w) as [[r0|e0] w0] eqn:E0.
  - apply getUserById_inv in E0. destruct E0 as [Hf Hr].
    destruct (update_single k (apply_patch p (clock w0)) w0)
      as [[d|] w1] eqn:E1; [discriminate|].
    inversion H; subst. split; [|now right].
    apply round_trip_inv in E1.
    destruct E1 as [[_ Hw]|[rs [Hq Hw]]]; subst; simpl; [exact Hr|].
    cbv zeta in Hq.
    destruct (table_ok (map (on_row k (apply_patch p (clock w0))) (rows w0)));
      [|inversion Hq; subst; exact Hr].
    rewrite Hr, (filter_updated k p (clock w0) (rows w) r0 Hf) in Hq.
    discriminate Hq.
  - inversion H; subst. split.
    + eapply getUserById_thrown. eassumption.
    + left. unfold getUserById in E0.
      destruct (select_single (has_id k) w) as [[d|] w1]; now inversion E0.
Qed.

(** A [createUser] that throws has written nothing. *)
Lemma createUser_thrown_rows nu w e w' :
  createUser nu w = (Thrown e, w') -> rows w' = rows w.
Proof.
  unfold createUser, bind, uuidv4, now, throw. intro H.
  destruct (getUserByEmail (nu_email nu) w) as [[o|e0] w0] eqn:E0.
  - apply getUserByEmail_inv in E0. destruct E0 as [Hr0 _].
    destruct o as [existing|].
    + inversion H; subst. exact Hr0.
    + simpl in H.
      match type of H with
      | context [insert_single ?row ?wx] =>
          destruct (insert_single row wx) as [[d|] w1] eqn:E1;
            [discriminate|]
      end.
      inversion H; subst.
      apply round_trip_inv in E1.
      destruct E1 as [[_ Hw]|[rs [Hq Hw]]]; subst; simpl; [exact Hr0|].
      simpl in Hq.
      match type of Hq with
      | (if ?c then _ else _) = _ => destruct c
      end; inversion Hq; subst; exact Hr0.
  - apply getUserByEmail_inv in E0. destruct E0 as [_ [o [Ho _]]].
    discriminate Ho.
Qed.

(** C6, as the code has it: [consumeCredits] catches every error and
    returns a boolean, so nothing is ever thrown to the caller; when a
    storage round trip has failed during the call, the result is false
    (never true) and the table is as it was. *)
Theorem consumeCredits_never_throws w userId amount :
  exists b w',
    consumeCredits userId amount w = (Returned b, w') /\
    ((fired w < fired w')%nat -> b = false /\ rows w' = rows w).
Proof.
  unfold consumeCredits, try_catch, bind, ret.
  destruct (getUserById userId w) as [[user|e] w0] eqn:E0.
  - pose proof (getUserById_fired _ _ _ _ E0) as Hf0.
    apply getUserById_inv in E0. destruct E0 as [_ Hr0].
    destruct (credits user <? amount).
    + exists false, w0. split; [reflexivity|]. intros _. now split.
    + destruct (updateUser userId
                  (creditValues (Number.sub (credits user) amount)) w0)
        as [[u1|e1] w1] eqn:E1.
      * exists true, w1. split; [reflexivity|].
        apply updateUser_fired in E1. intro Hlt. exfalso. lia.
      * exists false, w1. split; [reflexivity|]. intros Hlt.
        split; [reflexivity|].
        apply updateUser_thrown in E1. destruct E1 as [E1|E1];
          [congruence | exfalso; lia].
  - exists false, w0. split; [reflexivity|]. intros _.
    split; [reflexivity|]. eapply getUserById_thrown. eassumption.
Qed.

(** Both reads are answered and the write fails. *)
Lemma consumeCredits_never_throws_witness :
  let w := Sample.world [Sample.row "user" 5 (Some "42")] [false; false; true] in
  exists b w',
    consumeCredits "u-1" 1 w = (Returned b, w') /\
    b = false /\ rows w' = rows w.
Proof.
  cbv zeta.
  destruct (consumeCredits_never_throws
              (Sample.world [Sample.row "user" 5 (Some "42")]
                 [false; false; true]) "u-1" 1)
    as [b [w' [E H]]].
  exists b, w'. split; [exact E|]. apply H.
  assert (Hw : w' = snd (consumeCredits "u-1" 1
                           (Sample.world [Sample.row "user" 5 (Some "42")]
                              [false; false; true])))
    by (rewrite E; reflexivity).
  rewrite Hw. vm_compute. lia.
Defined.

(** The claim of C6 fails: the first read of the table fails, and the
    call returns false instead of throwing an [InternalServerError]. *)
Lemma consumeCredits_failure_not_surfaced :
  let w := Sample.world [Sample.row "user" 5 (Some "42")] [true] in
  fired w = 0%nat /\
  fired (snd (consumeCredits "u-1" 1 w)) = 1%nat /\
  fst (consumeCredits "u-1" 1 w) = Returned false /\
  forall m, fst (consumeCredits "u-1" 1 w) <> Thrown (InternalServerError m).
Proof.
  cbv zeta. repeat split. intros m H. discriminate H.
Qed.

(** ** The credential verifier *)

Lemma or_else_truthy (a : option string) (b : string) :
  JS.truthy b = true -> JS.truthy (JS.or_else a b) = true.
Proof.
  intro Hb. unfold JS.or_else. destruct a as [s|]; [|exact Hb].
  destruct (JS.truthy s) eqn:E; [exact E | exact Hb].
Qed.

Lemma DEV_MODE_EMAIL_truthy penv : JS.truthy (DEV_MODE_EMAIL penv) = true.
Proof. apply or_else_truthy. reflexivity. Qed.

Lemma DEV_MODE_PASSWORD_truthy penv : JS.truthy (DEV_MODE_PASSWORD penv) = true.
Proof. apply or_else_truthy. reflexivity. Qed.

Lemma production_not_development penv :
  IS_PRODUCTION penv = true -> IS_DEVELOPMENT penv = false.
Proof.
  unfold IS_PRODUCTION, IS_DEVELOPMENT. intro H.
  apply String.eqb_eq in H. now rewrite H.
Qed.

(** Outside development mode the dev-mode path throws, whatever it is given. *)
Lemma devMode_closed penv username password req :
  IS_DEVELOPMENT penv = false ->
  verifyWordPressCredentialsDevMode penv username password req =
    if negb (JS.truthy username) || negb (JS.truthy password)
    then Thrown (BadRequestError "Email and password are required")
    else Thrown (UnauthorizedError
      "Dev mode authentication is only available in development environment").
Proof.
  intro H. unfold verifyWordPressCredentialsDevMode. rewrite H. simpl.
  reflexivity.
Qed.

(** C4: in production mode the local-fallback path never succeeds: the
    dev-mode verifier throws on every input, it throws an
    [UnauthorizedError] on the configured fallback pair itself, and
    whatever [verifyWordPressCredentials] returns is what the remote
    exchange returned; when the remote exchange fails on the configured
    pair, the caller gets an [UnauthorizedError]. *)
Theorem fallback_unreachable_in_production
    penv remote username password req :
  IS_PRODUCTION penv = true ->
  (exists e,
     verifyWordPressCredentialsDevMode penv username password req = Thrown e) /\
  verifyWordPressCredentialsDevMode penv
      (DEV_MODE_EMAIL penv) (DEV_MODE_PASSWORD penv) req
    = Thrown (UnauthorizedError
        "Dev mode authentication is only available in development environment") /\
  (forall u,
     verifyWordPressCredentials penv remote username password req = Returned u ->
     remote username password = Returned u) /\
  (forall e,
     remote (DEV_MODE_EMAIL penv) (DEV_MODE_PASSWORD penv) = Thrown e ->
     verifyWordPressCredentials penv remote
         (DEV_MODE_EMAIL penv) (DEV_MODE_PASSWORD penv) req
       = Thrown (UnauthorizedError
           "Authentication failed. Please check server logs for details.")).
Proof.
  intro Hprod. pose proof (production_not_development penv Hprod) as Hdev.
  repeat split.
  - rewrite (devMode_closed penv username password req Hdev).
    destruct (negb (JS.truthy username) || negb (JS.truthy password));
      eexists; reflexivity.
  - rewrite (devMode_closed penv _ _ req Hdev).
    now rewrite DEV_MODE_EMAIL_truthy, DEV_MODE_PASSWORD_truthy.
  - intros u. unfold verifyWordPressCredentials. rewrite Hdev.
    destruct (negb (JS.truthy username) || negb (JS.truthy password));
      [discriminate|].
    destruct (remote username password); [tauto | discriminate].
  - intros e He. unfold verifyWordPressCredentials.
    rewrite Hdev, He, DEV_MODE_EMAIL_truthy, DEV_MODE_PASSWORD_truthy.
    reflexivity.
Qed.

Lemma fallback_unreachable_in_production_witness :
  verifyWordPressCredentialsDevMode Sample.production
      "dev@example.com" "devpassword" (Some {| req_ip := Some "127.0.0.1" |})
    = Thrown (UnauthorizedError
        "Dev mode authentication is only available in development environment")
  /\
  verifyWordPressCredentials Sample.production Sample.unreachable
      "dev@example.com" "devpassword" (Some {| req_ip := Some "127.0.0.1" |})
    = Thrown (UnauthorizedError
        "Authentication failed. Please check server logs for details.").
Proof.
  pose proof (fallback_unreachable_in_production
                Sample.production Sample.unreachable
                "dev@example.com" "devpassword"
                (Some {| req_ip := Some "127.0.0.1" |}) eq_refl)
    as [_ [H2 [_ H4]]].
  split; [exact H2 | exact (H4 _ eq_refl)].
Defined.

(** ** Membership resolution and the credit table *)

(** What the two steps give together, for every identity. *)
Lemma resolved_credits (wpUser : WordPressUser) :
  mapMembershipToCredits (getMembershipLevel wpUser) =
    match wp_pmpro_membership wpUser with
    | Some membership =>
        if JS.num_is (JS.parseInt (pm_level membership)) 2 then 20
        else if JS.num_is (JS.parseInt (pm_level membership)) 1 then 10
        else 5
    | None => 5
    end.
Proof.
  unfold getMembershipLevel.
  destruct (wp_pmpro_membership wpUser) as [membership|]; [|reflexivity].
  change MEMBERSHIP_LEVELS.COMPLETE with 2.
  change MEMBERSHIP_LEVELS.BASIC with 1.
  destruct (JS.num_is (JS.parseInt (pm_level membership)) 2); [reflexivity|].
  destruct (JS.num_is (JS.parseInt (pm_level membership)) 1); reflexivity.
Qed.

(** The credit table gives 500 for level id 999 and for nothing else. *)
Lemma developer_credits (m : WordPressMembership) :
  mapMembershipToCredits m = 500 <-> wm_id m = MEMBERSHIP_LEVELS.DEVELOPER.
Proof.
  unfold mapMembershipToCredits.
  destruct (Z.eqb_spec (wm_id m) MEMBERSHIP_LEVELS.DEVELOPER) as [E|E].
  - now split.
  - split; [|contradiction].
    destruct (wm_id m =? MEMBERSHIP_LEVELS.COMPLETE); [discriminate|].
    destruct (wm_id m =? MEMBERSHIP_LEVELS.BASIC); discriminate.
Qed.

(** C3: the level of a descriptor is what [parseInt] reads from its
    [level].  For every identity, the resolver followed by the credit
    table gives 20 credits for level 2, 10 for level 1 and 5 for
    everything else: any other level, a level that is not a number, no
    descriptor at all.  The two steps give 500 for no identity: the 500
    of the credit table is for level id 999 only, and the resolver hands
    on no level but 2, 1 and 0, so no descriptor of the remote provider
    reaches it; the descriptor of the dev-mode path (level "999") gets 5
    from the two steps like every other level. *)
Theorem membership_credit_table penv (wpUser : WordPressUser) :
  (option_map (fun m => JS.parseInt (pm_level m)) (wp_pmpro_membership wpUser)
     = Some (Some 2) ->
   mapMembershipToCredits (getMembershipLevel wpUser) = 20) /\
  (option_map (fun m => JS.parseInt (pm_level m)) (wp_pmpro_membership wpUser)
     = Some (Some 1) ->
   mapMembershipToCredits (getMembershipLevel wpUser) = 10) /\
  (option_map (fun m => JS.parseInt (pm_level m)) (wp_pmpro_membership wpUser)
     <> Some (Some 2) ->
   option_map (fun m => JS.parseInt (pm_level m)) (wp_pmpro_membership wpUser)
     <> Some (Some 1) ->
   mapMembershipToCredits (getMembershipLevel wpUser) = 5) /\
  mapMembershipToCredits (getMembershipLevel wpUser) <> 500 /\
  (forall m, mapMembershipToCredits m = 500 <->
             wm_id m = MEMBERSHIP_LEVELS.DEVELOPER) /\
  wm_id (getMembershipLevel wpUser) <> MEMBERSHIP_LEVELS.DEVELOPER /\
  option_map pm_level (wp_pmpro_membership (devModeUser penv)) = Some "999" /\
  mapMembershipToCredits (getMembershipLevel (devModeUser penv)) = 5.
Proof.
  rewrite resolved_credits.
  assert (Hid : wm_id (getMembershipLevel wpUser) <> MEMBERSHIP_LEVELS.DEVELOPER).
  { unfold getMembershipLevel.
    destruct (wp_pmpro_membership wpUser) as [m|]; [|discriminate].
    destruct (JS.num_is (JS.parseInt (pm_level m)) MEMBERSHIP_LEVELS.COMPLETE);
      [discriminate|].
    destruct (JS.num_is (JS.parseInt (pm_level m)) MEMBERSHIP_LEVELS.BASIC);
      discriminate. }
  destruct (wp_pmpro_membership wpUser) as [m|]; simpl.
  - destruct (JS.parseInt (pm_level m)) as [z|]; simpl.
    + destruct (Z.eqb_spec z 2) as [E2|E2];
        [|destruct (Z.eqb_spec z 1) as [E1|E1]];
        repeat split; try discriminate; try congruence;
        try apply developer_credits; try exact Hid.
    + repeat split; try discriminate; try apply developer_credits;
        try exact Hid.
  - repeat split; try discriminate; try apply developer_credits;
      try exact Hid.
Qed.

(** A subscriber of level 1, one of level 2, and the dev-mode identity. *)
Lemma membership_credit_table_witness :
  mapMembershipToCredits (getMembershipLevel Sample.alice) = 10 /\
  mapMembershipToCredits
    (getMembershipLevel
       {| wp_id := "7"; wp_email := "b@x.com"; wp_name := "Bob";
          wp_roles := []; wp_avatar_urls := None;
          wp_pmpro_membership :=
            Some {| pm_id := "2"; pm_name := "Complete"; pm_level := " 2";
                    pm_initial_payment := 0; pm_billing_amount := 0;
                    pm_cycle_number := "1"; pm_cycle_period := "month";
                    pm_expiration := None |} |}) = 20 /\
  mapMembershipToCredits
    (getMembershipLevel (devModeUser Sample.development)) = 5.
Proof.
  split; [|split].
  - apply (proj1 (proj2 (membership_credit_table Sample.production Sample.alice))).
    reflexivity.
  - refine (proj1 (membership_credit_table Sample.production _) _).
    reflexivity.
  - apply (proj1 (proj2 (proj2 (membership_credit_table Sample.development
                                  (devModeUser Sample.development)))));
      vm_compute; discriminate.
Defined.

(** ** Access tokens *)

(** C9, as the code has it: with a positive [JWT_EXPIRATION], a token
    verified at the instant it was issued gives back the claims it was
    issued for, and so does every verification before its expiry;
    verified at or after its expiry it is refused with "Token expired",
    as is every correctly signed token whose expiry is not in the future;
    a token that does not decode or whose signature does not match is
    refused with "Invalid token".  Whatever [verifyToken] throws is an
    [UnauthorizedError] with status 401: the refusal of an expired token
    and that of an invalid one are of one class and differ in their
    message only. *)
Theorem token_round_trip penv hmac (user : JwtUserPayload) (t0 t1 : Z) :
  (0 < JWT_EXPIRATION penv ->
     verifyToken penv hmac (generateToken penv hmac user t0) t0
     = Returned {| jwt.payload := user; jwt.iat := t0;
                   jwt.exp := t0 + JWT_EXPIRATION penv |}) /\
  (t1 < t0 + JWT_EXPIRATION penv ->
     verifyToken penv hmac (generateToken penv hmac user t0) t1
     = Returned {| jwt.payload := user; jwt.iat := t0;
                   jwt.exp := t0 + JWT_EXPIRATION penv |}) /\
  (t0 + JWT_EXPIRATION penv <= t1 ->
     verifyToken penv hmac (generateToken penv hmac user t0) t1
     = Thrown (UnauthorizedError "Token expired")) /\
  (forall c, jwt.exp c <= t1 ->
     verifyToken penv hmac (jwt.Compact c (hmac (JWT_SECRET penv) c)) t1
     = Thrown (UnauthorizedError "Token expired")) /\
  (forall raw,
     verifyToken penv hmac (jwt.Malformed raw) t1
     = Thrown (UnauthorizedError "Invalid token")) /\
  (forall c sg, sg <> hmac (JWT_SECRET penv) c ->
     verifyToken penv hmac (jwt.Compact c sg) t1
     = Thrown (UnauthorizedError "Invalid token")) /\
  (forall token e,
     verifyToken penv hmac token t1 = Thrown e ->
     className e = "UnauthorizedError" /\ statusCode e = 401 /\
     (message_of e = "Token expired" \/ message_of e = "Invalid token")).
Proof.
  unfold verifyToken, generateToken, jwt.sign, jwt.verify.
  repeat split.
  - intro H. rewrite String.eqb_refl. simpl.
    assert (Hlt : (t0 + JWT_EXPIRATION penv <=? t0) = false)
      by (apply Z.leb_gt; lia).
    now rewrite Hlt.
  - intro H. rewrite String.eqb_refl. simpl.
    apply Z.leb_gt in H. now rewrite H.
  - intro H. rewrite String.eqb_refl. simpl.
    apply Z.leb_le in H. now rewrite H.
  - intros c H. rewrite String.eqb_refl. simpl.
    apply Z.leb_le in H. now rewrite H.
  - intros c sg Hsg. apply String.eqb_neq in Hsg. now rewrite Hsg.
  - destruct token as [raw|c sg]; simpl in H.
    + now inversion H.
    + destruct (sg =? hmac (JWT_SECRET penv) c)%string; simpl in H.
      * destruct (jwt.exp c <=? t1); [now inversion H | discriminate H].
      * now inversion H.
  - destruct token as [raw|c sg]; simpl in H.
    + now inversion H.
    + destruct (sg =? hmac (JWT_SECRET penv) c)%string; simpl in H.
      * destruct (jwt.exp c <=? t1); [now inversion H | discriminate H].
      * now inversion H.
  - destruct token as [raw|c sg]; simpl in H.
    + inversion H. now right.
    + destruct (sg =? hmac (JWT_SECRET penv) c)%string; simpl in H.
      * destruct (jwt.exp c <=? t1); [inversion H; now left | discriminate H].
      * inversion H. now right.
Qed.

Lemma token_round_trip_witness :
  let user := {| jwt_id := "u-1"; jwt_email := "a@x.com"; jwt_role := "user" |} in
  verifyToken Sample.production Sample.hmac
    (generateToken Sample.production Sample.hmac user 1700000000) 1700000000
  = Returned {| jwt.payload := user; jwt.iat := 1700000000;
                jwt.exp := 1700000000 + 86400 |}
  /\
  verifyToken Sample.production Sample.hmac
    (generateToken Sample.production Sample.hmac user 1700000000) 1700086400
  = Thrown (UnauthorizedError "Token expired")
  /\
  verifyToken Sample.production Sample.hmac
    (jwt.Compact {| jwt.payload := user; jwt.iat := 1700000000;
                    jwt.exp := 1700086400 |} "forged") 1700000000
  = Thrown (UnauthorizedError "Invalid token").
Proof.
  cbv zeta. split; [|split].
  - refine (proj1 (token_round_trip Sample.production Sample.hmac
                     _ 1700000000 1700000000) _).
    simpl. lia.
  - refine (proj1 (proj2 (proj2 (token_round_trip Sample.production Sample.hmac
                     _ 1700000000 1700086400))) _).
    simpl. lia.
  - refine (proj1 (proj2 (proj2 (proj2 (proj2 (proj2
              (token_round_trip Sample.production Sample.hmac
                 {| jwt_id := "u-1"; jwt_email := "a@x.com"; jwt_role := "user" |}
                 1700000000 1700000000)))))) _ _ _).
    vm_compute. discriminate.
Defined.

(** The claim of C9 fails in two places.  The refusal of an expired
    token and the refusal of a forged one are not of distinct kinds: both
    are an [UnauthorizedError] with status 401, and the login service
    treats them alike.  And a token verified at the very instant it was
    issued is refused as expired when [JWT_EXPIRATION] is 0. *)
Lemma expired_and_invalid_are_one_kind :
  let user := {| jwt_id := "u-1"; jwt_email := "a@x.com"; jwt_role := "user" |} in
  let short_lived :=
    {| env_NODE_ENV := None; env_DEV_MODE_EMAIL := None;
       env_DEV_MODE_PASSWORD := None; env_DEV_MODE_USER_ID := None;
       env_DEV_MODE_USER_NAME := None; env_DEV_MODE_CREDITS := 1000;
       env_JWT_SECRET := Some "s3cret"; env_JWT_EXPIRATION := 0 |} in
  (exists expired invalid,
     verifyToken Sample.production Sample.hmac
       (generateToken Sample.production Sample.hmac user 1700000000) 1700086400
     = Thrown expired /\
     verifyToken Sample.production Sample.hmac
       (jwt.Compact {| jwt.payload := user; jwt.iat := 1700000000;
                       jwt.exp := 1700086400 |} "forged") 1700000000
     = Thrown invalid /\
     className expired = className invalid /\
     statusCode expired = statusCode invalid /\
     is_auth_or_bad_request expired = is_auth_or_bad_request invalid) /\
  verifyToken short_lived Sample.hmac
    (generateToken short_lived Sample.hmac user 1700000000) 1700000000
  = Thrown (UnauthorizedError "Token expired").
Proof.
  cbv zeta. split; [|reflexivity].
  eexists. eexists. repeat split.
Qed.

(** ** Reconciliation *)

(** The four ways [getUserOrCreateFromWordPress] returns a record: found
    by WordPress id and in sync; found by WordPress id and synced; found
    by email and linked; created. *)
Lemma reconcile_inv penv wpUser w u w' :
  getUserOrCreateFromWordPress penv wpUser w = (Returned u, w') ->
  (exists u0,
     filter (has_wordpress_id (wp_id wpUser)) (rows w) = [u0] /\
     needsSync penv u0 wpUser = false /\ u = u0 /\ rows w' = rows w)
  \/
  (exists u0 t,
     filter (has_wordpress_id (wp_id wpUser)) (rows w) = [u0] /\
     u = apply_patch (syncValues penv wpUser u0) t u0 /\
     rows w' = map (on_row (id u0) (apply_patch (syncValues penv wpUser u0) t))
                   (rows w) /\
     table_ok (rows w') = true)
  \/
  (exists u0 t,
     filter (has_email (wp_email wpUser)) (rows w) = [u0] /\
     u = apply_patch (linkValues penv wpUser u0) t u0 /\
     rows w' = map (on_row (id u0) (apply_patch (linkValues penv wpUser u0) t))
                   (rows w) /\
     table_ok (rows w') = true)
  \/
  (exists i t t',
     u = new_row (firstLogin penv wpUser t) i t' /\
     rows w' = (rows w ++ [u])%list /\
     table_ok (rows w') = true).
Proof.
  unfold getUserOrCreateFromWordPress, bind. intro H.
  destruct (getUserByWordPressId (wp_id wpUser) w) as [r0 w0] eqn:E0.
  apply getUserByWordPressId_inv in E0.
  destruct E0 as [Hr0 [o [Er Ho]]]. subst r0.
  destruct o as [u0|].
  - specialize (Ho u0 eq_refl).
    destruct (needsSync penv u0 wpUser) eqn:Hn.
    + right; left. apply updateUser_inv in H.
      destruct H as [r1 [t [Hf [Hu [Hrows Hok]]]]].
      rewrite Hr0 in Hf, Hrows.
      destruct (filter_single_In _ _ _ Ho) as [Hin _].
      assert (E : u0 = r1).
      { eapply filter_single_unique; [exact Hf | exact Hin |].
        now apply has_id_true. }
      subst r1. exists u0, t. now repeat split.
    + left. unfold ret in H. inversion H; subst.
      exists u. now repeat split.
  - clear Ho.
    destruct (getUserByEmail (wp_email wpUser) w0) as [r1 w1] eqn:E1.
    apply getUserByEmail_inv in E1.
    destruct E1 as [Hr1 [o [Er Ho]]]. subst r1.
    destruct o as [u0|].
    + right; right; left. specialize (Ho u0 eq_refl).
      apply updateUser_inv in H.
      destruct H as [r2 [t [Hf [Hu [Hrows Hok]]]]].
      rewrite Hr1, Hr0 in Hf, Hrows. rewrite Hr0 in Ho.
      destruct (filter_single_In _ _ _ Ho) as [Hin _].
      assert (E : u0 = r2).
      { eapply filter_single_unique; [exact Hf | exact Hin |].
        now apply has_id_true. }
      subst r2. exists u0, t. now repeat split.
    + right; right; right. unfold now in H.
      apply createUser_inv in H.
      destruct H as [i [t' [Hu [Hrows Hok]]]].
      rewrite Hr1, Hr0 in Hrows.
      exists i, (clock w1), t'. now repeat split.
Qed.

Lemma assignedRole_truthy penv wpUser :
  JS.truthy (assignedRole penv wpUser) = true.
Proof.
  unfold assignedRole, determineUserRole.
  destruct (isDevModeUser penv wpUser); [reflexivity|].
  destruct (JS.includes (wp_roles wpUser) WP_ROLE_MAPPING.ADMIN); reflexivity.
Qed.

Lemma firstLogin_row penv wpUser t i t' :
  let u := new_row (firstLogin penv wpUser t) i t' in
  name u = wp_name wpUser /\ email u = wp_email wpUser /\
  role u = assignedRole penv wpUser /\
  wordpress_id u = JS.or_null (Some (wp_id wpUser)) /\
  (isDevModeUser penv wpUser = true -> credits u = DEV_MODE_CREDITS penv).
Proof.
  unfold firstLogin, initialEntitlement.
  destruct (isDevModeUser penv wpUser) eqn:Hd; simpl;
    unfold JS.or_else; rewrite assignedRole_truthy;
    repeat split; try reflexivity; discriminate.
Qed.

(** The record a reconciliation returns is a row of the table and agrees
    with the identity on name, email and role (and, for the dev-mode
    identity, on the dev-mode credits). *)
Lemma reconcile_fields penv wpUser w u w' :
  getUserOrCreateFromWordPress penv wpUser w = (Returned u, w') ->
  In u (rows w') /\
  name u = wp_name wpUser /\ email u = wp_email wpUser /\
  role u = assignedRole penv wpUser /\
  (isDevModeUser penv wpUser = true -> credits u = DEV_MODE_CREDITS penv).
Proof.
  intro H. apply reconcile_inv in H.
  destruct H as [[u0 [Hf [Hn [Eu Hrows]]]]
                |[[u0 [t [Hf [Eu [Hrows Hok]]]]]
                 |[[u0 [t [Hf [Eu [Hrows Hok]]]]]
                  |[i [t [t' [Eu [Hrows Hok]]]]]]]].
  - subst u0. destruct (filter_single_In _ _ _ Hf) as [Hin _].
    unfold needsSync in Hn. rewrite !orb_false_iff in Hn.
    destruct Hn as [[[Hname Hmail] Hrole] Hcred].
    rewrite negb_false_iff in Hname, Hmail, Hrole.
    apply String.eqb_eq in Hname, Hmail, Hrole.
    rewrite Hrows. repeat split; try assumption.
    intro Hd. rewrite Hd in Hcred. simpl in Hcred.
    rewrite negb_false_iff in Hcred. now apply Z.eqb_eq.
  - destruct (filter_single_In _ _ _ Hf) as [Hin _].
    split.
    + rewrite Hrows. apply in_map_iff. exists u0. split; [|exact Hin].
      unfold on_row. rewrite (proj2 (has_id_true (id u0) u0) eq_refl).
      now symmetry.
    + subst u. simpl. repeat split. intro Hd. now rewrite Hd.
  - destruct (filter_single_In _ _ _ Hf) as [Hin Hm].
    apply has_email_true in Hm.
    split.
    + rewrite Hrows. apply in_map_iff. exists u0. split; [|exact Hin].
      unfold on_row. rewrite (proj2 (has_id_true (id u0) u0) eq_refl).
      now symmetry.
    + subst u. simpl. repeat split; try assumption.
      intro Hd. now rewrite Hd.
  - split.
    + rewrite Hrows. apply in_or_app. right. now left.
    + subst u. pose proof (firstLogin_row penv wpUser t i t') as Hrow.
      cbv zeta in Hrow. tauto.
Qed.

Lemma in_sync penv wpUser u :
  name u = wp_name wpUser -> email u = wp_email wpUser ->
  role u = assignedRole penv wpUser ->
  (isDevModeUser penv wpUser = true -> credits u = DEV_MODE_CREDITS penv) ->
  needsSync penv u wpUser = false.
Proof.
  intros Hn He Hr Hc. unfold needsSync.
  rewrite Hn, He, Hr, !String.eqb_refl. simpl.
  destruct (isDevModeUser penv wpUser); [|reflexivity].
  rewrite (Hc eq_refl), Z.eqb_refl. reflexivity.
Qed.

(** After a reconciliation of an identity with a non-empty id, the lookup
    by that id finds the returned record and nothing else. *)
Lemma reconcile_linked penv wpUser w u w' :
  wp_id wpUser <> "" ->
  getUserOrCreateFromWordPress penv wpUser w = (Returned u, w') ->
  filter (has_wordpress_id (wp_id wpUser)) (rows w') = [u].
Proof.
  intros Hid H. pose proof (reconcile_fields _ _ _ _ _ H) as [Hin _].
  apply reconcile_inv in H.
  destruct H as [[u0 [Hf [Hn [Eu Hrows]]]]
                |[[u0 [t [Hf [Eu [Hrows Hok]]]]]
                 |[[u0 [t [Hf [Eu [Hrows Hok]]]]]
                  |[i [t [t' [Eu [Hrows Hok]]]]]]]].
  - subst u0. now rewrite Hrows.
  - rewrite Hrows, filter_map_stable.
    + rewrite Hf. simpl. unfold on_row.
      rewrite (proj2 (has_id_true (id u0) u0) eq_refl). now subst u.
    + intro a. unfold on_row. destruct (has_id (id u0) a); reflexivity.
  - apply table_ok_inv in Hok. destruct Hok as [_ [_ Hnd]].
    apply linked_filter; [exact Hnd | exact Hin | now subst u].
  - apply table_ok_inv in Hok. destruct Hok as [_ [_ Hnd]].
    apply linked_filter; [exact Hnd | exact Hin |].
    subst u. simpl. unfold JS.truthy.
    apply String.eqb_neq in Hid. now rewrite Hid.
Qed.

(** A reconciliation that throws has written nothing. *)
Lemma reconcile_thrown_rows penv wpUser w e w' :
  getUserOrCreateFromWordPress penv wpUser w = (Thrown e, w') ->
  rows w' = rows w.
Proof.
  unfold getUserOrCreateFromWordPress, bind, now, ret. intro H.
  destruct (getUserByWordPressId (wp_id wpUser) w) as [r0 w0] eqn:E0.
  apply getUserByWordPressId_inv in E0. destruct E0 as [Hr0 [o [Er _]]].
  subst r0. destruct o as [u0|].
  - destruct (needsSync penv u0 wpUser); [|discriminate].
    apply updateUser_thrown_rows in H. destruct H as [H _]. congruence.
  - destruct (getUserByEmail (wp_email wpUser) w0) as [r1 w1] eqn:E1.
    apply getUserByEmail_inv in E1. destruct E1 as [Hr1 [o [Er _]]].
    subst r1. destruct o as [u0|].
    + apply updateUser_thrown_rows in H. destruct H as [H _]. congruence.
    + apply createUser_thrown_rows in H. congruence.
Qed.

(** While a record carries the id of the identity, no reconciliation of
    that identity can add a row: the unique index on the external id
    refuses it. *)
Lemma reconcile_row_count penv wpUser w u r w' :
  wp_id wpUser <> "" ->
  In u (rows w) -> wordpress_id u = Some (wp_id wpUser) ->
  getUserOrCreateFromWordPress penv wpUser w = (r, w') ->
  List.length (rows w') = List.length (rows w).
Proof.
  intros Hid Hin Hw H. destruct r as [u1|e].
  - apply reconcile_inv in H.
    destruct H as [[u0 [_ [_ [_ Hrows]]]]
                  |[[u0 [t [_ [_ [Hrows _]]]]]
                   |[[u0 [t [_ [_ [Hrows _]]]]]
                    |[i [t [t' [Eu [Hrows Hok]]]]]]]].
    + now rewrite Hrows.
    + rewrite Hrows. apply length_map.
    + rewrite Hrows. apply length_map.
    + exfalso. apply table_ok_inv in Hok. destruct Hok as [_ [_ Hnd]].
      rewrite Hrows in Hnd. unfold linked_ids in Hnd.
      rewrite flat_map_app in Hnd. simpl in Hnd.
      pose proof (firstLogin_row penv wpUser t i t') as Hrow.
      cbv zeta in Hrow. destruct Hrow as [_ [_ [_ [Hlink _]]]].
      rewrite <- Eu in Hlink. rewrite Hlink in Hnd.
      unfold JS.or_null in Hnd.
      rewrite (proj2 (truthy_nonempty (wp_id wpUser)) Hid) in Hnd.
      simpl in Hnd. apply NoDup_remove_2 in Hnd. apply Hnd.
      rewrite app_nil_r. eapply In_linked_ids; eassumption.
  - apply reconcile_thrown_rows in H. now rewrite H.
Qed.

(** With the lookup by WordPress id answered, a linked record that
    differs from the identity in none of name, email, role and dev-mode
    credits is returned as it is, and nothing but that one round trip has
    happened. *)
Lemma reconcile_no_op penv wpUser w u :
  hd false (faults w) = false ->
  single (filter (has_wordpress_id (wp_id wpUser)) (rows w)) = Some u ->
  needsSync penv u wpUser = false ->
  getUserOrCreateFromWordPress penv wpUser w = (Returned u, answered w).
Proof.
  intros Hh Hs Hn.
  unfold getUserOrCreateFromWordPress, bind, getUserByWordPressId,
    select_single, round_trip.
  destruct (faults w) as [|[|] fs] eqn:Hf; try discriminate Hh;
    rewrite Hs, Hn; unfold ret; f_equal;
    unfold with_rows, answered; simpl; now rewrite Hf.
Qed.

(** C2: an identity that has been reconciled once has a record linked to
    its id, which agrees with it in name, email, role and (for the
    dev-mode identity) credits.  From then on, whatever else has happened
    to the record and whatever the storage does, reconciling the identity
    never adds a row.  And when the linked record differs from the
    identity in none of name, email, role and dev-mode credits, and the
    lookup is answered, the call returns the stored record as it is and
    leaves the table as it was: no update is made, whatever the balance
    and the other columns of the record are.  In particular the call
    that follows a reconciliation returns the same record and changes
    nothing. *)
Theorem reconcile_idempotent penv wpUser :
  wp_id wpUser <> "" ->
  (forall w0 u w1,
     getUserOrCreateFromWordPress penv wpUser w0 = (Returned u, w1) ->
     single (filter (has_wordpress_id (wp_id wpUser)) (rows w1)) = Some u /\
     name u = wp_name wpUser /\ email u = wp_email wpUser /\
     role u = assignedRole penv wpUser /\
     (isDevModeUser penv wpUser = true -> credits u = DEV_MODE_CREDITS penv)) /\
  (forall w u r w',
     single (filter (has_wordpress_id (wp_id wpUser)) (rows w)) = Some u ->
     getUserOrCreateFromWordPress penv wpUser w = (r, w') ->
     List.length (rows w') = List.length (rows w) /\
     (name u = wp_name wpUser -> email u = wp_email wpUser ->
      role u = assignedRole penv wpUser ->
      (isDevModeUser penv wpUser = true ->
       credits u = DEV_MODE_CREDITS penv) ->
      hd false (faults w) = false ->
      r = Returned u /\ rows w' = rows w /\ w' = answered w)) /\
  (forall w0 u w1,
     getUserOrCreateFromWordPress penv wpUser w0 = (Returned u, w1) ->
     hd false (faults w1) = false ->
     getUserOrCreateFromWordPress penv wpUser w1 = (Returned u, answered w1)).
Proof.
  intro Hid.
  assert (Once : forall w0 u w1,
     getUserOrCreateFromWordPress penv wpUser w0 = (Returned u, w1) ->
     single (filter (has_wordpress_id (wp_id wpUser)) (rows w1)) = Some u /\
     name u = wp_name wpUser /\ email u = wp_email wpUser /\
     role u = assignedRole penv wpUser /\
     (isDevModeUser penv wpUser = true -> credits u = DEV_MODE_CREDITS penv)).
  { intros w0 u w1 H.
    pose proof (reconcile_linked _ _ _ _ _ Hid H) as Hl.
    pose proof (reconcile_fields _ _ _ _ _ H) as [_ Hf].
    split; [now rewrite Hl | exact Hf]. }
  split; [exact Once|]. split.
  - intros w u r w' Hs H. split.
    + apply single_inv in Hs.
      destruct (filter_single_In _ _ _ Hs) as [Hin Hm].
      apply has_wordpress_id_true in Hm.
      eapply reconcile_row_count; eassumption.
    + intros Hn He Hr Hc Hh.
      pose proof (in_sync penv wpUser u Hn He Hr Hc) as Hsync.
      rewrite (reconcile_no_op penv wpUser w u Hh Hs Hsync) in H.
      inversion H; subst. now repeat split.
  - intros w0 u w1 H Hh.
    destruct (Once w0 u w1 H) as [Hs [Hn [He [Hr Hc]]]].
    apply reconcile_no_op; [exact Hh | exact Hs |].
    now apply in_sync.
Qed.

(** A first login that creates the record; then the same login on a
    table in which the record has 3 of its 10 credits left. *)
Lemma reconcile_idempotent_witness :
  (exists u w1,
     getUserOrCreateFromWordPress Sample.production Sample.alice
       (Sample.world [] []) = (Returned u, w1) /\
     single (filter (has_wordpress_id "42") (rows w1)) = Some u) /\
  let w := Sample.world [Sample.row "user" 3 (Some "42")] [] in
  getUserOrCreateFromWordPress Sample.production Sample.alice w
  = (Returned (Sample.row "user" 3 (Some "42")), w).
Proof.
  destruct (reconcile_idempotent Sample.production Sample.alice)
    as [H1 [H2 _]]; [discriminate|].
  split.
  - eexists. eexists. split; [reflexivity|].
    exact (proj1 (H1 (Sample.world [] []) _ _ eq_refl)).
  - cbv zeta.
    destruct (H2 (Sample.world [Sample.row "user" 3 (Some "42")] [])
                 (Sample.row "user" 3 (Some "42")) _ _ eq_refl
                 (surjective_pairing _)) as [_ H].
    destruct (H eq_refl eq_refl eq_refl
                ltac:(intro Hd; discriminate Hd) eq_refl) as [Hr [_ Hw]].
    rewrite (surjective_pairing
               (getUserOrCreateFromWordPress Sample.production Sample.alice
                  (Sample.world [Sample.row "user" 3 (Some "42")] []))).
    rewrite Hr, Hw. reflexivity.
Defined.

Lemma determineUserRole_admin (wpRoles : list string) :
  determineUserRole wpRoles = USER_ROLES.ADMIN <->
  In WP_ROLE_MAPPING.ADMIN wpRoles.
Proof.
  unfold determineUserRole, JS.includes.
  destruct (existsb (String.eqb WP_ROLE_MAPPING.ADMIN) wpRoles) eqn:E.
  - apply existsb_eqb_In in E. tauto.
  - split; [discriminate|]. intro H. apply existsb_eqb_In in H. congruence.
Qed.

(** C7: for an identity that is not the dev-mode one, the record a
    reconciliation returns (a row of the table it leaves) has role admin
    exactly when the identity's roles contain "administrator"; whatever
    role was stored before, without that marker the role is user. *)
Theorem reconcile_role penv wpUser w u w' :
  isDevModeUser penv wpUser = false ->
  getUserOrCreateFromWordPress penv wpUser w = (Returned u, w') ->
  In u (rows w') /\
  (role u = USER_ROLES.ADMIN <-> In WP_ROLE_MAPPING.ADMIN (wp_roles wpUser)) /\
  (~ In WP_ROLE_MAPPING.ADMIN (wp_roles wpUser) -> role u = USER_ROLES.USER).
Proof.
  intros Hd H.
  pose proof (reconcile_fields _ _ _ _ _ H) as [Hin [_ [_ [Hr _]]]].
  unfold assignedRole in Hr. rewrite Hd in Hr.
  split; [exact Hin|]. rewrite Hr. split.
  - apply determineUserRole_admin.
  - intro Hno. unfold determineUserRole, JS.includes.
    destruct (existsb (String.eqb WP_ROLE_MAPPING.ADMIN) (wp_roles wpUser))
      eqn:E; [|reflexivity].
    apply existsb_eqb_In in E. contradiction.
Qed.

(** Role loss and role gain on the next login of a linked record. *)
Lemma reconcile_role_witness :
  (exists u w',
     getUserOrCreateFromWordPress Sample.production Sample.alice
       (Sample.world [Sample.row "admin" 10 (Some "42")] []) = (Returned u, w') /\
     In u (rows w') /\ role u = "user") /\
  (exists u w',
     getUserOrCreateFromWordPress Sample.production Sample.alice_admin
       (Sample.world [Sample.row "user" 10 (Some "42")] []) = (Returned u, w') /\
     In u (rows w') /\ role u = "admin").
Proof.
  split.
  - eexists. eexists. split; [reflexivity|].
    pose proof (reconcile_role Sample.production Sample.alice
                  (Sample.world [Sample.row "admin" 10 (Some "42")] [])
                  _ _ eq_refl eq_refl) as [Hin [_ Hloss]].
    split; [exact Hin|]. apply Hloss.
    simpl. intros [E|[]]. discriminate E.
  - eexists. eexists. split; [reflexivity|].
    pose proof (reconcile_role Sample.production Sample.alice_admin
                  (Sample.world [Sample.row "user" 10 (Some "42")] [])
                  _ _ eq_refl eq_refl) as [Hin [Hiff _]].
    split; [exact Hin|]. apply Hiff. simpl. right. now left.
Defined.

(** *** Linking a record found by email *)

Lemma map_on_row_absent k f (rs : list User) :
  (forall r, In r rs -> id r <> k) -> map (on_row k f) rs = rs.
Proof.
  induction rs as [|r rs IH]; simpl; intro H; [reflexivity|].
  rewrite IH by (intros r' Hr'; apply H; now right).
  unfold on_row. destruct (has_id k r) eqn:E; [|reflexivity].
  apply has_id_true in E. exfalso. apply (H r); [now left | exact E].
Qed.

Lemma linked_ids_cons r rs :
  linked_ids (r :: rs)
  = (match wordpress_id r with Some i => [i] | None => [] end
     ++ linked_ids rs)%list.
Proof. reflexivity. Qed.

Lemma linked_ids_on_row k f x rs y :
  (forall r, wordpress_id (f r) = Some x) ->
  In y (linked_ids (map (on_row k f) rs)) -> y = x \/ In y (linked_ids rs).
Proof.
  intros Hf Hy. apply linked_ids_In in Hy. destruct Hy as [u [Hu Hw]].
  apply in_map_iff in Hu. destruct Hu as [r [Er Hr]].
  unfold on_row in Er. destruct (has_id k r).
  - subst u. rewrite Hf in Hw. left. congruence.
  - subst u. right. eapply In_linked_ids; eassumption.
Qed.

Lemma linked_after_link k f x rs :
  (forall r, wordpress_id (f r) = Some x) ->
  NoDup (map id rs) -> NoDup (linked_ids rs) -> ~ In x (linked_ids rs) ->
  NoDup (linked_ids (map (on_row k f) rs)).
Proof.
  intro Hf. induction rs as [|r rs IH]; intros Hids Hnd Hx; [constructor|].
  simpl map. rewrite linked_ids_cons. rewrite linked_ids_cons in Hnd, Hx.
  simpl in Hids. inversion Hids as [|? ? Hk Hids']; subst.
  assert (Hnd' : NoDup (linked_ids rs)).
  { destruct (wordpress_id r); simpl in Hnd; [now inversion Hnd | exact Hnd]. }
  assert (Hx' : ~ In x (linked_ids rs)).
  { intro Hin. apply Hx. apply in_or_app. now right. }
  unfold on_row at 1. destruct (has_id k r) eqn:E.
  - apply has_id_true in E. subst k.
    rewrite map_on_row_absent.
    + rewrite Hf. simpl. now constructor.
    + intros r' Hr' Heq. apply Hk. rewrite <- Heq. now apply in_map.
  - destruct (wordpress_id r) as [y|] eqn:Ey; simpl.
    + simpl in Hnd. inversion Hnd as [|? ? Hy _]; subst.
      constructor; [|now apply IH].
      intro Hin. apply (linked_ids_on_row k f x rs y Hf) in Hin.
      destruct Hin as [Eq|Hin]; [|contradiction].
      subst y. apply Hx. simpl. now left.
    + now apply IH.
Qed.

Lemma table_ok_link k f x rs :
  (forall r, id (f r) = id r) ->
  (forall r, email (f r) = email r) ->
  (forall r, wordpress_id (f r) = Some x) ->
  table_ok rs = true -> ~ In x (linked_ids rs) ->
  table_ok (map (on_row k f) rs) = true.
Proof.
  intros Hi He Hw Hok Hx. apply table_ok_inv in Hok.
  destruct Hok as [Hids [Hmails Hnd]].
  assert (E1 : map id (map (on_row k f) rs) = map id rs).
  { rewrite map_map. apply map_ext. intro r. unfold on_row.
    destruct (has_id k r); [apply Hi | reflexivity]. }
  assert (E2 : map email (map (on_row k f) rs) = map email rs).
  { rewrite map_map. apply map_ext. intro r. unfold on_row.
    destruct (has_id k r); [apply He | reflexivity]. }
  apply table_ok_intro.
  - now rewrite E1.
  - now rewrite E2.
  - now apply (linked_after_link k f x).
Qed.

Lemma unique_id_filter (rs : list User) (u : User) :
  NoDup (map id rs) -> In u rs -> filter (has_id (id u)) rs = [u].
Proof.
  induction rs as [|r rs IH]; intros Hnd Hin; [contradiction|].
  simpl in Hnd. inversion Hnd as [|? ? Hk Hnd']; subst. simpl.
  destruct Hin as [E|Hin].
  - subst r. rewrite (proj2 (has_id_true (id u) u) eq_refl).
    f_equal. apply filter_none. intros a Ha.
    destruct (has_id (id u) a) eqn:E; [|reflexivity].
    apply has_id_true in E. exfalso. apply Hk. rewrite <- E. now apply in_map.
  - destruct (has_id (id u) r) eqn:E.
    + apply has_id_true in E. exfalso. apply Hk. rewrite E. now apply in_map.
    + now apply IH.
Qed.

Lemma not_found_unlinked (rs : list User) (x : string) :
  NoDup (linked_ids rs) ->
  single (filter (has_wordpress_id x) rs) = None ->
  ~ In x (linked_ids rs).
Proof.
  intros Hnd Hs Hin. apply linked_ids_In in Hin.
  destruct Hin as [u [Hu Hx]].
  rewrite (linked_filter rs u x Hnd Hu Hx) in Hs. discriminate.
Qed.

(** C8, as the code has it: with the storage answering and the table
    within its constraints, a record found by email (and not by WordPress
    id) is linked to the incoming WordPress id whatever id it carried
    before; the call returns the updated record, which is the one stored,
    and raises no conflict. *)
Theorem reconcile_relinks penv wpUser w u0 :
  faults w = [] -> table_ok (rows w) = true ->
  single (filter (has_wordpress_id (wp_id wpUser)) (rows w)) = None ->
  single (filter (has_email (wp_email wpUser)) (rows w)) = Some u0 ->
  exists u w',
    getUserOrCreateFromWordPress penv wpUser w = (Returned u, w') /\
    id u = id u0 /\
    wordpress_id u = Some (wp_id wpUser) /\
    stored w' (id u0) = Some u.
Proof.
  intros Hh Hok Hwp Hmail.
  pose proof (table_ok_inv _ Hok) as [Hids [_ Hnd]].
  apply single_inv in Hmail.
  destruct (filter_single_In _ _ _ Hmail) as [Hin _].
  assert (Hst : stored w (id u0) = Some u0).
  { unfold stored. now rewrite (unique_id_filter _ _ Hids Hin). }
  unfold getUserOrCreateFromWordPress, bind.
  rewrite (getUserByWordPressId_healthy _ _ Hh), Hwp.
  rewrite (getUserByEmail_healthy _ _ Hh), Hmail.
  change (single [u0]) with (Some u0). cbv beta iota.
  rewrite (updateUser_healthy (id u0) _ w u0 Hh Hst).
  - eexists. eexists. split; [reflexivity|].
    split; [reflexivity|]. split; [reflexivity|].
    now apply stored_after_update.
  - apply (table_ok_link _ _ (wp_id wpUser)); auto.
    now apply not_found_unlinked.
Qed.

Lemma reconcile_relinks_witness :
  exists u w',
    getUserOrCreateFromWordPress Sample.production Sample.alice
      (Sample.world [Sample.row "user" 10 (Some "7")] []) = (Returned u, w') /\
    id u = "u-1" /\
    wordpress_id u = Some "42" /\
    stored w' "u-1" = Some u.
Proof.
  apply (reconcile_relinks Sample.production Sample.alice
           (Sample.world [Sample.row "user" 10 (Some "7")] [])
           (Sample.row "user" 10 (Some "7"))); reflexivity.
Defined.

(** The claim of C8 fails: Alice's record carries WordPress id "7", the
    identity logging in with her email has id "42"; the reconciliation
    returns normally and the stored id is now "42". *)
Lemma reconcile_overwrites_external_id :
  let w := Sample.world [Sample.row "user" 10 (Some "7")] [] in
  let r := getUserOrCreateFromWordPress Sample.production Sample.alice w in
  map wordpress_id (rows w) = [Some "7"] /\
  wp_id Sample.alice = "42" /\
  (forall m, fst r <> Thrown (InternalServerError m)) /\
  option_map wordpress_id
    (match fst r with Returned u => Some u | Thrown _ => None end)
    = Some (Some "42") /\
  map wordpress_id (rows (snd r)) = [Some "42"].
Proof.
  cbv zeta. repeat split. intros m H. discriminate H.
Qed.

(** ** Login: reconciliation followed by the membership update *)

Lemma updateUserMembership_inv k ml w u w' :
  updateUserMembership k ml w = (Returned u, w') ->
  filter (has_id k) (rows w') = [u] /\
  credits u = mapMembershipToCredits ml /\
  id u = k.
Proof.
  unfold updateUserMembership, bind, now. intro H.
  apply updateUser_inv in H.
  destruct H as [r0 [t [Hf [Hu [Hrows _]]]]].
  rewrite Hrows, (filter_updated k _ t (rows w) r0 Hf).
  subst u. repeat split.
  destruct (filter_single_In _ _ _ Hf) as [_ Hk]. now apply has_id_true.
Qed.

(** The steps behind a login that went through. *)
Lemma authenticate_inv penv remote hmac username password req w user token w' :
  authenticateWithWordPress penv remote hmac username password req w
    = (Returned (user, token), w') ->
  exists wpUser w1 u',
    verifyWordPressCredentials penv remote username password req
      = Returned wpUser /\
    getUserOrCreateFromWordPress penv wpUser w = (Returned user, w1) /\
    active user = true /\
    updateUserMembership (id user) (getMembershipLevel wpUser) w1
      = (Returned u', w').
Proof.
  unfold authenticateWithWordPress, try_catch. intro H.
  match type of H with
  | context [match ?c w with _ => _ end] =>
      destruct (c w) as [[[user0 token0]|e] w0] eqn:E
  end.
  2:{ unfold throw in H. destruct (is_auth_or_bad_request e); discriminate. }
  inversion H; subst. clear H.
  destruct (negb (JS.truthy username) || negb (JS.truthy password));
    [discriminate|].
  unfold bind, await in E.
  destruct (verifyWordPressCredentials penv remote username password req)
    as [wpUser|e]; [|discriminate].
  destruct (getUserOrCreateFromWordPress penv wpUser w) as [[u1|e] w1] eqn:E1;
    [|discriminate].
  destruct (active u1) eqn:Ha; simpl in E; [|discriminate].
  destruct (updateUserMembership (id u1) (getMembershipLevel wpUser) w1)
    as [[u2|e] w2] eqn:E2; [|discriminate].
  unfold now, ret in E. inversion E; subst.
  exists wpUser, w1, u2. now repeat split.
Qed.

(** The reconciliation step leaves the balance of an existing record of
    an identity that is not the dev-mode one as it was. *)
Lemma reconcile_keeps_credits penv wpUser w u w' :
  isDevModeUser penv wpUser = false ->
  getUserOrCreateFromWordPress penv wpUser w = (Returned u, w') ->
  (exists u0, In u0 (rows w) /\ id u0 = id u /\ credits u = credits u0) \/
  rows w' = (rows w ++ [u])%list.
Proof.
  intros Hd H. apply reconcile_inv in H.
  destruct H as [[u0 [Hf [Hn [Eu Hrows]]]]
                |[[u0 [t [Hf [Eu [Hrows Hok]]]]]
                 |[[u0 [t [Hf [Eu [Hrows Hok]]]]]
                  |[i [t [t' [Eu [Hrows Hok]]]]]]]].
  - left. exists u0. destruct (filter_single_In _ _ _ Hf) as [Hin _].
    subst u. now repeat split.
  - left. exists u0. destruct (filter_single_In _ _ _ Hf) as [Hin _].
    subst u. simpl. rewrite Hd. now repeat split.
  - left. exists u0. destruct (filter_single_In _ _ _ Hf) as [Hin _].
    subst u. simpl. rewrite Hd. now repeat split.
  - now right.
Qed.

(** C5, as the code has it: a login that goes through reconciles the
    identity and then writes the membership entitlement without looking
    at what is stored, so the balance stored under the user's id after
    the login is the allotment of the resolved membership level, whatever
    it was before; only the reconciliation step by itself keeps the
    balance of an existing record of an identity that is not the dev-mode
    one. *)
Theorem login_sets_credits_to_allotment
    penv remote hmac username password req wpUser w user token w' :
  verifyWordPressCredentials penv remote username password req
    = Returned wpUser ->
  authenticateWithWordPress penv remote hmac username password req w
    = (Returned (user, token), w') ->
  exists w1 row,
    getUserOrCreateFromWordPress penv wpUser w = (Returned user, w1) /\
    (isDevModeUser penv wpUser = false ->
       (exists u0, In u0 (rows w) /\ id u0 = id user /\
                   credits user = credits u0)
       \/ rows w1 = (rows w ++ [user])%list) /\
    stored w' (id user) = Some row /\
    credits row = mapMembershipToCredits (getMembershipLevel wpUser).
Proof.
  intros Hv H. apply authenticate_inv in H.
  destruct H as [wpUser' [w1 [u' [Hv' [Hrec [_ Hup]]]]]].
  rewrite Hv in Hv'. inversion Hv'; subst wpUser'.
  apply updateUserMembership_inv in Hup. destruct Hup as [Hf [Hc _]].
  exists w1, u'. split; [exact Hrec|]. split.
  - intro Hd. eapply reconcile_keeps_credits; eassumption.
  - split; [|exact Hc]. unfold stored. now rewrite Hf.
Qed.

(** Alice, on the basic plan with 7 of her 10 credits left, logs in. *)
Lemma login_sets_credits_to_allotment_witness :
  exists user token w' w1 row,
    authenticateWithWordPress Sample.production Sample.remote Sample.hmac
      "a@x.com" "pw" None
      (Sample.world [Sample.row "user" 7 (Some "42")] [])
      = (Returned (user, token), w') /\
    getUserOrCreateFromWordPress Sample.production Sample.alice
      (Sample.world [Sample.row "user" 7 (Some "42")] [])
      = (Returned user, w1) /\
    credits user = 7 /\
    stored w' (id user) = Some row /\
    credits row = 10.
Proof.
  destruct (login_sets_credits_to_allotment
              Sample.production Sample.remote Sample.hmac
              "a@x.com" "pw" None Sample.alice
              (Sample.world [Sample.row "user" 7 (Some "42")] [])
              _ _ _ eq_refl eq_refl)
    as [w1 [row [H1 [_ [H3 H4]]]]].
  eexists. eexists. eexists. exists w1, row.
  split; [reflexivity|]. split; [exact H1|]. split; [reflexivity|].
  split; [exact H3 | exact H4].
Defined.

(** The claim of C5 fails: Alice logs in for the first time and gets the
    10 credits of the basic plan, consumes 3 of them, and logs in again
    with her membership unchanged; the second login puts the stored
    balance back to 10. *)
Lemma login_overwrites_consumed_credits :
  let login := authenticateWithWordPress Sample.production Sample.remote
                 Sample.hmac "a@x.com" "pw" None in
  let balance w := option_map credits (stored w "u-1") in
  let w1 := snd (login (Sample.world [] [])) in
  let w2 := snd (consumeCredits "u-1" 3 w1) in
  let w3 := snd (login w2) in
  isDevModeUser Sample.production Sample.alice = false /\
  balance w1 = Some 10 /\
  fst (consumeCredits "u-1" 3 w1) = Returned true /\
  balance w2 = Some 7 /\
  option_map wordpress_membership_id (stored w2 "u-1")
    = Some (Some (wm_id (getMembershipLevel Sample.alice))) /\
  (exists user token, fst (login w2) = Returned (user, token)) /\
  balance w3 = Some 10.
Proof.
  vm_compute. repeat split. eexists. eexists. reflexivity.
Qed.

(* ================================================================== *)
(** * Further properties of the code around the claims *)

(** ** The bearer header *)

Lemma substring_full (s : string) : String.substring 0 (String.length s) s = s.
Proof. induction s as [|c s IH]; simpl; [reflexivity | now rewrite IH]. Qed.

Lemma substring_split (n : nat) (s : string) :
  (String.substring 0 n s
   ++ String.substring n (String.length s - n)%nat s)%string = s.
Proof.
  revert s. induction n as [|n IH]; intro s.
  - rewrite Nat.sub_0_r, substring_full. now destruct s.
  - destruct s as [|c s]; simpl; [reflexivity|]. now rewrite IH.
Qed.

(** X1: [extractTokenFromHeader] gives a token exactly for the headers
    of the form "Bearer " followed by the token, and gives that token
    back; every other header, and a missing one, gives null. *)
Theorem extractTokenFromHeader_bearer (h : option string) (t : string) :
  extractTokenFromHeader h = Some t <-> h = Some ("Bearer " ++ t)%string.
Proof.
  unfold extractTokenFromHeader, JS.startsWith. split.
  - destruct h as [s|]; [|discriminate].
    destruct (JS.truthy s); simpl; [|discriminate].
    destruct (String.prefix "Bearer " s) eqn:E; simpl; [|discriminate].
    intro H. inversion H as [Ht]. f_equal.
    apply String.prefix_correct in E.
    pose proof (substring_split 7 s) as Hs.
    change (String.length "Bearer ") with 7%nat in E. rewrite E in Hs.
    now symmetry.
  - intro H. subst h. simpl. rewrite Nat.sub_0_r, substring_full.
    now destruct t.
Qed.

(** ** The remote exchange *)

Lemma toString_nonempty (z : Z) : toString z <> "".
Proof.
  unfold toString, NilZero.string_of_int, NilZero.string_of_uint.
  destruct (Z.to_int z) as [d|d]; [|discriminate].
  destruct d; simpl; discriminate.
Qed.

(** The text of a truthy id is empty only for a value that is neither a
    number nor a string. *)
Lemma id_toString_empty (i : JsonId) :
  id_truthy i = true -> id_toString i = Some "" -> i = OtherId true (Some "").
Proof.
  destruct i as [n safe|s|b text]; simpl; intros H E.
  - inversion E as [E']. now apply toString_nonempty in E'.
  - inversion E; subst. discriminate H.
  - now subst.
Qed.

Lemma or_null_Some (a : option string) (s : string) :
  JS.or_null a = Some s <-> a = Some s /\ JS.truthy s = true.
Proof.
  unfold JS.or_null. destruct a as [x|].
  - destruct (JS.truthy x) eqn:E; split.
    + intro H. inversion H; subst. now split.
    + intros [H _]. exact H.
    + discriminate.
    + intros [H Ht]. inversion H; subst. congruence.
  - split; [discriminate | intros [H _]; discriminate].
Qed.

(** What a returned identity of the remote exchange comes from. *)
Lemma remote_exchange_returned site username password u :
  verifyWordPressCredentialsWithJWT site username password = Returned u ->
  JS.truthy username = true /\ JS.truthy password = true /\
  exists d token p i idText,
    post_token site username password = Axios.Data (Some d) /\
    td_token d = Some token /\ JS.truthy token = true /\
    get_users_me site token = Axios.Data (Some p) /\
    pr_id p = Some i /\ id_truthy i = true /\
    id_toString i = Some idText /\
    u = profileToUser p idText.
Proof.
  unfold verifyWordPressCredentialsWithJWT.
  destruct (JS.truthy username); simpl; [|discriminate].
  destruct (JS.truthy password); simpl; [|discriminate].
  intro H. split; [reflexivity|]. split; [reflexivity|].
  destruct (post_token site username password) as [[d|]|f] eqn:E1.
  - destruct (JS.or_null (td_token d)) as [token|] eqn:E2.
    + apply or_null_Some in E2. destruct E2 as [E2 Ht].
      destruct (get_users_me site token) as [[p|]|f] eqn:E3.
      * destruct (pr_id p) as [i|] eqn:E4.
        -- destruct (id_truthy i) eqn:E5.
           ++ destruct (id_toString i) as [idText|] eqn:E6; [|discriminate].
              inversion H; subst. exists d, token, p, i, idText.
              now repeat split.
           ++ discriminate.
        -- discriminate.
      * discriminate.
      * destruct f as [st c|]; simpl in H; [|discriminate].
        destruct (status_is st 403 || status_is st 401); [discriminate|].
        destruct (same_opt c "ECONNREFUSED" || same_opt c "ENOTFOUND");
          discriminate.
    + discriminate.
  - discriminate.
  - destruct f as [st c|]; simpl in H; [|discriminate].
    destruct (status_is st 403 || status_is st 401); [discriminate|].
    destruct (same_opt c "ECONNREFUSED" || same_opt c "ENOTFOUND");
      discriminate.
Qed.

(** X2: [verifyWordPressCredentialsWithJWT] returns an identity exactly
    when username and password are non-empty, the token endpoint answers
    with a non-empty token and the profile endpoint answers that token
    with a profile whose id is truthy and has a [toString()] that
    returns; the identity is then the profile with the text of its id as
    id, [name || display_name] as name and the roles converted to an
    array. *)
Theorem remote_exchange_success site username password u :
  verifyWordPressCredentialsWithJWT site username password = Returned u <->
  JS.truthy username = true /\ JS.truthy password = true /\
  exists d token p i idText,
    post_token site username password = Axios.Data (Some d) /\
    td_token d = Some token /\ JS.truthy token = true /\
    get_users_me site token = Axios.Data (Some p) /\
    pr_id p = Some i /\ id_truthy i = true /\
    id_toString i = Some idText /\
    u = profileToUser p idText.
Proof.
  split; [apply remote_exchange_returned|].
  intros [Hu [Hp [d [token [p [i [idText
            [E1 [E2 [Ht [E3 [E4 [E5 [E6 Eu]]]]]]]]]]]]]].
  unfold verifyWordPressCredentialsWithJWT.
  rewrite Hu, Hp, E1. simpl.
  rewrite (proj2 (or_null_Some (td_token d) token) (conj E2 Ht)).
  rewrite E3, E4, E5, E6. now subst u.
Qed.

Lemma remote_exchange_success_witness :
  verifyWordPressCredentialsWithJWT Fixture.site "a@x.com" "correct horse"
  = Returned {| wp_id := "42"; wp_email := "a@x.com"; wp_name := "Alice";
                wp_roles := ["subscriber"; "administrator"];
                wp_avatar_urls := None;
                wp_pmpro_membership := Some Sample.basic_plan |}.
Proof.
  apply (proj2 (remote_exchange_success Fixture.site "a@x.com" "correct horse" _)).
  split; [reflexivity|]. split; [reflexivity|].
  exists {| td_token := Some "wp-token" |}, "wp-token", Fixture.profile,
         (NumberId 42 eq_refl), "42".
  repeat split.
Defined.

Lemma extractTokenFromHeader_bearer_witness :
  extractTokenFromHeader (Some "Bearer abc.def.ghi") = Some "abc.def.ghi".
Proof.
  apply (proj2 (extractTokenFromHeader_bearer
                  (Some "Bearer abc.def.ghi") "abc.def.ghi")).
  reflexivity.
Defined.

(** X3: when [verifyWordPressCredentialsWithJWT] fails on a non-empty
    username and password, what it throws is an [UnauthorizedError] with
    one of three messages.  "Invalid credentials" is only given for a
    request rejected with status 401 or 403: when the token endpoint
    answers without a token, the "Invalid credentials" error raised
    inside the [try] block is caught by the function's own [catch] and
    the caller gets the general message. *)
Theorem remote_exchange_failure site username password e :
  JS.truthy username = true -> JS.truthy password = true ->
  verifyWordPressCredentialsWithJWT site username password = Thrown e ->
  (e = UnauthorizedError "Invalid credentials" \/
   e = UnauthorizedError
         "Could not connect to WordPress site. Please check the WORDPRESS_URL configuration." \/
   e = UnauthorizedError
         "Authentication failed. Please check server logs for details.") /\
  (forall tokenData,
     post_token site username password = Axios.Data tokenData ->
     match tokenData with
     | Some d => JS.or_null (td_token d)
     | None => None
     end = None ->
     e = UnauthorizedError
           "Authentication failed. Please check server logs for details.").
Proof.
  intros Hu Hp. unfold verifyWordPressCredentialsWithJWT.
  rewrite Hu, Hp. simpl. intro H. split.
  - match type of H with
    | match ?a with _ => _ end = _ => destruct a as [[st c| |]|u]
    end; try discriminate.
    + destruct (status_is st 403 || status_is st 401).
      { inversion H. now left. }
      destruct (same_opt c "ECONNREFUSED" || same_opt c "ENOTFOUND");
        inversion H; tauto.
    + inversion H. tauto.
    + inversion H. tauto.
  - intros tokenData E1 E2. rewrite E1, E2 in H. now inversion H.
Qed.

Lemma remote_exchange_failure_witness :
  verifyWordPressCredentialsWithJWT Fixture.tokenless "a@x.com" "pw"
  = Thrown (UnauthorizedError
      "Authentication failed. Please check server logs for details.").
Proof.
  destruct (verifyWordPressCredentialsWithJWT Fixture.tokenless "a@x.com" "pw")
    as [u|e] eqn:E; [discriminate E|].
  f_equal.
  exact (proj2 (remote_exchange_failure Fixture.tokenless "a@x.com" "pw" e
                  eq_refl eq_refl E)
               (Some {| td_token := None |}) eq_refl eq_refl).
Defined.

(** ** The verifier as a whole *)



(** The address test of the dev-mode path. *)
Lemma local_address_cases (ip : string) :
  ((ip =? "127.0.0.1")%string || (ip =? "::1")%string
   || (JS.startsWith ip "10." || JS.startsWith ip "172.16."
       || JS.startsWith ip "192.168.")) = true <->
  ip = "127.0.0.1" \/ ip = "::1" \/
  JS.startsWith ip "10." = true \/ JS.startsWith ip "172.16." = true \/
  JS.startsWith ip "192.168." = true.
Proof.
  rewrite !orb_true_iff, !String.eqb_eq. tauto.
Qed.

(** X5: the dev-mode path returns an identity exactly when the mode is
    development, the configured password has a [length] of at least 12
    (in UTF-16 code units, as JavaScript counts), the
    username and password are the configured pair, and the request
    address, if the request has one, is the loopback address or starts
    with "10.", "172.16." or "192.168."; a request without an address
    is let through.  The identity is then the configured dev identity. *)
Theorem devMode_success penv username password req u :
  verifyWordPressCredentialsDevMode penv username password req = Returned u <->
  IS_DEVELOPMENT penv = true /\
  (12 <= JS.length (DEV_MODE_PASSWORD penv))%nat /\
  username = DEV_MODE_EMAIL penv /\ password = DEV_MODE_PASSWORD penv /\
  (forall ip, request_ip req = Some ip ->
     ip = "127.0.0.1" \/ ip = "::1" \/
     JS.startsWith ip "10." = true \/ JS.startsWith ip "172.16." = true \/
     JS.startsWith ip "192.168." = true) /\
  u = devModeUser penv.
Proof.
  unfold verifyWordPressCredentialsDevMode.
  rewrite DEV_MODE_EMAIL_truthy, DEV_MODE_PASSWORD_truthy. simpl.
  split.
  - destruct (negb (JS.truthy username) || negb (JS.truthy password));
      [discriminate|].
    destruct (IS_DEVELOPMENT penv); simpl; [|discriminate].
    destruct (Z.ltb_spec (Z.of_nat (JS.length (DEV_MODE_PASSWORD penv))) 12)
      as [Hlen|Hlen]; [discriminate|].
    destruct (request_ip req) as [ip|] eqn:Hip.
    + match goal with
      | |- context [negb ?b] => destruct b eqn:Hloc
      end; simpl; [|discriminate].
      destruct (String.eqb_spec username (DEV_MODE_EMAIL penv));
        simpl; [|discriminate].
      destruct (String.eqb_spec password (DEV_MODE_PASSWORD penv));
        simpl; [|discriminate].
      intro H. inversion H. repeat split; try assumption; try lia.
      intros ip' Hip'. inversion Hip'; subst ip'.
      now apply local_address_cases.
    + simpl.
      destruct (String.eqb_spec username (DEV_MODE_EMAIL penv));
        simpl; [|discriminate].
      destruct (String.eqb_spec password (DEV_MODE_PASSWORD penv));
        simpl; [|discriminate].
      intro H. inversion H. repeat split; try assumption; try lia.
      intros ip' Hip'. discriminate Hip'.
  - intros [Hd [Hlen [Hu [Hp [Hip Eu]]]]]. subst username password u.
    rewrite DEV_MODE_EMAIL_truthy, DEV_MODE_PASSWORD_truthy, Hd. simpl.
    destruct (Z.ltb_spec (Z.of_nat (JS.length (DEV_MODE_PASSWORD penv))) 12)
      as [Hl|Hl]; [lia|].
    rewrite !String.eqb_refl. simpl.
    destruct (request_ip req) as [ip|]; [|reflexivity].
    rewrite (proj2 (local_address_cases ip) (Hip ip eq_refl)). reflexivity.
Qed.

Lemma devMode_success_witness :
  verifyWordPressCredentialsDevMode Sample.development
    "dev@example.com" "devpassword-long" None
  = Returned (devModeUser Sample.development)
  /\
  verifyWordPressCredentialsDevMode Sample.development
    "dev@example.com" "devpassword-long" (Some {| req_ip := Some "192.168.1.20" |})
  = Returned (devModeUser Sample.development).
Proof.
  split.
  - apply (proj2 (devMode_success Sample.development _ _ None _)).
    repeat split; try reflexivity.
    + simpl. lia.
    + intros ip H. discriminate H.
  - apply (proj2 (devMode_success Sample.development _ _
                    (Some {| req_ip := Some "192.168.1.20" |}) _)).
    repeat split; try reflexivity.
    + simpl. lia.
    + intros ip H. inversion H. right. right. right. right. reflexivity.
Defined.

(** The only identity the dev-mode path hands out. *)
Lemma devMode_returned penv username password req u :
  verifyWordPressCredentialsDevMode penv username password req = Returned u ->
  u = devModeUser penv.
Proof.
  unfold verifyWordPressCredentialsDevMode.
  repeat match goal with
         | |- context [if ?c then _ else _] => destruct c
         end; intro H; now inversion H.
Qed.

Lemma DEV_MODE_USER_ID_truthy penv : JS.truthy (DEV_MODE_USER_ID penv) = true.
Proof. apply or_else_truthy. reflexivity. Qed.

(** X6: the id of an identity [verifyWordPressCredentials] returns is
    empty in one case only: the remote exchange was answered with a
    profile whose id is neither a number nor a string but a truthy value
    whose [toString()] is the empty string, as an empty array is.  The
    dev-mode identity, and every identity whose profile has a number or a
    string as id, has a non-empty id. *)
Theorem verified_identity_has_id penv site username password req u :
  verifyWordPressCredentials penv (verifyWordPressCredentialsWithJWT site)
    username password req = Returned u ->
  wp_id u <> "" \/
  (wp_id u = "" /\
   exists d token p,
     post_token site username password = Axios.Data (Some d) /\
     td_token d = Some token /\
     get_users_me site token = Axios.Data (Some p) /\
     pr_id p = Some (OtherId true (Some ""))).
Proof.
  unfold verifyWordPressCredentials.
  destruct (negb (JS.truthy username) || negb (JS.truthy password));
    [discriminate|].
  destruct (verifyWordPressCredentialsWithJWT site username password)
    as [u0|e0] eqn:E.
  - intro H. inversion H; subst u0.
    apply remote_exchange_returned in E.
    destruct E as [_ [_ [d [token [p [i [idText
                   [E1 [E2 [_ [E3 [E4 [Hi [Ht Eu]]]]]]]]]]]]]].
    subst u. simpl.
    destruct (String.eqb_spec idText "") as [Hempty|Hfull]; [|now left].
    right. split; [exact Hempty|]. subst idText.
    exists d, token, p. repeat split; try assumption.
    rewrite E4. f_equal. now apply id_toString_empty.
  - destruct (IS_DEVELOPMENT penv); [|discriminate].
    destruct (verifyWordPressCredentialsDevMode penv username password req)
      as [u1|e1] eqn:E1; [|discriminate].
    intro H. inversion H; subst u1.
    apply devMode_returned in E1. subst u. simpl. left.
    apply truthy_nonempty. apply DEV_MODE_USER_ID_truthy.
Qed.

(** A profile with the id 42, and one with an empty array as id. *)
Lemma verified_identity_has_id_witness :
  (exists u,
     verifyWordPressCredentials Sample.production
       (verifyWordPressCredentialsWithJWT Fixture.site)
       "a@x.com" "correct horse" None = Returned u /\
     wp_id u <> "") /\
  (exists u,
     verifyWordPressCredentials Sample.production
       (verifyWordPressCredentialsWithJWT Fixture.arrayId)
       "a@x.com" "correct horse" None = Returned u /\
     wp_id u = "").
Proof.
  split.
  - eexists. split; [reflexivity|].
    destruct (verified_identity_has_id Sample.production Fixture.site
                "a@x.com" "correct horse" None _ eq_refl) as [H|[H _]].
    + exact H.
    + discriminate H.
  - eexists. split; [reflexivity|].
    destruct (verified_identity_has_id Sample.production Fixture.arrayId
                "a@x.com" "correct horse" None _ eq_refl) as [H|[H _]].
    + exfalso. now apply H.
    + exact H.
Defined.

(** ** The ledger under any storage behaviour *)

Lemma stored_rows w1 w2 k : rows w1 = rows w2 -> stored w1 k = stored w2 k.
Proof. unfold stored. now intros ->. Qed.

Lemma getUserById_clock k w u w' :
  getUserById k w = (Returned u, w') -> clock w' = clock w.
Proof.
  unfold getUserById. intro H.
  destruct (select_single (has_id k) w) as [[d|] w0] eqn:E; [|discriminate].
  inversion H; subst. apply round_trip_inv in E.
  destruct E as [[Hd _]|[rs [_ Hw]]]; [discriminate | now subst].
Qed.

Lemma others_untouched k p t (rs : list User) :
  filter (fun r => negb (has_id k r)) (map (on_row k (apply_patch p t)) rs)
  = filter (fun r => negb (has_id k r)) rs.
Proof.
  induction rs as [|r rs IH]; simpl; [reflexivity|].
  unfold on_row at 1 2. destruct (has_id k r) eqn:E; simpl.
  - unfold has_id in *. simpl. rewrite E. simpl. exact IH.
  - rewrite E. simpl. now rewrite IH.
Qed.

(** The two ways [consumeCredits] comes back, whatever the storage does. *)
Lemma consumeCredits_cases userId amount w r w' :
  consumeCredits userId amount w = (r, w') ->
  (r = Returned false /\ rows w' = rows w) \/
  (r = Returned true /\
   exists u t,
     stored w userId = Some u /\ amount <= credits u /\
     rows w' = map (on_row userId
                      (apply_patch
                         (creditValues (Number.sub (credits u) amount)) t))
                   (rows w) /\
     stored w' userId
       = Some (apply_patch
                 (creditValues (Number.sub (credits u) amount)) t u)).
Proof.
  unfold consumeCredits, try_catch, bind, ret. intro H.
  destruct (getUserById userId w) as [[user|e] w0] eqn:E0.
  - apply getUserById_inv in E0. destruct E0 as [Hf Hr0].
    destruct (Z.ltb_spec (credits user) amount) as [Hlt|Hge].
    + inversion H; subst. now left.
    + destruct (updateUser userId
                  (creditValues (Number.sub (credits user) amount)) w0)
        as [[u1|e1] w1] eqn:E1.
      * inversion H; subst. right. split; [reflexivity|].
        apply updateUser_inv in E1.
        destruct E1 as [r1 [t [Hf1 [Hu1 [Hrows _]]]]].
        rewrite Hr0 in Hf1, Hrows.
        assert (r1 = user) by congruence. subst r1.
        exists user, t. repeat split.
        -- unfold stored. now rewrite Hf.
        -- exact Hge.
        -- exact Hrows.
        -- unfold stored. rewrite Hrows.
           now rewrite (filter_updated userId _ t (rows w) user Hf).
      * inversion H; subst. left. split; [reflexivity|].
        apply updateUser_thrown_rows in E1. destruct E1 as [E1 _]. congruence.
  - inversion H; subst. left. split; [reflexivity|].
    eapply getUserById_thrown. eassumption.
Qed.

(** X8: messages sent one after the other never overdraw.  Whatever the
    storage does, after [n] calls of [consumeCredits(userId, 1)] on a
    balance B >= 0 of which [k] returned true, the stored balance is not
    negative, and for every B up to 2^53 it is B - k; so at most B calls
    return true. *)
Theorem repeated_consumption_never_overdraws n userId :
  forall w u k w',
    stored w userId = Some u -> 0 <= credits u ->
    consumeRepeatedly n userId w = (k, w') ->
    exists u',
      stored w' userId = Some u' /\
      (credits u <= 2 ^ 53 -> credits u' = credits u - Z.of_nat k) /\
      0 <= credits u' /\ (k <= n)%nat.
Proof.
  induction n as [|n IH]; intros w u k w' Hs HB H; simpl in H.
  - inversion H; subst. exists u. repeat split; try assumption; simpl; lia.
  - destruct (consumeCredits userId 1 w) as [r w1] eqn:E.
    destruct (consumeCredits_cases _ _ _ _ _ E)
      as [[Hr Hrows]|[Hr [u0 [t [Hs0 [Hle [Hrows Hs1]]]]]]]; subst r.
    + rewrite <- (stored_rows w1 w userId Hrows) in Hs.
      destruct (IH w1 u k w' Hs HB H) as [u' [H1 [H2 [H3 H4]]]].
      exists u'. repeat split; try assumption. lia.
    + rewrite Hs in Hs0. inversion Hs0; subst u0.
      destruct (consumeRepeatedly n userId w1) as [c w2] eqn:E2.
      inversion H; subst.
      assert (HB1 : 0 <= credits (apply_patch
                                    (creditValues (Number.sub (credits u) 1))
                                    t u))
        by (simpl; now apply sub_nonneg).
      destruct (IH w1 _ c w' Hs1 HB1 E2) as [u' [H1 [H2 [H3 H4]]]].
      exists u'. repeat split; try assumption.
      * intro Hmax. simpl in H2. rewrite sub_exact in H2 by lia.
        rewrite H2 by lia. lia.
      * lia.
Qed.

Lemma repeated_consumption_never_overdraws_witness :
  let w := Sample.world [Sample.row "user" 2 (Some "42")]
             [false; false; true; false; false; false] in
  exists u',
    stored (snd (consumeRepeatedly 5 "u-1" w)) "u-1" = Some u' /\
    credits u' = 2 - Z.of_nat (fst (consumeRepeatedly 5 "u-1" w)) /\
    0 <= credits u' /\ (fst (consumeRepeatedly 5 "u-1" w) <= 5)%nat.
Proof.
  cbv zeta.
  destruct (repeated_consumption_never_overdraws 5 "u-1"
              (Sample.world [Sample.row "user" 2 (Some "42")]
                 [false; false; true; false; false; false])
              (Sample.row "user" 2 (Some "42"))
              (fst (consumeRepeatedly 5 "u-1"
                      (Sample.world [Sample.row "user" 2 (Some "42")]
                         [false; false; true; false; false; false])))
              (snd (consumeRepeatedly 5 "u-1"
                      (Sample.world [Sample.row "user" 2 (Some "42")]
                         [false; false; true; false; false; false])))
              eq_refl ltac:(simpl; lia) (surjective_pairing _))
    as [u' [H1 [H2 [H3 H4]]]].
  exists u'. repeat split; try assumption.
  apply H2. simpl. lia.
Defined.

(** X9: with the storage answering and the table within its constraints,
    [n] calls of [consumeCredits(userId, 1)] on a balance B >= 0 that does
    not exceed 2^53 return true exactly min(n, B) times and leave the
    balance B - min(n, B). *)
Theorem repeated_consumption_count n userId :
  forall w u,
    faults w = [] -> table_ok (rows w) = true ->
    stored w userId = Some u -> 0 <= credits u -> credits u <= 2 ^ 53 ->
    exists w' u',
      consumeRepeatedly n userId w
        = (Nat.min n (Z.to_nat (credits u)), w') /\
      stored w' userId = Some u' /\
      credits u' = credits u - Z.of_nat (Nat.min n (Z.to_nat (credits u))).
Proof.
  induction n as [|n IH]; intros w u Hh Hok Hs HB Hmax.
  - exists w, u. simpl. repeat split; [exact Hs | lia].
  - simpl consumeRepeatedly.
    rewrite (consumeCredits_healthy w userId 1 u Hh Hok Hs).
    destruct (Z.ltb_spec (credits u) 1) as [Hlt|Hge].
    + destruct (IH w u Hh Hok Hs HB Hmax) as [w' [u' [E [Hs' Hc]]]].
      assert (Hz : Z.to_nat (credits u) = 0%nat) by lia.
      rewrite Hz, Nat.min_0_r in *.
      exists w', u'. now repeat split.
    + rewrite sub_exact by lia.
      set (w1 := with_rows _ w).
      assert (Hh1 : faults w1 = []) by (subst w1; exact Hh).
      assert (Hok1 : table_ok (rows w1) = true).
      { subst w1. simpl. rewrite table_ok_on_row; auto. }
      pose proof (stored_after_update w userId (creditValues (credits u - 1))
                    (clock w) u Hs) as Hs1.
      fold w1 in Hs1.
      assert (HB1 : 0 <= credits (apply_patch (creditValues (credits u - 1))
                                    (clock w) u)) by (simpl; lia).
      assert (Hmax1 : credits (apply_patch (creditValues (credits u - 1))
                                 (clock w) u) <= 2 ^ 53) by (simpl; lia).
      destruct (IH w1 _ Hh1 Hok1 Hs1 HB1 Hmax1) as [w' [u' [E [Hs' Hc]]]].
      simpl credits in E, Hc.
      rewrite E. exists w', u'.
      assert (Hm : S (Nat.min n (Z.to_nat (credits u - 1)))
                   = Nat.min (S n) (Z.to_nat (credits u))).
      { replace (Z.to_nat (credits u)) with (S (Z.to_nat (credits u - 1)))
          by lia. reflexivity. }
      rewrite <- Hm. repeat split; [exact Hs'|]. rewrite Hc. lia.
Qed.

Lemma repeated_consumption_count_witness :
  exists w' u',
    consumeRepeatedly 5 "u-1"
      (Sample.world [Sample.row "user" 3 (Some "42")] []) = (3%nat, w') /\
    stored w' "u-1" = Some u' /\ credits u' = 0.
Proof.
  destruct (repeated_consumption_count 5 "u-1"
              (Sample.world [Sample.row "user" 3 (Some "42")] [])
              (Sample.row "user" 3 (Some "42"))
              eq_refl eq_refl eq_refl) as [w' [u' [E [Hs Hc]]]].
  - simpl. lia.
  - simpl. lia.
  - exists w', u'. repeat split; assumption.
Defined.



(** ** Writes of the user service *)


(** X10: [updateUser] writes all or nothing, and only one record.  When
    it throws (a [NotFoundError] when the record cannot be read, an
    [InternalServerError] when the write fails) the table is as it was.
    When it returns, the record under the id is the old one with the
    given values and [updated_at] set to the clock, its [id] and
    [created_at] as before, and every other row is unchanged. *)
Theorem updateUser_effect k p w r w' :
  updateUser k p w = (r, w') ->
  match r with
  | Thrown e =>
      rows w' = rows w /\
      (e = NotFoundError ("User with ID " ++ k ++ " not found") \/
       e = InternalServerError "Failed to update user")
  | Returned u =>
      exists r0,
        stored w k = Some r0 /\
        u = apply_patch p (clock w) r0 /\
        id u = id r0 /\ created_at u = created_at r0 /\
        updated_at u = clock w /\
        stored w' k = Some u /\
        filter (fun x => negb (has_id k x)) (rows w')
          = filter (fun x => negb (has_id k x)) (rows w)
  end.
Proof.
  intro H. destruct r as [u|e].
  - unfold updateUser, bind, now in H.
    destruct (getUserById k w) as [[r0|e0] w0] eqn:E0; [|discriminate].
    pose proof (getUserById_clock _ _ _ _ E0) as Hc.
    apply getUserById_inv in E0. destruct E0 as [Hf Hr0].
    destruct (update_single k (apply_patch p (clock w0)) w0)
      as [[d|] w1] eqn:E1; [|discriminate].
    inversion H; subst. apply update_single_inv in E1.
    destruct E1 as [Hrows [_ Hu]]. rewrite Hr0, Hc in Hrows.
    rewrite Hrows, (filter_updated k p (clock w) (rows w) r0 Hf) in Hu.
    inversion Hu; subst u. exists r0. unfold stored.
    rewrite Hf, Hrows, (filter_updated k p (clock w) (rows w) r0 Hf).
    repeat split. apply others_untouched.
  - exact (updateUser_thrown_rows k p w e w' H).
Qed.

Lemma updateUser_effect_witness :
  let w := Sample.world [Sample.row "user" 5 (Some "42")] [] in
  (exists u,
     fst (updateUser "u-1" (creditValues 9) w) = Returned u /\
     credits u = 9 /\ created_at u = 1700000000000 /\
     updated_at u = 1700000600000) /\
  fst (updateUser "nobody" (creditValues 9) w)
    = Thrown (NotFoundError "User with ID nobody not found") /\
  rows (snd (updateUser "nobody" (creditValues 9) w)) = rows w.
Proof.
  cbv zeta. split; [|split].
  - pose proof (updateUser_effect "u-1" (creditValues 9)
                  (Sample.world [Sample.row "user" 5 (Some "42")] [])
                  _ _ eq_refl) as H.
    simpl in H. destruct H as [r0 [Hs [Hu [_ [Hc [Ht _]]]]]].
    eexists. split; [reflexivity|]. split; [reflexivity|].
    split; reflexivity.
  - reflexivity.
  - pose proof (updateUser_effect "nobody" (creditValues 9)
                  (Sample.world [Sample.row "user" 5 (Some "42")] [])
                  _ _ eq_refl) as H.
    simpl in H. exact (proj1 H).
Defined.

Lemma uuidv4_rows w i w' : uuidv4 w = (Returned i, w') -> rows w' = rows w.
Proof. unfold uuidv4. intro H. inversion H. reflexivity. Qed.

(** X11: [createUser] adds one row or none.  When it throws (a
    [ConflictError] when the email is found in the table, an
    [InternalServerError] when the insert fails) the table is as it was;
    when it returns, the table is the old one followed by the returned
    row, which carries the given email and name and the defaults of the
    function for what was left out: role user, active, 0 credits,
    subscription free. *)
Theorem createUser_effect nu w r w' :
  createUser nu w = (r, w') ->
  match r with
  | Thrown e =>
      rows w' = rows w /\
      (e = ConflictError ("User with email " ++ nu_email nu ++ " already exists")
       \/ e = InternalServerError "Failed to create user")
  | Returned u =>
      rows w' = (rows w ++ [u])%list /\
      email u = nu_email nu /\ name u = nu_name nu /\
      (nu_role nu = None -> role u = "user") /\
      (nu_active nu = None -> active u = true) /\
      (nu_credits nu = None -> credits u = 0) /\
      (nu_subscription nu = None -> subscription u = "free")
  end.
Proof.
  intro H. destruct r as [u|e].
  - apply createUser_inv in H. destruct H as [i [t [Hu [Hrows _]]]].
    split; [exact Hrows|]. subst u. simpl.
    repeat split; intro Hn; now rewrite Hn.
  - unfold createUser, bind, uuidv4, now, throw in H.
    destruct (getUserByEmail (nu_email nu) w) as [[o|e0] w0] eqn:E0.
    + apply getUserByEmail_inv in E0. destruct E0 as [Hr0 _].
      destruct o as [existing|].
      * inversion H; subst. split; [exact Hr0 | now left].
      * simpl in H.
        match type of H with
        | context [insert_single ?row ?wx] =>
            destruct (insert_single row wx) as [[d|] w1] eqn:E1;
              [discriminate|]
        end.
        inversion H; subst. split; [|now right].
        apply round_trip_inv in E1.
        destruct E1 as [[_ Hw]|[rs [Hq Hw]]]; subst; simpl; [exact Hr0|].
        simpl in Hq.
        match type of Hq with
        | (if ?c then _ else _) = _ => destruct c
        end; inversion Hq; subst; exact Hr0.
    + apply getUserByEmail_inv in E0. destruct E0 as [_ [o [Ho _]]].
      discriminate Ho.
Qed.

Lemma createUser_effect_witness :
  let nu := {| nu_email := "a@x.com"; nu_name := "Alice again";
               nu_wordpress_id := None; nu_picture := None; nu_role := None;
               nu_active := None; nu_credits := None; nu_subscription := None;
               nu_wordpress_membership_id := None;
               nu_wordpress_membership_name := None;
               nu_wordpress_membership_updated := None |} in
  let w := Sample.world [Sample.row "user" 5 (Some "42")] [] in
  fst (createUser nu w)
    = Thrown (ConflictError "User with email a@x.com already exists") /\
  rows (snd (createUser nu w)) = rows w.
Proof.
  cbv zeta. split; [reflexivity|].
  match goal with
  | |- rows (snd (createUser ?nu ?w)) = _ =>
      pose proof (createUser_effect nu w _ _ eq_refl) as H
  end.
  simpl in H. exact (proj1 H).
Defined.

(** ** A first login *)

Lemma NoDup_snoc {A} (l : list A) (x : A) :
  NoDup l -> ~ In x l -> NoDup (l ++ [x]).
Proof.
  induction l as [|a l IH]; intros Hnd Hx; simpl.
  - constructor; [intros [] | constructor].
  - inversion Hnd as [|? ? Ha Hl]; subst. constructor.
    + intro Hin. apply in_app_or in Hin. destruct Hin as [Hin|[E|[]]].
      * contradiction.
      * subst. apply Hx. now left.
    + apply IH; [exact Hl|]. intro Hin. apply Hx. now right.
Qed.

Lemma table_ok_snoc (rs : list User) (u : User) :
  table_ok rs = true ->
  ~ In (id u) (map id rs) ->
  ~ In (email u) (map email rs) ->
  (forall x, wordpress_id u = Some x -> ~ In x (linked_ids rs)) ->
  table_ok (rs ++ [u]) = true.
Proof.
  intros Hok Hi He Hw. apply table_ok_inv in Hok.
  destruct Hok as [Hids [Hmails Hnd]]. apply table_ok_intro.
  - rewrite map_app. now apply NoDup_snoc.
  - rewrite map_app. now apply NoDup_snoc.
  - unfold linked_ids. rewrite flat_map_app. simpl.
    destruct (wordpress_id u) as [x|]; simpl.
    + apply NoDup_snoc; [exact Hnd | now apply Hw].
    + now rewrite app_nil_r.
Qed.

Lemma absent_email_filter (rs : list User) (m : string) :
  ~ In m (map email rs) -> filter (has_email m) rs = [].
Proof.
  intro H. apply filter_none. intros r Hr.
  destruct (has_email m r) eqn:E; [|reflexivity].
  apply has_email_true in E. exfalso. apply H. rewrite <- E. now apply in_map.
Qed.

Lemma resolved_name (wpUser : WordPressUser) :
  (wm_id (getMembershipLevel wpUser), wm_name (getMembershipLevel wpUser))
    = (2, "complete") \/
  (wm_id (getMembershipLevel wpUser), wm_name (getMembershipLevel wpUser))
    = (1, "basic") \/
  (wm_id (getMembershipLevel wpUser), wm_name (getMembershipLevel wpUser))
    = (0, "free").
Proof.
  unfold getMembershipLevel.
  destruct (wp_pmpro_membership wpUser) as [m|]; [|now right; right].
  destruct (JS.num_is (JS.parseInt (pm_level m)) MEMBERSHIP_LEVELS.COMPLETE);
    [now left|].
  destruct (JS.num_is (JS.parseInt (pm_level m)) MEMBERSHIP_LEVELS.BASIC);
    [now right; left | now right; right].
Qed.

(** X12: an identity never seen before gets exactly one record.  With
    the storage answering, a table within its constraints that holds
    neither the identity's email nor its id, and a fresh uuid,
    [getUserOrCreateFromWordPress] returns a record and the table is the
    old one followed by that record; the record is active, has the uuid
    as id, the identity's email and name, the role assigned from the
    identity and, for an identity that is not the dev-mode one, the
    credits and the name of its resolved membership level. *)
Theorem first_login_creates_record penv wpUser w :
  faults w = [] -> table_ok (rows w) = true ->
  ~ In (wp_email wpUser) (map email (rows w)) ->
  ~ In (wp_id wpUser) (linked_ids (rows w)) ->
  ~ In (uuid w (drawn w)) (map id (rows w)) ->
  exists u w',
    getUserOrCreateFromWordPress penv wpUser w = (Returned u, w') /\
    rows w' = (rows w ++ [u])%list /\
    id u = uuid w (drawn w) /\
    email u = wp_email wpUser /\ name u = wp_name wpUser /\
    role u = assignedRole penv wpUser /\ active u = true /\
    wordpress_id u = JS.or_null (Some (wp_id wpUser)) /\
    (isDevModeUser penv wpUser = false ->
       credits u = mapMembershipToCredits (getMembershipLevel wpUser) /\
       subscription u = wm_name (getMembershipLevel wpUser)).
Proof.
  intros Hh Hok Hmail Hwp Hid.
  unfold getUserOrCreateFromWordPress, bind.
  rewrite (getUserByWordPressId_healthy _ _ Hh), (unlinked_filter _ _ Hwp).
  change (single []) with (@None User). cbv beta iota.
  rewrite (getUserByEmail_healthy _ _ Hh), (absent_email_filter _ _ Hmail).
  change (single []) with (@None User). cbv beta iota.
  unfold now at 1. cbv beta iota.
  unfold createUser, bind.
  assert (Hmail' : nu_email (firstLogin penv wpUser (clock w)) = wp_email wpUser).
  { unfold firstLogin.
    destruct (initialEntitlement penv wpUser (Returned (getMembershipLevel wpUser)))
      as [[[c sub] mid] mname]. reflexivity. }
  rewrite Hmail', (getUserByEmail_healthy _ _ Hh),
    (absent_email_filter _ _ Hmail).
  change (single []) with (@None User). cbv beta iota.
  unfold uuidv4, now. cbv beta iota.
  unfold insert_single. rewrite round_trip_healthy by exact Hh.
  simpl rows. simpl clock.
  pose proof (firstLogin_row penv wpUser (clock w) (uuid w (drawn w)) (clock w))
    as Hrow. cbv zeta in Hrow.
  destruct Hrow as [Hn [He [Hr [Hw _]]]].
  set (u := new_row (firstLogin penv wpUser (clock w)) (uuid w (drawn w)) (clock w))
    in *.
  assert (Hok' : table_ok (rows w ++ [u]) = true).
  { apply table_ok_snoc.
    - exact Hok.
    - exact Hid.
    - rewrite He. exact Hmail.
    - intros x Hx. rewrite Hw in Hx.
      apply or_null_Some in Hx. destruct Hx as [Hx _]. inversion Hx; now subst. }
  rewrite Hok'. simpl fst. simpl snd. cbv beta iota.
  eexists. eexists. split; [reflexivity|].
  repeat split; try assumption.
  - subst u. unfold firstLogin, initialEntitlement. rewrite H. reflexivity.
  - subst u. unfold firstLogin, initialEntitlement. rewrite H. simpl.
    destruct (resolved_name wpUser) as [E|[E|E]]; inversion E as [[E1 E2]];
      rewrite E1, E2; reflexivity.
Qed.

(** The happy path of a new user without membership and without roles. *)
Lemma first_login_creates_record_witness :
  let newcomer := {| wp_id := "77"; wp_email := "b@x.com"; wp_name := "Bob";
                     wp_roles := []; wp_avatar_urls := None;
                     wp_pmpro_membership := None |} in
  exists u w',
    getUserOrCreateFromWordPress Sample.production newcomer
      (Fixture.world [Sample.row "user" 5 (Some "42")] 1) = (Returned u, w') /\
    List.length (rows w') = 2%nat /\
    role u = "user" /\ credits u = 5 /\ subscription u = "free" /\
    active u = true.
Proof.
  cbv zeta.
  destruct (first_login_creates_record Sample.production
              {| wp_id := "77"; wp_email := "b@x.com"; wp_name := "Bob";
                 wp_roles := []; wp_avatar_urls := None;
                 wp_pmpro_membership := None |}
              (Fixture.world [Sample.row "user" 5 (Some "42")] 1)
              eq_refl eq_refl)
    as [u [w' [E [Hrows [_ [_ [_ [Hr [Ha [_ Hc]]]]]]]]]].
  - vm_compute. intros [H|[]]. discriminate H.
  - vm_compute. intros [H|[]]. discriminate H.
  - vm_compute. intros [H|[]]. discriminate H.
  - destruct (Hc eq_refl) as [Hc1 Hc2].
    exists u, w'. split; [exact E|]. split.
    + rewrite Hrows, length_app. reflexivity.
    + repeat split; assumption.
Defined.

(** ** Sessions *)

(** X13: [validateSession] returns a record only if it is the one stored
    under the id and is active; every failure, a missing user, an
    inactive account or a storage error alike, reaches the caller as the
    same [UnauthorizedError] "Invalid session"; the table is never
    changed.  With the storage answering, an active stored record is
    returned. *)
Theorem validateSession_outcomes userId w :
  (forall r w',
     validateSession userId w = (r, w') ->
     rows w' = rows w /\
     match r with
     | Returned u => stored w userId = Some u /\ active u = true
     | Thrown e => e = UnauthorizedError "Invalid session"
     end) /\
  (forall u,
     faults w = [] -> stored w userId = Some u -> active u = true ->
     validateSession userId w = (Returned u, w)).
Proof.
  unfold validateSession, try_catch, bind, throw, ret. split.
  - intros r w' H.
    destruct (getUserById userId w) as [[user|e] w0] eqn:E0.
    + apply getUserById_inv in E0. destruct E0 as [Hf Hr0].
      destruct (active user) eqn:Ha; simpl in H; inversion H; subst.
      * split; [exact Hr0|]. split; [|exact Ha]. unfold stored. now rewrite Hf.
      * now split.
    + apply getUserById_thrown in E0. inversion H; subst. now split.
  - intros u Hh Hs Ha.
    rewrite (getUserById_healthy userId w u Hh Hs), Ha. reflexivity.
Qed.

Lemma validateSession_outcomes_witness :
  validateSession "u-1" (Sample.world [Sample.row "user" 5 (Some "42")] [])
  = (Returned (Sample.row "user" 5 (Some "42")),
     Sample.world [Sample.row "user" 5 (Some "42")] []).
Proof.
  apply (proj2 (validateSession_outcomes "u-1"
                  (Sample.world [Sample.row "user" 5 (Some "42")] [])));
    reflexivity.
Defined.

(** ** Login *)

Lemma round_trip_clock q w d w' :
  round_trip q w = (d, w') -> clock w' = clock w.
Proof.
  intro H. apply round_trip_inv in H.
  destruct H as [[_ Hw]|[rs [_ Hw]]]; now subst.
Qed.

Lemma getUserById_clock_any k w r w' :
  getUserById k w = (r, w') -> clock w' = clock w.
Proof.
  unfold getUserById. intro H.
  destruct (select_single (has_id k) w) as [[d|] w0] eqn:E;
    inversion H; subst; eapply round_trip_clock; exact E.
Qed.

Lemma getUserByEmail_clock m w r w' :
  getUserByEmail m w = (r, w') -> clock w' = clock w.
Proof.
  unfold getUserByEmail. intro H.
  destruct (select_single (has_email m) w) as [[d|] w0] eqn:E;
    inversion H; subst; eapply round_trip_clock; exact E.
Qed.

Lemma getUserByWordPressId_clock x w r w' :
  getUserByWordPressId x w = (r, w') -> clock w' = clock w.
Proof.
  unfold getUserByWordPressId. intro H.
  destruct (select_single (has_wordpress_id x) w) as [[d|] w0] eqn:E;
    inversion H; subst; eapply round_trip_clock; exact E.
Qed.

Lemma updateUser_clock k p w r w' :
  updateUser k p w = (r, w') -> clock w' = clock w.
Proof.
  unfold updateUser, bind, now. intro H.
  destruct (getUserById k w) as [[r0|e0] w0] eqn:E0;
    apply getUserById_clock_any in E0.
  - destruct (update_single k (apply_patch p (clock w0)) w0)
      as [[d|] w1] eqn:E1; apply round_trip_clock in E1;
      inversion H; subst; congruence.
  - inversion H; subst. exact E0.
Qed.

Lemma createUser_clock nu w r w' :
  createUser nu w = (r, w') -> clock w' = clock w.
Proof.
  unfold createUser, bind, uuidv4, now, throw. intro H.
  destruct (getUserByEmail (nu_email nu) w) as [[o|e0] w0] eqn:E0;
    apply getUserByEmail_clock in E0.
  - destruct o as [existing|].
    + inversion H; subst. exact E0.
    + simpl in H.
      match type of H with
      | context [insert_single ?row ?wx] =>
          destruct (insert_single row wx) as [[d|] w1] eqn:E1;
            apply round_trip_clock in E1
      end; inversion H; subst; simpl in E1; congruence.
  - inversion H; subst. exact E0.
Qed.

Lemma reconcile_clock penv wpUser w r w' :
  getUserOrCreateFromWordPress penv wpUser w = (r, w') -> clock w' = clock w.
Proof.
  unfold getUserOrCreateFromWordPress, bind, now, ret. intro H.
  destruct (getUserByWordPressId (wp_id wpUser) w) as [[o|e] w0] eqn:E0;
    apply getUserByWordPressId_clock in E0.
  - destruct o as [u0|].
    + destruct (needsSync penv u0 wpUser).
      * apply updateUser_clock in H. congruence.
      * inversion H; subst. exact E0.
    + destruct (getUserByEmail (wp_email wpUser) w0) as [[o|e] w1] eqn:E1;
        apply getUserByEmail_clock in E1.
      * destruct o as [u0|].
        -- apply updateUser_clock in H. congruence.
        -- apply createUser_clock in H. congruence.
      * inversion H; subst. congruence.
  - inversion H; subst. exact E0.
Qed.

(** The errors of the user service are never a 400 or a 401. *)
Lemma updateUser_thrown_kind k p w e w' :
  updateUser k p w = (Thrown e, w') -> is_auth_or_bad_request e = false.
Proof.
  intro H. apply updateUser_thrown_rows in H.
  destruct H as [_ [H|H]]; now subst.
Qed.

Lemma createUser_thrown_kind nu w e w' :
  createUser nu w = (Thrown e, w') -> is_auth_or_bad_request e = false.
Proof.
  unfold createUser, bind, uuidv4, now, throw. intro H.
  destruct (getUserByEmail (nu_email nu) w) as [[o|e0] w0] eqn:E0.
  - destruct o as [existing|].
    + now inversion H.
    + simpl in H.
      match type of H with
      | context [insert_single ?row ?wx] =>
          destruct (insert_single row wx) as [[d|] w1]
      end; now inversion H.
  - apply getUserByEmail_inv in E0. destruct E0 as [_ [o [Ho _]]].
    discriminate Ho.
Qed.

Lemma reconcile_thrown_kind penv wpUser w e w' :
  getUserOrCreateFromWordPress penv wpUser w = (Thrown e, w') ->
  is_auth_or_bad_request e = false.
Proof.
  unfold getUserOrCreateFromWordPress, bind, now, ret. intro H.
  destruct (getUserByWordPressId (wp_id wpUser) w) as [r0 w0] eqn:E0.
  apply getUserByWordPressId_inv in E0. destruct E0 as [_ [o [Er _]]].
  subst r0. destruct o as [u0|].
  - destruct (needsSync penv u0 wpUser); [|discriminate].
    eapply updateUser_thrown_kind. exact H.
  - destruct (getUserByEmail (wp_email wpUser) w0) as [r1 w1] eqn:E1.
    apply getUserByEmail_inv in E1. destruct E1 as [_ [o [Er _]]].
    subst r1. destruct o as [u0|].
    + eapply updateUser_thrown_kind. exact H.
    + eapply createUser_thrown_kind. exact H.
Qed.

(** X14: a login that fails throws a 400 or a 401 and nothing else.
    [BadRequestError] is thrown exactly when the username or the password
    is empty, and then nothing was touched.  Otherwise the error is an
    [UnauthorizedError]: the verifier's refusal (nothing was touched), the
    refusal of an inactive account, or "Authentication failed", which is
    what every error of the user service (not found, conflict, failed
    read or write) is turned into. *)
Theorem login_failures penv remote hmac username password req w e w' :
  authenticateWithWordPress penv remote hmac username password req w
    = (Thrown e, w') ->
  (e = BadRequestError "Email and password are required" /\
   (username = "" \/ password = "") /\ w' = w)
  \/
  (username <> "" /\ password <> "" /\
   ((e = UnauthorizedError
           "Authentication failed. Please check server logs for details." /\
     w' = w)
    \/ e = UnauthorizedError "User account is inactive"
    \/ e = UnauthorizedError "Authentication failed")).
Proof.
  unfold authenticateWithWordPress, try_catch, JS.truthy.
  destruct (String.eqb_spec username "") as [Hu|Hu]; simpl.
  { unfold throw. intro H. inversion H. left. tauto. }
  destruct (String.eqb_spec password "") as [Hp|Hp]; simpl.
  { unfold throw. intro H. inversion H. left. tauto. }
  intro H. right. split; [exact Hu|]. split; [exact Hp|].
  unfold bind, await, throw, ret, now in H.
  destruct (verifyWordPressCredentials penv remote username password req)
    as [wpUser|e0] eqn:Ev.
  - destruct (getUserOrCreateFromWordPress penv wpUser w) as [[u1|e1] w1] eqn:E1.
    + destruct (active u1); simpl in H.
      * destruct (updateUserMembership (id u1) (getMembershipLevel wpUser) w1)
          as [[u2|e2] w2] eqn:E2; [discriminate|].
        unfold updateUserMembership, bind, now in E2.
        apply updateUser_thrown_kind in E2. rewrite E2 in H.
        inversion H. tauto.
      * inversion H. tauto.
    + apply reconcile_thrown_kind in E1. rewrite E1 in H. inversion H. tauto.
  - unfold verifyWordPressCredentials, JS.truthy in Ev.
    destruct (String.eqb_spec username ""); [contradiction|].
    destruct (String.eqb_spec password ""); [contradiction|].
    simpl in Ev.
    destruct (remote username password); [discriminate|].
    destruct (IS_DEVELOPMENT penv);
      [destruct (verifyWordPressCredentialsDevMode penv username password req);
         [discriminate|] |];
      inversion Ev; subst e0; simpl in H; inversion H; tauto.
Qed.

(** The storage fails while the record is looked up and created. *)
Lemma login_failures_witness :
  fst (authenticateWithWordPress Sample.production Sample.remote Sample.hmac
         "a@x.com" "pw" None (Sample.world [] [true; true; true; true]))
  = Thrown (UnauthorizedError "Authentication failed").
Proof.
  destruct (authenticateWithWordPress Sample.production Sample.remote
              Sample.hmac "a@x.com" "pw" None
              (Sample.world [] [true; true; true; true]))
    as [[r|e] w'] eqn:E; [discriminate E|].
  destruct (login_failures _ _ _ _ _ _ _ _ _ E)
    as [[_ [[H|H] _]]|[_ [_ [[H1 H2]|[H|H]]]]];
    try discriminate H.
  - rewrite H2 in E. discriminate E.
  - subst e. discriminate E.
  - now subst e.
Defined.

(** The token of a login that went through. *)
Lemma authenticate_token penv remote hmac username password req w user token w' :
  authenticateWithWordPress penv remote hmac username password req w
    = (Returned (user, token), w') ->
  token = generateToken penv hmac
            {| jwt_id := id user; jwt_email := email user;
               jwt_role := role user |} (clock w / 1000).
Proof.
  unfold authenticateWithWordPress, try_catch. intro H.
  match type of H with
  | context [match ?c w with _ => _ end] =>
      destruct (c w) as [[[user0 token0]|e] w0] eqn:E
  end.
  2:{ unfold throw in H. destruct (is_auth_or_bad_request e); discriminate. }
  inversion H; subst. clear H.
  destruct (negb (JS.truthy username) || negb (JS.truthy password));
    [discriminate|].
  unfold bind, await in E.
  destruct (verifyWordPressCredentials penv remote username password req)
    as [wpUser|e]; [|discriminate].
  destruct (getUserOrCreateFromWordPress penv wpUser w) as [[u1|e] w1] eqn:E1;
    [|discriminate].
  apply reconcile_clock in E1.
  destruct (active u1) eqn:Ha; simpl in E; [|discriminate].
  destruct (updateUserMembership (id u1) (getMembershipLevel wpUser) w1)
    as [[u2|e] w2] eqn:E2; [|discriminate].
  unfold updateUserMembership, bind, now in E2. apply updateUser_clock in E2.
  unfold now, ret in E. inversion E; subst. congruence.
Qed.

(** X15: the access token a login returns verifies, at any time before
    its expiry, to the id, email and role of the user the login returned;
    it is issued at the second of the login and expires [JWT_EXPIRATION]
    seconds later. *)
Theorem login_token_verifies
    penv remote hmac username password req w user token w' t1 :
  authenticateWithWordPress penv remote hmac username password req w
    = (Returned (user, token), w') ->
  t1 < clock w / 1000 + JWT_EXPIRATION penv ->
  verifyToken penv hmac token t1
  = Returned {| jwt.payload := {| jwt_id := id user; jwt_email := email user;
                                  jwt_role := role user |};
                jwt.iat := clock w / 1000;
                jwt.exp := clock w / 1000 + JWT_EXPIRATION penv |}.
Proof.
  intros H Ht. apply authenticate_token in H. subst token.
  unfold verifyToken, generateToken, jwt.sign, jwt.verify.
  rewrite String.eqb_refl. simpl.
  apply Z.leb_gt in Ht. now rewrite Ht.
Qed.

Lemma login_token_verifies_witness :
  exists user token w',
    authenticateWithWordPress Sample.production Sample.remote Sample.hmac
      "a@x.com" "pw" None (Sample.world [] []) = (Returned (user, token), w') /\
    verifyToken Sample.production Sample.hmac token 1700000600
    = Returned {| jwt.payload := {| jwt_id := "u-1"; jwt_email := "a@x.com";
                                    jwt_role := "user" |};
                  jwt.iat := 1700000600;
                  jwt.exp := 1700000600 + 86400 |}.
Proof.
  eexists. eexists. eexists. split; [reflexivity|].
  refine (login_token_verifies Sample.production Sample.remote Sample.hmac
            "a@x.com" "pw" None (Sample.world [] []) _ _ _ 1700000600
            eq_refl _).
  vm_compute. reflexivity.
Defined.

(** X16: an inactive account cannot log in.  With the storage answering,
    when the record the identity is linked to is inactive, the login
    fails: with "User account is inactive", or with "Authentication
    failed" when the sync of the record could not be written. *)
Theorem inactive_account_cannot_login
    penv remote hmac username password req wpUser w u0 :
  faults w = [] ->
  verifyWordPressCredentials penv remote username password req
    = Returned wpUser ->
  single (filter (has_wordpress_id (wp_id wpUser)) (rows w)) = Some u0 ->
  active u0 = false ->
  exists e w',
    authenticateWithWordPress penv remote hmac username password req w
      = (Thrown e, w') /\
    (e = UnauthorizedError "User account is inactive" \/
     e = UnauthorizedError "Authentication failed").
Proof.
  intros Hh Hv Hs Ha.
  unfold authenticateWithWordPress, try_catch.
  assert (Ht : negb (JS.truthy username) || negb (JS.truthy password) = false).
  { unfold verifyWordPressCredentials in Hv.
    destruct (negb (JS.truthy username) || negb (JS.truthy password));
      [discriminate | reflexivity]. }
  rewrite Ht. unfold bind at 1, await. rewrite Hv.
  unfold bind at 1.
  unfold getUserOrCreateFromWordPress, bind at 1.
  rewrite (getUserByWordPressId_healthy _ _ Hh), Hs.
  destruct (needsSync penv u0 wpUser).
  - destruct (updateUser (id u0) (syncValues penv wpUser u0) w)
      as [[u1|e1] w1] eqn:E1.
    + apply updateUser_inv in E1.
      destruct E1 as [r0 [t [Hf [Hu _]]]].
      apply single_inv in Hs.
      destruct (filter_single_In _ _ _ Hs) as [Hin _].
      assert (E : u0 = r0).
      { eapply filter_single_unique; [exact Hf | exact Hin |].
        now apply has_id_true. }
      subst r0.
      assert (Ha1 : active u1 = false) by (subst u1; exact Ha).
      rewrite Ha1. simpl. unfold throw. eexists. eexists.
      split; [reflexivity | now left].
    + apply updateUser_thrown_kind in E1. rewrite E1. unfold throw.
      eexists. eexists. split; [reflexivity | now right].
  - unfold ret. rewrite Ha. simpl. unfold throw. eexists. eexists.
    split; [reflexivity | now left].
Qed.

Lemma inactive_account_cannot_login_witness :
  let locked :=
    {| id := "u-1"; email := "a@x.com"; name := "Alice"; role := "user";
       credits := 10; subscription := "basic"; active := false;
       wordpress_id := Some "42"; picture := None;
       wordpress_membership_id := Some 1;
       wordpress_membership_name := Some "basic";
       wordpress_membership_updated := None;
       created_at := 1700000000000; updated_at := 1700000000000 |} in
  exists e w',
    authenticateWithWordPress Sample.production Sample.remote Sample.hmac
      "a@x.com" "pw" None (Sample.world [locked] []) = (Thrown e, w') /\
    (e = UnauthorizedError "User account is inactive" \/
     e = UnauthorizedError "Authentication failed").
Proof.
  cbv zeta.
  eapply (inactive_account_cannot_login Sample.production Sample.remote
            Sample.hmac "a@x.com" "pw" None Sample.alice); reflexivity.
Defined.

(** ** The middleware *)

Lemma extract_bearer (t : string) :
  extractTokenFromHeader (Some ("Bearer " ++ t)%string) = Some t.
Proof.
  unfold extractTokenFromHeader, JS.startsWith. simpl.
  rewrite Nat.sub_0_r, substring_full. now destruct t.
Qed.

(** X17: on the two open endpoints ("/session", "/messages/examples")
    [authenticate] never refuses a request, and what it passes on is
    decided by the token it chose (the header's, or else the cookie's):
    when that token verifies, the request with the user of the token
    attached; when it is refused, and when there is no token, the request
    as it came. *)
Theorem authenticate_open_endpoint penv hmac decode req t :
  open_endpoint req = true ->
  (forall e, authenticate penv hmac decode req t <> next_error e) /\
  (forall tok c,
     JS.or_opt (extractTokenFromHeader (rq_authorization req))
               (JS.or_null (rq_access_token req)) = Some tok ->
     verifyToken penv hmac (decode tok) t = Returned c ->
     authenticate penv hmac decode req t
     = next (with_user {| jwt_id := jwt_id (jwt.payload c);
                          jwt_email := jwt_email (jwt.payload c);
                          jwt_role := jwt_role (jwt.payload c) |} req)) /\
  (forall tok e,
     JS.or_opt (extractTokenFromHeader (rq_authorization req))
               (JS.or_null (rq_access_token req)) = Some tok ->
     verifyToken penv hmac (decode tok) t = Thrown e ->
     authenticate penv hmac decode req t = next req) /\
  (JS.or_opt (extractTokenFromHeader (rq_authorization req))
             (JS.or_null (rq_access_token req)) = None ->
   authenticate penv hmac decode req t = next req).
Proof.
  intro Ho. unfold authenticate. rewrite Ho.
  destruct (JS.or_opt (extractTokenFromHeader (rq_authorization req))
              (JS.or_null (rq_access_token req))) as [tok0|].
  - destruct (verifyToken penv hmac (decode tok0) t) as [c0|e0] eqn:E;
      repeat split; try discriminate.
    + intros tok c Ht Hv. inversion Ht; subst tok. rewrite E in Hv.
      now inversion Hv.
    + intros tok e Ht Hv. inversion Ht; subst tok. rewrite E in Hv.
      discriminate Hv.
    + intros tok c Ht Hv. inversion Ht; subst tok. rewrite E in Hv.
      discriminate Hv.
  - repeat split; discriminate.
Qed.

(** On "/session": a token that verifies, a token that does not, and no
    token at all. *)
Lemma authenticate_open_endpoint_witness :
  authenticate Sample.production Sample.hmac Fixture.decode
    (Fixture.request "/session" "GET" (Some "Bearer user.jwt") None) 1700000000
  = next (with_user Fixture.user_claims
            (Fixture.request "/session" "GET" (Some "Bearer user.jwt") None))
  /\
  authenticate Sample.production Sample.hmac Fixture.decode
    (Fixture.request "/session" "GET" (Some "Bearer garbage") None) 1700000000
  = next (Fixture.request "/session" "GET" (Some "Bearer garbage") None)
  /\
  authenticate Sample.production Sample.hmac Fixture.decode
    (Fixture.request "/session" "GET" None None) 1700000000
  = next (Fixture.request "/session" "GET" None None).
Proof.
  split; [|split].
  - exact (proj1 (proj2 (authenticate_open_endpoint Sample.production
                           Sample.hmac Fixture.decode
                           (Fixture.request "/session" "GET"
                              (Some "Bearer user.jwt") None)
                           1700000000 eq_refl))
             "user.jwt" _ eq_refl eq_refl).
  - exact (proj1 (proj2 (proj2 (authenticate_open_endpoint Sample.production
                           Sample.hmac Fixture.decode
                           (Fixture.request "/session" "GET"
                              (Some "Bearer garbage") None)
                           1700000000 eq_refl)))
             "garbage" _ eq_refl eq_refl).
  - exact (proj2 (proj2 (proj2 (authenticate_open_endpoint Sample.production
                           Sample.hmac Fixture.decode
                           (Fixture.request "/session" "GET" None None)
                           1700000000 eq_refl)))
             eq_refl).
Defined.

(** X18: on every other endpoint [authenticate] lets a request through
    only with the user of a token that verified attached, and refuses it
    in two ways only: "Authentication required" when neither the header
    nor the cookie carries a token, "Invalid authentication token" when
    the token does not verify; an expired token and a forged one get the
    same refusal. *)
Theorem authenticate_closed_endpoint penv hmac decode req t :
  open_endpoint req = false ->
  (forall e, authenticate penv hmac decode req t = next_error e ->
     (e = UnauthorizedError "Authentication required" /\
      JS.or_opt (extractTokenFromHeader (rq_authorization req))
                (JS.or_null (rq_access_token req)) = None)
     \/
     (e = UnauthorizedError "Invalid authentication token" /\
      exists tok e',
        JS.or_opt (extractTokenFromHeader (rq_authorization req))
                  (JS.or_null (rq_access_token req)) = Some tok /\
        verifyToken penv hmac (decode tok) t = Thrown e')) /\
  (forall r, authenticate penv hmac decode req t = next r ->
     exists tok c,
       JS.or_opt (extractTokenFromHeader (rq_authorization req))
                 (JS.or_null (rq_access_token req)) = Some tok /\
       verifyToken penv hmac (decode tok) t = Returned c /\
       rq_user r = Some {| jwt_id := jwt_id (jwt.payload c);
                           jwt_email := jwt_email (jwt.payload c);
                           jwt_role := jwt_role (jwt.payload c) |}).
Proof.
  intro Ho. unfold authenticate. rewrite Ho.
  destruct (JS.or_opt (extractTokenFromHeader (rq_authorization req))
              (JS.or_null (rq_access_token req))) as [tok|].
  - destruct (verifyToken penv hmac (decode tok) t) as [c|e'] eqn:E; split.
    + discriminate.
    + intros r H. inversion H; subst. exists tok, c. now repeat split.
    + intros e H. inversion H; subst. right. split; [reflexivity|].
      exists tok, e'. now split.
    + discriminate.
  - split; [|discriminate]. intros e H. inversion H. now left.
Qed.

(** A token past its expiry and a forged one, on a closed endpoint. *)
Lemma authenticate_closed_endpoint_witness :
  authenticate Sample.production Sample.hmac Fixture.decode
    (Fixture.request "/users/me" "GET" (Some "Bearer user.jwt") None)
    1800000000
  = next_error (UnauthorizedError "Invalid authentication token")
  /\
  authenticate Sample.production Sample.hmac Fixture.decode
    (Fixture.request "/users/me" "GET" (Some "Bearer forged") None)
    1700000000
  = next_error (UnauthorizedError "Invalid authentication token").
Proof.
  split.
  - destruct (authenticate Sample.production Sample.hmac Fixture.decode
                (Fixture.request "/users/me" "GET" (Some "Bearer user.jwt") None)
                1800000000) as [r|e] eqn:E; [discriminate E|].
    destruct (proj1 (authenticate_closed_endpoint Sample.production Sample.hmac
                       Fixture.decode
                       (Fixture.request "/users/me" "GET"
                          (Some "Bearer user.jwt") None)
                       1800000000 eq_refl) e E)
      as [[_ H]|[H _]]; [discriminate H | now rewrite H].
  - destruct (authenticate Sample.production Sample.hmac Fixture.decode
                (Fixture.request "/users/me" "GET" (Some "Bearer forged") None)
                1700000000) as [r|e] eqn:E; [discriminate E|].
    destruct (proj1 (authenticate_closed_endpoint Sample.production Sample.hmac
                       Fixture.decode
                       (Fixture.request "/users/me" "GET"
                          (Some "Bearer forged") None)
                       1700000000 eq_refl) e E)
      as [[_ H]|[H _]]; [discriminate H | now rewrite H].
Defined.

(** X19: the header goes before the cookie.  With a non-empty bearer
    token in the [Authorization] header, [authenticate] decides on the
    header's token, whatever the cookie holds; with no header, a header
    that is not a bearer header, or the bare header "Bearer ", it decides
    on a non-empty [access_token] cookie in its place. *)
Theorem authenticate_token_choice penv hmac decode req t :
  (forall tok, tok <> "" ->
     rq_authorization req = Some ("Bearer " ++ tok)%string ->
     authenticate penv hmac decode req t
     = match verifyToken penv hmac (decode tok) t with
       | Returned c =>
           next (with_user {| jwt_id := jwt_id (jwt.payload c);
                              jwt_email := jwt_email (jwt.payload c);
                              jwt_role := jwt_role (jwt.payload c) |} req)
       | Thrown _ =>
           if open_endpoint req then next req
           else next_error (UnauthorizedError "Invalid authentication token")
       end) /\
  (forall cookie, cookie <> "" ->
     rq_access_token req = Some cookie ->
     (rq_authorization req = None \/
      rq_authorization req = Some "Bearer " \/
      extractTokenFromHeader (rq_authorization req) = None) ->
     authenticate penv hmac decode req t
     = match verifyToken penv hmac (decode cookie) t with
       | Returned c =>
           next (with_user {| jwt_id := jwt_id (jwt.payload c);
                              jwt_email := jwt_email (jwt.payload c);
                              jwt_role := jwt_role (jwt.payload c) |} req)
       | Thrown _ =>
           if open_endpoint req then next req
           else next_error (UnauthorizedError "Invalid authentication token")
       end).
Proof.
  unfold authenticate. split.
  - intros tok Hne Hh. rewrite Hh, extract_bearer.
    apply truthy_nonempty in Hne. unfold JS.or_opt, JS.or_null at 1.
    now rewrite Hne.
  - intros cookie Hne Hc Hh. rewrite Hc.
    apply truthy_nonempty in Hne.
    assert (Hx : JS.or_null (extractTokenFromHeader (rq_authorization req))
                 = None).
    { destruct Hh as [Hh|[Hh|Hh]]; rewrite Hh; reflexivity. }
    unfold JS.or_opt. rewrite Hx. unfold JS.or_null. now rewrite Hne.
Qed.

(** Header and cookie carry different tokens; then the bare header. *)
Lemma authenticate_token_choice_witness :
  authenticate Sample.production Sample.hmac Fixture.decode
    (Fixture.request "/users/me" "GET" (Some "Bearer user.jwt")
       (Some "admin.jwt")) 1700000000
  = next (with_user Fixture.user_claims
            (Fixture.request "/users/me" "GET" (Some "Bearer user.jwt")
               (Some "admin.jwt")))
  /\
  authenticate Sample.production Sample.hmac Fixture.decode
    (Fixture.request "/users/me" "GET" (Some "Bearer ") (Some "admin.jwt"))
    1700000000
  = next (with_user Fixture.admin_claims
            (Fixture.request "/users/me" "GET" (Some "Bearer ")
               (Some "admin.jwt"))).
Proof.
  split.
  - rewrite (proj1 (authenticate_token_choice Sample.production Sample.hmac
                      Fixture.decode
                      (Fixture.request "/users/me" "GET"
                         (Some "Bearer user.jwt") (Some "admin.jwt"))
                      1700000000) "user.jwt");
      [reflexivity | discriminate | reflexivity].
  - rewrite (proj2 (authenticate_token_choice Sample.production Sample.hmac
                      Fixture.decode
                      (Fixture.request "/users/me" "GET"
                         (Some "Bearer ") (Some "admin.jwt"))
                      1700000000) "admin.jwt");
      [reflexivity | discriminate | reflexivity | right; left; reflexivity].
Defined.

Lemma with_user_eta (u : JwtUserPayload) (req : ExpressRequest) :
  with_user {| jwt_id := jwt_id u; jwt_email := jwt_email u;
               jwt_role := jwt_role u |} req = with_user u req.
Proof. now destruct u. Qed.

(** What [authenticate] does with the bearer token of a login. *)
Lemma issued_token_passes penv hmac decode req s user t0 t1 :
  s <> "" ->
  rq_authorization req = Some ("Bearer " ++ s)%string ->
  decode s = generateToken penv hmac user t0 ->
  t1 < t0 + JWT_EXPIRATION penv ->
  authenticate penv hmac decode req t1 = next (with_user user req).
Proof.
  intros Hne Hh Hd Ht. unfold authenticate.
  rewrite Hh, extract_bearer. apply truthy_nonempty in Hne.
  unfold JS.or_opt, JS.or_null at 1. rewrite Hne, Hd.
  unfold verifyToken, generateToken, jwt.sign, jwt.verify.
  rewrite String.eqb_refl. simpl.
  apply Z.leb_gt in Ht. rewrite Ht. simpl. now destruct user.
Qed.

Lemma requireAdmin_with_user (u : JwtUserPayload) (req : ExpressRequest) :
  requireAdmin (with_user u req) = next (with_user u req) <->
  jwt_role u = "admin".
Proof.
  unfold requireAdmin. simpl.
  destruct (String.eqb_spec (jwt_role u) "admin"); simpl; split;
    try tauto; try discriminate.
Qed.

(** X20: a token issued for a user, sent as bearer token before its
    expiry, gets through [authenticate] with exactly that user attached
    to the request; [requireAdmin] then lets the request through if and
    only if the role in the token is "admin" and answers 403 otherwise;
    a request that did not go through [authenticate] gets a 401 from
    [requireAdmin]. *)
Theorem issued_token_authenticates penv hmac decode req s user t0 t1 :
  s <> "" ->
  rq_authorization req = Some ("Bearer " ++ s)%string ->
  decode s = generateToken penv hmac user t0 ->
  t1 < t0 + JWT_EXPIRATION penv ->
  authenticate penv hmac decode req t1 = next (with_user user req) /\
  (requireAdmin (with_user user req) = next (with_user user req) <->
   jwt_role user = "admin") /\
  (jwt_role user <> "admin" ->
   requireAdmin (with_user user req)
   = next_error (ForbiddenError "Admin access required")) /\
  (rq_user req = None ->
   requireAdmin req = next_error (UnauthorizedError "Authentication required")).
Proof.
  intros Hne Hh Hd Ht. split; [|split; [|split]].
  - now apply (issued_token_passes penv hmac decode req s user t0 t1).
  - apply requireAdmin_with_user.
  - intro Hr. unfold requireAdmin. simpl.
    apply String.eqb_neq in Hr. now rewrite Hr.
  - intro Hn. unfold requireAdmin. now rewrite Hn.
Qed.

Lemma issued_token_authenticates_witness :
  let req := Fixture.request "/users" "GET" (Some "Bearer user.jwt") None in
  authenticate Sample.production Sample.hmac Fixture.decode req 1700000001
  = next (with_user Fixture.user_claims req) /\
  requireAdmin (with_user Fixture.user_claims req)
  = next_error (ForbiddenError "Admin access required").
Proof.
  cbv zeta.
  destruct (issued_token_authenticates Sample.production Sample.hmac
              Fixture.decode
              (Fixture.request "/users" "GET" (Some "Bearer user.jwt") None)
              "user.jwt" Fixture.user_claims 1700000000 1700000001)
    as [H1 [_ [H3 _]]]; try reflexivity; try discriminate.
  split; [exact H1|]. apply H3. discriminate.
Defined.

(** X21: admin access follows the WordPress role.  For an identity that
    is not the dev-mode one, the access token of its login, sent as
    bearer token before its expiry, gets through [authenticate], and then
    through [requireAdmin] if and only if the identity's WordPress roles
    contain "administrator". *)
Theorem admin_access_follows_wordpress_role
    penv remote hmac decode username password lreq wpUser w user token w'
    s req t1 :
  verifyWordPressCredentials penv remote username password lreq
    = Returned wpUser ->
  isDevModeUser penv wpUser = false ->
  authenticateWithWordPress penv remote hmac username password lreq w
    = (Returned (user, token), w') ->
  s <> "" -> decode s = token ->
  rq_authorization req = Some ("Bearer " ++ s)%string ->
  t1 < clock w / 1000 + JWT_EXPIRATION penv ->
  exists r,
    authenticate penv hmac decode req t1 = next r /\
    (requireAdmin r = next r <->
     In WP_ROLE_MAPPING.ADMIN (wp_roles wpUser)).
Proof.
  intros Hv Hd H Hne Hs Hh Ht.
  pose proof (authenticate_token _ _ _ _ _ _ _ _ _ _ H) as Htok.
  apply authenticate_inv in H.
  destruct H as [wpUser' [w1 [u' [Hv' [Hrec _]]]]].
  rewrite Hv in Hv'. inversion Hv'; subst wpUser'.
  pose proof (reconcile_fields _ _ _ _ _ Hrec) as [_ [_ [_ [Hr _]]]].
  unfold assignedRole in Hr. rewrite Hd in Hr.
  rewrite Htok in Hs.
  eexists. split.
  - eapply issued_token_passes; eassumption.
  - rewrite requireAdmin_with_user. simpl. rewrite Hr.
    apply determineUserRole_admin.
Qed.

Lemma admin_access_follows_wordpress_role_witness :
  exists r,
    authenticate Sample.production Sample.hmac
      (fun s =>
         if (s =? "alice.jwt")%string then
           generateToken Sample.production Sample.hmac
             {| jwt_id := "u-1"; jwt_email := "a@x.com"; jwt_role := "user" |}
             1700000600
         else jwt.Malformed s)
      (Fixture.request "/users" "GET" (Some "Bearer alice.jwt") None)
      1700000700 = next r /\
    requireAdmin r <> next r.
Proof.
  destruct (admin_access_follows_wordpress_role
              Sample.production Sample.remote Sample.hmac
              (fun s =>
                 if (s =? "alice.jwt")%string then
                   generateToken Sample.production Sample.hmac
                     {| jwt_id := "u-1"; jwt_email := "a@x.com";
                        jwt_role := "user" |} 1700000600
                 else jwt.Malformed s)
              "a@x.com" "pw" None Sample.alice (Sample.world [] [])
              _ _ _ "alice.jwt"
              (Fixture.request "/users" "GET" (Some "Bearer alice.jwt") None)
              1700000700 eq_refl eq_refl eq_refl)
    as [r [H1 H2]]; try reflexivity; try discriminate.
  exists r. split; [exact H1|].
  intro Hp. apply H2 in Hp. simpl in Hp. destruct Hp as [Hp|[]].
  discriminate Hp.
Defined.

(** X22: [validateCsrf] lets a request through, unchanged, exactly when
    its method is GET, HEAD or OPTIONS, or when the [x-csrf-token] header
    and the session's token are both present, non-empty and equal; every
    other request gets a 403 "Invalid or missing CSRF token". *)
Theorem validateCsrf_outcomes (req : ExpressRequest) :
  (validateCsrf req = next req <->
   In (rq_method req) ["GET"; "HEAD"; "OPTIONS"] \/
   exists tok, tok <> "" /\ rq_csrf_header req = Some tok /\
               rq_session_csrf req = Some tok) /\
  (validateCsrf req = next req \/
   validateCsrf req = next_error (ForbiddenError "Invalid or missing CSRF token")).
Proof.
  unfold validateCsrf, JS.includes.
  destruct (existsb (String.eqb (rq_method req)) ["GET"; "HEAD"; "OPTIONS"])
    eqn:Em.
  - split; [|now left]. split; [|reflexivity].
    intros _. left. now apply existsb_eqb_In.
  - assert (Hm : ~ In (rq_method req) ["GET"; "HEAD"; "OPTIONS"]).
    { intro Hin. apply existsb_eqb_In in Hin. congruence. }
    destruct (JS.or_null (rq_csrf_header req)) as [a|] eqn:Ea.
    + apply or_null_Some in Ea. destruct Ea as [Ea Ta].
      destruct (JS.or_null (rq_session_csrf req)) as [b|] eqn:Eb.
      * apply or_null_Some in Eb. destruct Eb as [Eb Tb].
        destruct (String.eqb_spec a b) as [E|E]; simpl.
        -- subst b. split; [|now left]. split; [|reflexivity].
           intros _. right. exists a. repeat split; try assumption.
           now apply truthy_nonempty.
        -- split; [|now right]. split; [discriminate|].
           intros [Hin|[tok [_ [H1 H2]]]]; [contradiction|]. congruence.
      * split; [|now right]. split; [discriminate|].
        intros [Hin|[tok [Hne [H1 H2]]]]; [contradiction|].
        apply truthy_nonempty in Hne.
        assert (JS.or_null (rq_session_csrf req) = Some tok)
          by (apply or_null_Some; now split).
        congruence.
    + split; [|now right]. split; [discriminate|].
      intros [Hin|[tok [Hne [H1 H2]]]]; [contradiction|].
      apply truthy_nonempty in Hne.
      assert (JS.or_null (rq_csrf_header req) = Some tok)
        by (apply or_null_Some; now split).
      congruence.
Qed.

Lemma validateCsrf_outcomes_witness :
  validateCsrf (Fixture.form "PATCH" (Some "tok-1") (Some "tok-1"))
  = next (Fixture.form "PATCH" (Some "tok-1") (Some "tok-1"))
  /\
  validateCsrf (Fixture.form "PATCH" (Some "") (Some ""))
  = next_error (ForbiddenError "Invalid or missing CSRF token").
Proof.
  split.
  - apply (proj2 (proj1 (validateCsrf_outcomes
                           (Fixture.form "PATCH" (Some "tok-1") (Some "tok-1"))))).
    right. exists "tok-1". repeat split. discriminate.
  - destruct (proj2 (validateCsrf_outcomes
                       (Fixture.form "PATCH" (Some "") (Some ""))))
      as [H|H]; [discriminate H | exact H].
Defined.

(** ** The membership update *)

Lemma updateUserMembership_written k ml w u w' :
  updateUserMembership k ml w = (Returned u, w') ->
  exists r0 t t',
    stored w k = Some r0 /\
    u = apply_patch (membershipValues ml t') t r0 /\
    stored w' k = Some u.
Proof.
  unfold updateUserMembership, bind, now. intro H.
  apply updateUser_inv in H.
  destruct H as [r0 [t [Hf [Hu [Hrows _]]]]].
  exists r0, t, (clock w). subst u. unfold stored.
  rewrite Hf, Hrows, (filter_updated k _ t (rows w) r0 Hf).
  now repeat split.
Qed.

(** X23: [updateUserMembership] writes a coherent entitlement and nothing
    else.  When it returns, the record stored under the id has credits
    and subscription label in one of the four pairs (5, free),
    (10, basic), (20, complete), (500, developer), chosen by the level
    id (1, 2, 999, anything else being free); its membership name is the
    subscription label and its membership id the level id; email, name,
    role, active flag, WordPress id, picture and creation time are those
    of the record before. *)
Theorem updateUserMembership_entitlement k ml w u w' :
  updateUserMembership k ml w = (Returned u, w') ->
  stored w' k = Some u /\
  ((wm_id ml = 2 /\ credits u = 20 /\ subscription u = "complete") \/
   (wm_id ml = 1 /\ credits u = 10 /\ subscription u = "basic") \/
   (wm_id ml = 999 /\ credits u = 500 /\ subscription u = "developer") \/
   (wm_id ml <> 2 /\ wm_id ml <> 1 /\ wm_id ml <> 999 /\
    credits u = 5 /\ subscription u = "free")) /\
  wordpress_membership_name u = Some (subscription u) /\
  wordpress_membership_id u = Some (wm_id ml) /\
  exists r0,
    stored w k = Some r0 /\
    (id u, email u, name u, role u, active u, wordpress_id u, picture u,
     created_at u)
    = (id r0, email r0, name r0, role r0, active r0, wordpress_id r0,
       picture r0, created_at r0).
Proof.
  intro H. apply updateUserMembership_written in H.
  destruct H as [r0 [t [t' [Hs [Hu Hs']]]]].
  split; [exact Hs'|]. subst u. unfold membershipValues, mapMembershipToCredits.
  change MEMBERSHIP_LEVELS.DEVELOPER with 999.
  change MEMBERSHIP_LEVELS.COMPLETE with 2.
  change MEMBERSHIP_LEVELS.BASIC with 1.
  destruct (Z.eqb_spec (wm_id ml) 999) as [E9|E9];
    destruct (Z.eqb_spec (wm_id ml) 2) as [E2|E2];
    destruct (Z.eqb_spec (wm_id ml) 1) as [E1|E1];
    try (exfalso; lia); simpl;
    (split; [|split; [reflexivity|split; [reflexivity|]]]);
    try (exists r0; split; [exact Hs | reflexivity]).
  - right; right; left. now repeat split.
  - left. now repeat split.
  - right; left. now repeat split.
  - right; right; right. now repeat split.
Qed.

Lemma updateUserMembership_entitlement_witness :
  exists u w',
    updateUserMembership "u-1" (getMembershipLevel Sample.alice)
      (Sample.world [Sample.row "admin" 3 (Some "42")] []) = (Returned u, w') /\
    stored w' "u-1" = Some u /\
    credits u = 10 /\ subscription u = "basic" /\ role u = "admin".
Proof.
  eexists. eexists. split; [reflexivity|].
  destruct (updateUserMembership_entitlement "u-1"
              (getMembershipLevel Sample.alice)
              (Sample.world [Sample.row "admin" 3 (Some "42")] [])
              _ _ eq_refl) as [Hs [Hc _]].
  split; [exact Hs|].
  destruct Hc as [[E _]|[[_ [Hc Hsub]]|[[E _]|[_ [E _]]]]];
    try discriminate E.
  - repeat split; assumption.
  - exfalso. apply E. reflexivity.
Defined.

Lemma devModeUser_isDevModeUser penv :
  IS_DEVELOPMENT penv = true -> isDevModeUser penv (devModeUser penv) = true.
Proof.
  intro H. unfold isDevModeUser. rewrite H. simpl. apply String.eqb_refl.
Qed.

(** X24: what a dev-mode login leaves behind.  In development mode,
    when the dev identity logs in, the user the login returns (and the
    session data made from it) is an admin holding [DEV_MODE_CREDITS]
    credits, but the record stored under its id after the login holds 5
    credits with subscription "free": the membership update that follows
    the reconciliation resolves the dev identity's level to FREE and
    overwrites what the reconciliation wrote. *)
Theorem dev_login_entitlement
    penv remote hmac username password req w user token w' :
  IS_DEVELOPMENT penv = true ->
  verifyWordPressCredentials penv remote username password req
    = Returned (devModeUser penv) ->
  authenticateWithWordPress penv remote hmac username password req w
    = (Returned (user, token), w') ->
  sd_role (createSessionData user) = "admin" /\
  sd_credits (createSessionData user) = DEV_MODE_CREDITS penv /\
  exists row,
    stored w' (id user) = Some row /\
    credits row = 5 /\ subscription row = "free" /\
    wordpress_membership_name row = Some "free" /\
    wordpress_membership_id row = Some 0.
Proof.
  intros Hd Hv H. apply authenticate_inv in H.
  destruct H as [wpUser [w1 [u' [Hv' [Hrec [_ Hup]]]]]].
  rewrite Hv in Hv'. inversion Hv'; subst wpUser.
  pose proof (devModeUser_isDevModeUser penv Hd) as Hdev.
  pose proof (reconcile_fields _ _ _ _ _ Hrec) as [_ [_ [_ [Hr Hc]]]].
  unfold assignedRole in Hr. rewrite Hdev in Hr.
  split; [exact Hr|]. split; [exact (Hc Hdev)|].
  apply updateUserMembership_written in Hup.
  destruct Hup as [r0 [t [t' [_ [Hu Hs']]]]].
  exists u'. split; [exact Hs'|]. subst u'. now repeat split.
Qed.

Lemma dev_login_entitlement_witness :
  exists user token w' row,
    authenticateWithWordPress Sample.development Sample.unreachable
      Sample.hmac "dev@example.com" "devpassword-long" None
      (Sample.world [] []) = (Returned (user, token), w') /\
    sd_credits (createSessionData user) = 1000 /\
    stored w' (id user) = Some row /\ credits row = 5.
Proof.
  destruct (dev_login_entitlement Sample.development Sample.unreachable
              Sample.hmac "dev@example.com" "devpassword-long" None
              (Sample.world [] []) _ _ _ eq_refl eq_refl eq_refl)
    as [_ [Hc [row [Hs [Hcr _]]]]].
  eexists. eexists. eexists. exists row.
  split; [reflexivity|]. split; [exact Hc|]. split; [exact Hs | exact Hcr].
Defined.

(** ** What a reconciliation leaves alone *)

(** X25: a reconciliation touches one record at most.  When it returns,
    either the table is the old one followed by the returned record (a
    creation), or the returned record is an old record with the same id,
    creation time, active flag and membership snapshot, and, for an
    identity that is not the dev-mode one, the same credits and
    subscription; in that case every row under another id is unchanged. *)
Theorem reconcile_frame penv wpUser w u w' :
  getUserOrCreateFromWordPress penv wpUser w = (Returned u, w') ->
  rows w' = (rows w ++ [u])%list \/
  exists u0,
    In u0 (rows w) /\
    (id u, created_at u, active u, wordpress_membership_id u,
     wordpress_membership_name u, wordpress_membership_updated u)
    = (id u0, created_at u0, active u0, wordpress_membership_id u0,
       wordpress_membership_name u0, wordpress_membership_updated u0) /\
    (isDevModeUser penv wpUser = false ->
     credits u = credits u0 /\ subscription u = subscription u0) /\
    filter (fun x => negb (has_id (id u0) x)) (rows w')
      = filter (fun x => negb (has_id (id u0) x)) (rows w).
Proof.
  intro H. apply reconcile_inv in H.
  destruct H as [[u0 [Hf [Hn [Eu Hrows]]]]
                |[[u0 [t [Hf [Eu [Hrows Hok]]]]]
                 |[[u0 [t [Hf [Eu [Hrows Hok]]]]]
                  |[i [t [t' [Eu [Hrows Hok]]]]]]]].
  - right. exists u0. destruct (filter_single_In _ _ _ Hf) as [Hin _].
    subst u. rewrite Hrows. now repeat split.
  - right. exists u0. destruct (filter_single_In _ _ _ Hf) as [Hin _].
    subst u. rewrite Hrows. repeat split; try assumption.
    + simpl. now rewrite H.
    + simpl. now rewrite H.
    + apply others_untouched.
  - right. exists u0. destruct (filter_single_In _ _ _ Hf) as [Hin _].
    subst u. rewrite Hrows. repeat split; try assumption.
    + simpl. now rewrite H.
    + simpl. now rewrite H.
    + apply others_untouched.
  - now left.
Qed.

(** A promotion upstream: the role changes, the rest of the record stays. *)
Lemma reconcile_frame_witness :
  exists u w',
    getUserOrCreateFromWordPress Sample.production Sample.alice_admin
      (Sample.world [Sample.row "user" 7 (Some "42")] []) = (Returned u, w') /\
    role u = "admin" /\ credits u = 7 /\ subscription u = "basic" /\
    active u = true /\ created_at u = 1700000000000.
Proof.
  eexists. eexists. split; [reflexivity|].
  destruct (reconcile_frame Sample.production Sample.alice_admin
              (Sample.world [Sample.row "user" 7 (Some "42")] [])
              _ _ eq_refl) as [Hnew|[u0 [Hin [Hkeep [Hcred _]]]]].
  - discriminate Hnew.
  - simpl in Hin. destruct Hin as [E|[]]. subst u0.
    destruct (Hcred eq_refl) as [Hc Hs].
    split; [reflexivity|]. split; [exact Hc|]. split; [exact Hs|].
    split; reflexivity.
Defined.
